(** * Stand reservations: conflict check, bump, placement handlers, audit

    A shallow embedding of [apps/api/src/routes/planning/reservations.ts]
    (the four write handlers and [getActor]) over an explicit model of the
    Prisma tables they touch, followed by the properties of the
    specification that concern them.

    Conventions of the embedding.
    - A [Date] is its epoch-millisecond value, a [Z]; [toISOString] is
      injective on valid dates, so an audit payload stores the same [Z].
    - Ids (uuids) are strings.  A table with a primary key is a [gmap] from
      that key; [StandReservation] is kept as the list of its rows, so that
      the one-row-per-event property is a theorem about [upsert] and not a
      by-product of the representation.
    - The handlers are modelled from the point where the body has been
      parsed by zod and [assertPermission] / the role gate have passed; the
      [refine] check of [dnd-place] is part of the model because it is a
      property of the window, not of the wire format.
    - Each [ascii] of a [string] stands for one UTF-16 code unit of the
      JavaScript string.
    - Calls run one after the other.  [orderBy startAt] is stdpp's
      [merge_sort] on [startAt].  Which row a [findFirst] without
      [orderBy] returns is left to the database: the store carries that
      choice as [firstOf], and the statements hold for every choice.  The
      [findMany] of the named bump has no [orderBy] either; it lists the
      rows in table order, and under the unique index on [eventId] it
      matches at most one.
    - An error is thrown with the store as it is at that moment; the
      status of the answer is [statusCode].

    The later parts embed the code around the handlers: the listing
    GET /, the authentication hook and the permission gate in front of the
    routes ([plugins/auth.ts], [lib/rbac.ts]), the deletion of an event
    ([events.ts]), and on the client the occupancy of the hangar view
    ([HangarView.tsx]) and the lanes and colour marks of the Gantt view
    ([GanttView.tsx]). *)

From Stdlib Require Import ZArith String Ascii.
From stdpp Require Import base option list sorting gmap strings.

Local Open Scope string_scope.
Local Open Scope list_scope.
Local Open Scope Z_scope.

Module Planning.

(** ** Data model (prisma migrations: [MaintenanceEvent], [HangarLayout],
    [HangarStand], [StandReservation], [MaintenanceEventAudit]) *)

Abbreviation Id := string.

Inductive EventStatus :=
  DRAFT | PLANNED | CONFIRMED | IN_PROGRESS | DONE | CANCELLED.

Inductive EventAuditAction := CREATE | UPDATE | RESERVE | UNRESERVE.

#[global] Instance EventStatus_eq_dec : EqDecision EventStatus.
Proof. solve_decision. Defined.

#[global] Instance EventAuditAction_eq_dec : EqDecision EventAuditAction.
Proof. solve_decision. Defined.

(** [MaintenanceEvent] row, with the tail number of its aircraft joined in
    (the handlers only read it through [include: { aircraft: true }]). *)
Record MaintenanceEvent := mkEvent {
  ev_status : EventStatus;
  ev_title : string;
  ev_tailNumber : string;
  ev_startAt : Z;
  ev_endAt : Z;
  ev_hangarId : option Id;
  ev_layoutId : option Id
}.

(** [StandReservation] row. *)
Record StandReservation := mkReservation {
  r_eventId : Id;
  r_layoutId : Id;
  r_standId : Id;
  r_startAt : Z;
  r_endAt : Z
}.

(** The result of [hangarLayout.findUniqueOrThrow] with
    [select: { id: true, hangarId: true }]. *)
Record LayoutSel := mkLayoutSel {
  sel_id : Id;
  sel_hangarId : Id
}.

(** A placement snapshot as the audit payloads store it. *)
Record Placement := mkPlacement {
  p_layoutId : Id;
  p_standId : Id;
  p_startAt : Z;
  p_endAt : Z
}.

(** The [from] / [to] snapshots of the [dnd-place] payload. *)
Record EventSnapshot := mkSnapshot {
  es_startAt : Z;
  es_endAt : Z;
  es_hangarId : option Id;
  es_layoutId : option Id;
  es_reservation : option Placement
}.

(** The JSON [changes] payload, one constructor per shape the handlers
    build. *)
Inductive Changes :=
  (* { reservation: { from, to } }: PUT and DELETE by-event *)
  | ChReservation (from to : option Placement)
  (* { dnd: { bumpedByEventId, reservationTo, statusTo, hangarIdTo,
       layoutIdTo } }: the record of a displaced event *)
  | ChBumped (bumpedByEventId : Id) (reservationTo : option Placement)
      (statusTo : EventStatus) (hangarIdTo layoutIdTo : option Id)
  (* { dnd: { bumpOnConflict, bumpedEventIds }, reservation: { from, to } } *)
  | ChDndReservation (bumpOnConflict : bool) (bumpedEventIds : list Id)
      (from : option Placement) (to : Placement)
  (* { dnd: { bumpOnConflict, bumpedEventIds }, from, to } *)
  | ChDndPlace (bumpOnConflict : bool) (bumpedEventIds : list Id)
      (from to : EventSnapshot).

(** [MaintenanceEventAudit] row; the table is append-only, its order is the
    order of creation. *)
Record Audit := mkAudit {
  a_eventId : Id;
  a_action : EventAuditAction;
  a_actor : string;
  a_reason : option string;
  a_changes : Changes
}.

#[global] Instance MaintenanceEvent_eq_dec : EqDecision MaintenanceEvent.
Proof. solve_decision. Defined.

#[global] Instance StandReservation_eq_dec : EqDecision StandReservation.
Proof. solve_decision. Defined.

#[global] Instance Placement_eq_dec : EqDecision Placement.
Proof. solve_decision. Defined.

#[global] Instance EventSnapshot_eq_dec : EqDecision EventSnapshot.
Proof. solve_decision. Defined.

#[global] Instance Changes_eq_dec : EqDecision Changes.
Proof. solve_decision. Defined.

#[global] Instance Audit_eq_dec : EqDecision Audit.
Proof. solve_decision. Defined.

Record Store := mkStore {
  events : gmap string MaintenanceEvent;
  layouts : gmap string string;          (* layout id -> hangar id *)
  stands : gset string;
  reservations : list StandReservation;
  audits : list Audit;
  (* Which of the rows that match a [findFirst] without [orderBy] the
     database returns is its own choice: [firstOf] gives, for the matching
     rows, the position of the returned one, counted modulo their number. *)
  firstOf : list StandReservation -> nat
}.

(** What a handler can throw: [httpErrors.badRequest], the [ZodError] of a
    failed [refine], [findUniqueOrThrow] / [update] on a missing row,
    [httpErrors.conflict], and a foreign-key violation raised by the
    database. *)
Inductive Error :=
  | BadRequest (msg : string)
  | ZodError (msg : string)
  | NotFound
  | Conflict (msg : string)
  | ForeignKey.

(** The status of the answer to a thrown error.  [server.ts] registers no
    error handler, so the default one of Fastify answers: with the
    [statusCode] of the error when it has one ([httpErrors.badRequest] is
    400, [httpErrors.conflict] is 409) and with 500 otherwise; the errors
    of Prisma and the [ZodError] carry no [statusCode]. *)
Definition statusCode (e : Error) : Z :=
  match e with
  | BadRequest _ => 400
  | Conflict _ => 409
  | ZodError _ | NotFound | ForeignKey => 500
  end.

Inductive Res (A : Type) :=
  | Ok (a : A)
  | Err (e : Error).
Arguments Ok {A} a.
Arguments Err {A} e.

(** ** The request: what [getActor] reads *)

Record Request := mkRequest {
  req_email : option string;             (* req.auth?.email *)
  req_headers : gmap string string
}.

Definition truthy (s : string) : bool :=
  match s with EmptyString => false | String _ _ => true end.

Definition slice80 (s : string) : string := substring 0 80 s.

Definition headerActor (h : gmap string string) : string :=
  match h !! "x-actor" with
  | Some a => a
  | None => match h !! "x-user" with
            | Some u => u
            | None => "browser"
            end
  end.

Definition getActor (req : Request) : string :=
  match req_email req with
  | Some e => if truthy e then slice80 e else slice80 (headerActor (req_headers req))
  | None => slice80 (headerActor (req_headers req))
  end.

(** ** Store monad: state passing with exceptions

    A write made before a [throw] stays in the returned store: that is
    what a handler without [$transaction] does.  [transaction] restores the
    store the block started from when the block throws. *)

Definition M (A : Type) : Type := Store -> Store * Res A.

Definition ret {A} (a : A) : M A := fun s => (s, Ok a).

Definition throw {A} (e : Error) : M A := fun s => (s, Err e).

Definition bind {A B} (m : M A) (k : A -> M B) : M B :=
  fun s => match m s with
           | (s', Ok a) => k a s'
           | (s', Err e) => (s', Err e)
           end.

Definition transaction {A} (m : M A) : M A :=
  fun s => match m s with
           | (s', Ok a) => (s', Ok a)
           | (_, Err e) => (s, Err e)
           end.

Notation "'do' x <- m ; k" := (bind m (fun x => k))
  (at level 10, x name, m at level 100, k at level 200).
Notation "'do_' m ; k" := (bind m (fun _ => k))
  (at level 10, m at level 100, k at level 200).

Fixpoint forEach {A} (l : list A) (f : A -> M unit) : M unit :=
  match l with
  | [] => ret tt
  | x :: l' => do_ f x; forEach l' f
  end.

(** ** Prisma client calls *)

(** [maintenanceEvent.findUniqueOrThrow({ where: { id } })] *)
Definition findEventOrThrow (id : Id) : M MaintenanceEvent :=
  fun s => match events s !! id with
           | Some e => (s, Ok e)
           | None => (s, Err NotFound)
           end.

(** [hangarLayout.findUniqueOrThrow({ where: { id }, select: { id, hangarId } })] *)
Definition findLayoutOrThrow (id : Id) : M LayoutSel :=
  fun s => match layouts s !! id with
           | Some h => (s, Ok (mkLayoutSel id h))
           | None => (s, Err NotFound)
           end.

Definition rowsOfEvent (eventId : Id) (rs : list StandReservation) :
    list StandReservation :=
  filter (fun r => r_eventId r = eventId) rs.

(** [standReservation.findUnique({ where: { eventId } })], also the
    [include: { reservation: true }] of an event query. *)
Definition reservationOf (s : Store) (eventId : Id) : option StandReservation :=
  head (rowsOfEvent eventId (reservations s)).

Definition findReservation (eventId : Id) : M (option StandReservation) :=
  fun s => (s, Ok (reservationOf s eventId)).

(** The [eventId] part of a conflict query: [{ not: id }] or [id]. *)
Inductive EventFilter :=
  | NotEvent (id : Id)
  | IsEvent (id : Id).

Definition eventFilterMatches (f : EventFilter) (eventId : Id) : bool :=
  match f with
  | NotEvent id => bool_decide (eventId <> id)
  | IsEvent id => bool_decide (eventId = id)
  end.

(** [event: { status: { not: CANCELLED } }], a filter through the relation:
    the row is kept when its event exists and is not cancelled. *)
Definition eventNotCancelled (s : Store) (r : StandReservation) : bool :=
  match events s !! r_eventId r with
  | Some e => bool_decide (ev_status e <> CANCELLED)
  | None => false
  end.

(** The [where] of every conflict query:
    [{ standId, eventId: f, startAt: { lt: endAt }, endAt: { gt: startAt },
       event: { status: { not: CANCELLED } } }]. *)
Definition conflictWhere (s : Store) (standId : Id) (f : EventFilter)
    (startAt endAt : Z) (r : StandReservation) : bool :=
  bool_decide (r_standId r = standId)
  && eventFilterMatches f (r_eventId r)
  && bool_decide (r_startAt r < endAt)
  && bool_decide (r_endAt r > startAt)
  && eventNotCancelled s r.

(** [standReservation.findFirst({ where })]: the query has no [orderBy],
    so it returns one of the matching rows, the one the database chooses,
    and null when no row matches. *)
Definition findFirstConflict (standId : Id) (f : EventFilter)
    (startAt endAt : Z) : M (option StandReservation) :=
  fun s =>
    let rows := List.filter (conflictWhere s standId f startAt endAt)
                  (reservations s) in
    (s, Ok (rows !! (firstOf s rows `mod` length rows)%nat)).

Definition startAtLe (a b : StandReservation) : Prop := r_startAt a <= r_startAt b.

#[global] Instance startAtLe_dec : RelDecision startAtLe.
Proof. intros a b. unfold startAtLe. apply _. Defined.

(** [standReservation.findMany({ where })]; the query that excludes the
    moved event also has [orderBy: [{ startAt: "asc" }]]. *)
Definition findManyConflicts (standId : Id) (f : EventFilter)
    (startAt endAt : Z) : M (list StandReservation) :=
  fun s =>
    let rows := List.filter (conflictWhere s standId f startAt endAt)
                  (reservations s) in
    (s, Ok (match f with
            | NotEvent _ => merge_sort startAtLe rows
            | IsEvent _ => rows
            end)).

(** The three foreign keys of [StandReservation]. *)
Definition reservationKeysExist (s : Store) (row : StandReservation) : bool :=
  bool_decide (is_Some (events s !! r_eventId row))
  && bool_decide (is_Some (layouts s !! r_layoutId row))
  && bool_decide (r_standId row ∈ stands s).

(** Replace the row of the event where it stands, or add a row. *)
Fixpoint upsertRow (row : StandReservation) (rs : list StandReservation) :
    list StandReservation :=
  match rs with
  | [] => [row]
  | r :: rs' =>
      if bool_decide (r_eventId r = r_eventId row) then row :: rs'
      else r :: upsertRow row rs'
  end.

Definition setReservations (rs : list StandReservation) (s : Store) : Store :=
  mkStore (events s) (layouts s) (stands s) rs (audits s) (firstOf s).

Definition setEvents (es : gmap string MaintenanceEvent) (s : Store) : Store :=
  mkStore es (layouts s) (stands s) (reservations s) (audits s) (firstOf s).

Definition setAudits (al : list Audit) (s : Store) : Store :=
  mkStore (events s) (layouts s) (stands s) (reservations s) al (firstOf s).

(** [standReservation.upsert({ where: { eventId }, update, create })] *)
Definition upsertReservation (row : StandReservation) : M StandReservation :=
  fun s =>
    if reservationKeysExist s row
    then (setReservations (upsertRow row (reservations s)) s, Ok row)
    else (s, Err ForeignKey).

(** [standReservation.deleteMany({ where })], returning [count]. *)
Definition deleteManyReservations (p : StandReservation -> bool) : M nat :=
  fun s =>
    (setReservations (List.filter (fun r => negb (p r)) (reservations s)) s,
     Ok (length (List.filter p (reservations s)))).

(** [maintenanceEvent.update({ where: { id }, data })] *)
Definition updateEvent (id : Id) (data : MaintenanceEvent -> MaintenanceEvent) :
    M unit :=
  fun s => match events s !! id with
           | Some _ => (setEvents (alter data id (events s)) s, Ok tt)
           | None => (s, Err NotFound)
           end.

(** [maintenanceEvent.updateMany({ where: { id: { in: ids } }, data })] *)
Definition updateManyEvents (ids : list Id)
    (data : MaintenanceEvent -> MaintenanceEvent) : M unit :=
  fun s =>
    (setEvents (map_imap (fun id e =>
                  Some (if bool_decide (id ∈ ids) then data e else e))
                  (events s)) s,
     Ok tt).

(** [maintenanceEventAudit.create({ data })] *)
Definition createAudit (a : Audit) : M unit :=
  fun s => match events s !! a_eventId a with
           | Some _ => (setAudits (audits s ++ [a]) s, Ok tt)
           | None => (s, Err ForeignKey)
           end.

(** ** Handlers *)

Definition placementOf (r : StandReservation) : Placement :=
  mkPlacement (r_layoutId r) (r_standId r) (r_startAt r) (r_endAt r).

(** [data: { layoutId: layout.id, hangarId: layout.hangarId }] *)
Definition setPointers (layout : LayoutSel) (e : MaintenanceEvent) :
    MaintenanceEvent :=
  mkEvent (ev_status e) (ev_title e) (ev_tailNumber e) (ev_startAt e)
    (ev_endAt e) (Some (sel_hangarId layout)) (Some (sel_id layout)).

(** [data: { startAt, endAt, layoutId: layout.id, hangarId: layout.hangarId }] *)
Definition setWindowAndPointers (startAt endAt : Z) (layout : LayoutSel)
    (e : MaintenanceEvent) : MaintenanceEvent :=
  mkEvent (ev_status e) (ev_title e) (ev_tailNumber e) startAt endAt
    (Some (sel_hangarId layout)) (Some (sel_id layout)).

(** [data: { hangarId: null, layoutId: null, status: DRAFT }] *)
Definition clearPlacement (e : MaintenanceEvent) : MaintenanceEvent :=
  mkEvent DRAFT (ev_title e) (ev_tailNumber e) (ev_startAt e) (ev_endAt e)
    None None.

(** The text of the 409: title and tail number of the blocking event. *)
Definition occupiedMessage (s : Store) (c : StandReservation) : string :=
  match events s !! r_eventId c with
  | Some e => "Место уже занято: " +:+ ev_title e +:+ " (" +:+ ev_tailNumber e +:+ ")"
  | None => "Место уже занято: "
  end.

Definition throwOccupied {A} (c : StandReservation) : M A :=
  fun s => (s, Err (Conflict (occupiedMessage s c))).

(** *** PUT /by-event/:eventId *)

Record AssignBody := mkAssignBody {
  ab_layoutId : Id;
  ab_standId : Id;
  ab_startAt : option Z;
  ab_endAt : option Z;
  ab_changeReason : option string
}.

(** [!body.changeReason]: absent, or the empty string. *)
Definition noReason (reason : option string) : bool :=
  match reason with
  | Some r => negb (truthy r)
  | None => true
  end.

(** [changed] of the handler (lines 120-125). *)
Definition reservationChanged (existing : option StandReservation)
    (reservation : StandReservation) : bool :=
  match existing with
  | None => true
  | Some ex =>
      bool_decide (r_layoutId ex <> r_layoutId reservation)
      || bool_decide (r_standId ex <> r_standId reservation)
      || bool_decide (r_startAt ex <> r_startAt reservation)
      || bool_decide (r_endAt ex <> r_endAt reservation)
  end.

Definition assignReservation (req : Request) (eventId : Id) (body : AssignBody) :
    M StandReservation :=
  do event <- findEventOrThrow eventId;
  do existingReservation <- findReservation eventId;
  let startAt := default (ev_startAt event) (ab_startAt body) in
  let endAt := default (ev_endAt event) (ab_endAt body) in
  if bool_decide (endAt <= startAt)
  then throw (BadRequest "endAt must be after startAt")
  else
    do conflict <- findFirstConflict (ab_standId body) (NotEvent eventId)
                     startAt endAt;
    match conflict with
    | Some c => throwOccupied c
    | None =>
        do layout <- findLayoutOrThrow (ab_layoutId body);
        do reservation <- upsertReservation
             (mkReservation eventId (ab_layoutId body) (ab_standId body)
                startAt endAt);
        do_ updateEvent eventId (setPointers layout);
        let changed := reservationChanged existingReservation reservation in
        if changed && noReason (ab_changeReason body)
        then throw (BadRequest "changeReason is required when changing reservation")
        else
          do_ createAudit
            (mkAudit eventId RESERVE (getActor req)
               (match ab_changeReason body with
                | Some r => Some r
                | None => match existingReservation with
                          | Some _ => None
                          | None => Some "Первичное назначение места"
                          end
                end)
               (ChReservation (placementOf <$> existingReservation)
                  (Some (placementOf reservation))));
          ret reservation
    end.

(** *** The bump block shared verbatim by dnd-move (lines 230-262) and
    dnd-place (lines 388-417) *)

Definition bumpAudit (req : Request) (byEventId : Id) (reason : string)
    (bumpedEventId : Id) : Audit :=
  mkAudit bumpedEventId UPDATE (getActor req) (Some reason)
    (ChBumped byEventId None DRAFT None None).

Definition bumpConflicts (req : Request) (byEventId : Id) (reason : string)
    (conflicts : list StandReservation) : M (list Id) :=
  let toBump := map r_eventId conflicts in
  do_ deleteManyReservations (fun r => bool_decide (r_eventId r ∈ toBump));
  do_ updateManyEvents toBump clearPlacement;
  do_ forEach toBump (fun bumpedEventId =>
        createAudit (bumpAudit req byEventId reason bumpedEventId));
  ret toBump.

(** [body.bumpedEventId ? findMany(eventId: bumpedEventId) :
    findMany(eventId: { not: body.eventId }, orderBy startAt)] *)
Definition dndFilter (eventId : Id) (bumpedEventId : option Id) : EventFilter :=
  match bumpedEventId with
  | Some b => IsEvent b
  | None => NotEvent eventId
  end.

(** Lines 222-262 / 381-417: reject, bump, or pass. *)
Definition resolveConflicts (req : Request) (eventId : Id) (reason : string)
    (bump : bool) (conflicts : list StandReservation) : M (list Id) :=
  match conflicts with
  | [] => ret []
  | c :: _ =>
      if negb bump then throwOccupied c
      else bumpConflicts req eventId reason conflicts
  end.

(** *** POST /dnd-move *)

Record DndMoveBody := mkDndMoveBody {
  mb_eventId : Id;
  mb_layoutId : Id;
  mb_standId : Id;
  mb_bumpOnConflict : option bool;
  mb_bumpedEventId : option Id;
  mb_changeReason : string
}.

Definition dndMove (req : Request) (body : DndMoveBody) :
    M (StandReservation * list Id) :=
  let bump := default false (mb_bumpOnConflict body) in
  transaction (
    do event <- findEventOrThrow (mb_eventId body);
    do eventReservation <- findReservation (mb_eventId body);
    do layout <- findLayoutOrThrow (mb_layoutId body);
    let startAt := ev_startAt event in
    let endAt := ev_endAt event in
    do conflicts <- findManyConflicts (mb_standId body)
                      (dndFilter (mb_eventId body) (mb_bumpedEventId body))
                      startAt endAt;
    do bumpedEventIds <- resolveConflicts req (mb_eventId body)
                           (mb_changeReason body) bump conflicts;
    let existingReservation := placementOf <$> eventReservation in
    do reservation <- upsertReservation
         (mkReservation (mb_eventId body) (mb_layoutId body) (mb_standId body)
            startAt endAt);
    do_ updateEvent (mb_eventId body) (setPointers layout);
    do_ createAudit
      (mkAudit (mb_eventId body) RESERVE (getActor req)
         (Some (mb_changeReason body))
         (ChDndReservation bump bumpedEventIds existingReservation
            (placementOf reservation)));
    ret (reservation, bumpedEventIds)).

(** *** POST /dnd-place *)

Record DndPlaceBody := mkDndPlaceBody {
  pb_eventId : Id;
  pb_layoutId : Id;
  pb_standId : Id;
  pb_startAt : Z;
  pb_endAt : Z;
  pb_bumpOnConflict : option bool;
  pb_bumpedEventId : option Id;
  pb_changeReason : string
}.

Definition dndPlace (req : Request) (body : DndPlaceBody) :
    M (StandReservation * list Id) :=
  (* .refine((v) => v.endAt > v.startAt, ...) *)
  if negb (bool_decide (pb_endAt body > pb_startAt body))
  then throw (ZodError "endAt must be after startAt")
  else
  let bump := default false (pb_bumpOnConflict body) in
  transaction (
    do event <- findEventOrThrow (pb_eventId body);
    do eventReservation <- findReservation (pb_eventId body);
    do layout <- findLayoutOrThrow (pb_layoutId body);
    do conflicts <- findManyConflicts (pb_standId body)
                      (dndFilter (pb_eventId body) (pb_bumpedEventId body))
                      (pb_startAt body) (pb_endAt body);
    do bumpedEventIds <- resolveConflicts req (pb_eventId body)
                           (pb_changeReason body) bump conflicts;
    let prev := mkSnapshot (ev_startAt event) (ev_endAt event)
                  (ev_hangarId event) (ev_layoutId event)
                  (placementOf <$> eventReservation) in
    do_ updateEvent (pb_eventId body)
          (setWindowAndPointers (pb_startAt body) (pb_endAt body) layout);
    do reservation <- upsertReservation
         (mkReservation (pb_eventId body) (pb_layoutId body) (pb_standId body)
            (pb_startAt body) (pb_endAt body));
    do_ createAudit
      (mkAudit (pb_eventId body) UPDATE (getActor req)
         (Some (pb_changeReason body))
         (ChDndPlace bump bumpedEventIds prev
            (mkSnapshot (pb_startAt body) (pb_endAt body)
               (Some (sel_hangarId layout)) (Some (sel_id layout))
               (Some (placementOf reservation)))));
    ret (reservation, bumpedEventIds)).

(** *** DELETE /by-event/:eventId *)

Definition unassignReservation (req : Request) (eventId : Id) : M nat :=
  do existing <- findReservation eventId;
  match existing with
  | None => ret 0%nat
  | Some ex =>
      do del <- deleteManyReservations (fun r => bool_decide (r_eventId r = eventId));
      do_ createAudit
        (mkAudit eventId UNRESERVE (getActor req) (Some "Снятие резерва")
           (ChReservation (Some (placementOf ex)) None));
      ret del
  end.

(** ** The handlers as one transition system *)

Inductive Op :=
  | OpAssign (eventId : Id) (body : AssignBody)
  | OpDndMove (body : DndMoveBody)
  | OpDndPlace (body : DndPlaceBody)
  | OpUnassign (eventId : Id).

(** The store a call leaves behind, whether it returned or threw. *)
Definition exec (req : Request) (op : Op) (s : Store) : Store :=
  match op with
  | OpAssign eventId body => fst (assignReservation req eventId body s)
  | OpDndMove body => fst (dndMove req body s)
  | OpDndPlace body => fst (dndPlace req body s)
  | OpUnassign eventId => fst (unassignReservation req eventId s)
  end.

(** States reached from a store without reservations by any calls. *)
Inductive reachable : Store -> Prop :=
  | reach_init s : reservations s = [] -> reachable s
  | reach_step s req op : reachable s -> reachable (exec req op s).

(** The audit rows a call appended. *)
Definition newAudits (s s' : Store) : list Audit :=
  drop (length (audits s)) (audits s').

(** ** Database constraints and the invariants of the specification *)

(** [StandReservation_eventId_key]: the unique index on [eventId]. *)
Definition uniqueEventId (s : Store) : Prop :=
  NoDup (map r_eventId (reservations s)).

(** [StandReservation_eventId_fkey]: every row has its event. *)
Definition reservationsLinked (s : Store) : Prop :=
  forall r, r ∈ reservations s -> is_Some (events s !! r_eventId r).

(** Half-open windows [startAt, endAt) that share an instant. *)
Definition overlap (a b : StandReservation) : Prop :=
  r_startAt a < r_endAt b /\ r_startAt b < r_endAt a.

(** The non-overlap invariant: two different rows on one stand, both of
    events that are not cancelled, do not overlap. *)
Definition nonOverlapping (s : Store) : Prop :=
  forall i j a b,
    reservations s !! i = Some a -> reservations s !! j = Some b -> i <> j ->
    r_standId a = r_standId b ->
    eventNotCancelled s a = true -> eventNotCancelled s b = true ->
    ~ overlap a b.

(** An event with a reservation points at the layout of the reservation and
    at the hangar of that layout. *)
Definition placedInSync (s : Store) : Prop :=
  forall r, r ∈ reservations s ->
    exists e h,
      events s !! r_eventId r = Some e /\
      layouts s !! r_layoutId r = Some h /\
      ev_layoutId e = Some (r_layoutId r) /\
      ev_hangarId e = Some h.

(** An event without a reservation has no hangar and no layout. *)
Definition unplacedCleared (s : Store) : Prop :=
  forall id e,
    events s !! id = Some e -> reservationOf s id = None ->
    ev_hangarId e = None /\ ev_layoutId e = None.

(** The conflicts a dnd call computes for a window. *)
Definition dndConflicts (s : Store) (eventId standId : Id)
    (bumpedEventId : option Id) (startAt endAt : Z) : list StandReservation :=
  match findManyConflicts standId (dndFilter eventId bumpedEventId)
          startAt endAt s with
  | (_, Ok l) => l
  | (_, Err _) => []
  end.

Definition isBumpRecord (a : Audit) : bool :=
  match a_changes a with
  | ChBumped _ _ _ _ _ => true
  | _ => false
  end.


(** ** A small hangar used for the concrete runs below

    The ids are uuids, as [zUuid] demands. *)

Definition idE : Id := "e0000000-0000-4000-8000-000000000001".
Definition idA : Id := "a0000000-0000-4000-8000-000000000002".
Definition idC : Id := "c0000000-0000-4000-8000-000000000003".
Definition layoutL : Id := "10000000-0000-4000-8000-000000000010".
Definition layoutL2 : Id := "10000000-0000-4000-8000-000000000020".
Definition hangarH : Id := "20000000-0000-4000-8000-000000000001".
Definition standX : Id := "30000000-0000-4000-8000-00000000000a".
Definition standY : Id := "30000000-0000-4000-8000-00000000000b".

(** Stand X of layout L (hangar H) holds event A in [0,10) and event C in
    [10,20); event E, window [5,15), is not placed. *)

(** The request of an authenticated planner, without actor headers. *)
Definition plannerReq : Request := mkRequest (Some "planner@example.org") ∅.

Definition eventE : MaintenanceEvent :=
  mkEvent PLANNED "check E" "RA-001" 5 15 None None.

Definition eventA : MaintenanceEvent :=
  mkEvent PLANNED "check A" "RA-002" 0 10 (Some hangarH) (Some layoutL).

Definition eventC : MaintenanceEvent :=
  mkEvent CONFIRMED "check C" "RA-003" 10 20 (Some hangarH) (Some layoutL).

Definition hangarEvents : gmap string MaintenanceEvent :=
  <[idE := eventE]> (<[idA := eventA]> (<[idC := eventC]> ∅)).

Definition hangarLayouts : gmap string string :=
  <[layoutL := hangarH]> (<[layoutL2 := hangarH]> ∅).

Definition hangar0 : Store :=
  mkStore hangarEvents hangarLayouts {[standX; standY]}
    [mkReservation idA layoutL standX 0 10;
     mkReservation idC layoutL standX 10 20] [] (fun _ => 0%nat).

(** The same hangar with A placed through layout L2 in [2,8). *)
Definition hangar1 : Store :=
  mkStore
    (<[idA := mkEvent PLANNED "check A" "RA-002" 0 10 (Some hangarH)
                (Some layoutL2)]> hangarEvents)
    hangarLayouts {[standX; standY]}
    [mkReservation idA layoutL2 standX 2 8;
     mkReservation idC layoutL standX 10 20] [] (fun _ => 0%nat).

(** The hangar before anything was reserved. *)
Definition hangarEmpty : Store :=
  mkStore hangarEvents hangarLayouts {[standX; standY]} [] [] (fun _ => 0%nat).

(** A relation between the store before and after that every run of a
    computation satisfies, whether it returns or throws. *)
Definition steps {A} (R : Store -> Store -> Prop) (m : M A) : Prop :=
  forall s, R s (fst (m s)).


(** What no handler changes: the layout and stand catalogues and the set
    of event ids. *)
Definition sameCatalogue (s s' : Store) : Prop :=
  layouts s' = layouts s /\ stands s' = stands s /\
  forall id, is_Some (events s' !! id) <-> is_Some (events s !! id).

(** The three store updates the handlers are made of, as functions: the
    bump of a list of events, the placement of a row with the update of
    its event, and one more audit row. *)
Definition bumped (req : Request) (byEventId : Id) (reason : string)
    (ids : list Id) (s : Store) : Store :=
  setAudits (audits s ++ map (bumpAudit req byEventId reason) ids)
    (setEvents
       (map_imap (fun id e =>
          Some (if bool_decide (id ∈ ids) then clearPlacement e else e))
          (events s))
       (setReservations
          (List.filter (fun r => negb (bool_decide (r_eventId r ∈ ids)))
             (reservations s)) s)).

Definition placed (row : StandReservation)
    (data : MaintenanceEvent -> MaintenanceEvent) (s : Store) : Store :=
  setEvents (alter data (r_eventId row) (events s))
    (setReservations (upsertRow row (reservations s)) s).

Definition audited (a : Audit) (s : Store) : Store :=
  setAudits (audits s ++ [a]) s.

(** The row and the audit record of a PUT, named for the statements. *)
Definition assignRow (eventId : Id) (body : AssignBody) (e : MaintenanceEvent) :
    StandReservation :=
  mkReservation eventId (ab_layoutId body) (ab_standId body)
    (default (ev_startAt e) (ab_startAt body))
    (default (ev_endAt e) (ab_endAt body)).

Definition assignAudit (req : Request) (eventId : Id) (body : AssignBody)
    (existing : option StandReservation) (row : StandReservation) : Audit :=
  mkAudit eventId RESERVE (getActor req)
    (match ab_changeReason body with
     | Some r => Some r
     | None => match existing with
               | Some _ => None
               | None => Some "Первичное назначение места"
               end
     end)
    (ChReservation (placementOf <$> existing) (Some (placementOf row))).

(** What a PUT needs to get as far as its writes: the event, a window that
    is not inverted, no conflicting row, the layout and the stand. *)
Definition assignable (s : Store) (eventId : Id) (body : AssignBody)
    (e : MaintenanceEvent) (h : Id) : Prop :=
  events s !! eventId = Some e /\
  r_startAt (assignRow eventId body e) < r_endAt (assignRow eventId body e) /\
  (forall c, c ∈ reservations s ->
     conflictWhere s (ab_standId body) (NotEvent eventId)
       (r_startAt (assignRow eventId body e))
       (r_endAt (assignRow eventId body e)) c = false) /\
  layouts s !! ab_layoutId body = Some h /\
  ab_standId body ∈ stands s.

(** What a dnd call needs to commit: the event, the layout, the stand,
    and either no conflict for the window or the permission to bump. *)
Definition droppable (s : Store) (eventId layoutId standId : Id)
    (bumpedEventId : option Id) (bumpOnConflict : option bool)
    (startAt endAt : Z) (e : MaintenanceEvent) (h : Id) : Prop :=
  events s !! eventId = Some e /\
  layouts s !! layoutId = Some h /\
  standId ∈ stands s /\
  (dndConflicts s eventId standId bumpedEventId startAt endAt = [] \/
   bumpOnConflict = Some true).

Definition movable (s : Store) (body : DndMoveBody) (e : MaintenanceEvent)
    (h : Id) : Prop :=
  droppable s (mb_eventId body) (mb_layoutId body) (mb_standId body)
    (mb_bumpedEventId body) (mb_bumpOnConflict body)
    (ev_startAt e) (ev_endAt e) e h.

Definition placeable (s : Store) (body : DndPlaceBody) (e : MaintenanceEvent)
    (h : Id) : Prop :=
  pb_startAt body < pb_endAt body /\
  droppable s (pb_eventId body) (pb_layoutId body) (pb_standId body)
    (pb_bumpedEventId body) (pb_bumpOnConflict body)
    (pb_startAt body) (pb_endAt body) e h.

(** The audit rows of one event among a list of rows. *)
Definition auditsOfEvent (id : Id) (l : list Audit) : list Audit :=
  List.filter (fun a => bool_decide (a_eventId a = id)) l.

(** What the bump block does to a conflicting row [c], read in the store
    [sb] it produces: the row is deleted, the event has no hangar, no
    layout and the status DRAFT, and one record was appended for it, which
    names the mover and the new state. *)
Definition bumpedOut (req : Request) (mover : Id) (reason : string)
    (s sb : Store) (c : StandReservation) : Prop :=
  exists e,
    events s !! r_eventId c = Some e /\
    (c ∉ reservations sb) /\
    reservationOf sb (r_eventId c) = None /\
    events sb !! r_eventId c = Some (clearPlacement e) /\
    ev_hangarId (clearPlacement e) = None /\
    ev_layoutId (clearPlacement e) = None /\
    ev_status (clearPlacement e) = DRAFT /\
    auditsOfEvent (r_eventId c) (newAudits s sb) =
      [mkAudit (r_eventId c) UPDATE (getActor req) (Some reason)
         (ChBumped mover None DRAFT None None)].

(** What a bump by [mover] leaves of a conflicting row [c] once the call
    has committed store [s']: one bump record for the event of [c], that
    event in status DRAFT, and, unless the event is the mover itself (which
    gets its new placement right after), no row, no hangar and no layout
    for it and no other new audit record. *)
Definition displacedBy (req : Request) (mover : Id) (reason : string)
    (s s' : Store) (c : StandReservation) : Prop :=
  exists e,
    events s !! r_eventId c = Some e /\
    List.filter isBumpRecord (auditsOfEvent (r_eventId c) (newAudits s s')) =
      [mkAudit (r_eventId c) UPDATE (getActor req) (Some reason)
         (ChBumped mover None DRAFT None None)] /\
    (exists e', events s' !! r_eventId c = Some e' /\ ev_status e' = DRAFT) /\
    (r_eventId c <> mover ->
       (c ∉ reservations s') /\
       reservationOf s' (r_eventId c) = None /\
       events s' !! r_eventId c = Some (clearPlacement e) /\
       ev_hangarId (clearPlacement e) = None /\
       ev_layoutId (clearPlacement e) = None /\
       auditsOfEvent (r_eventId c) (newAudits s s') =
         [mkAudit (r_eventId c) UPDATE (getActor req) (Some reason)
            (ChBumped mover None DRAFT None None)]).

(** "The record of a displaced event records its prior placement", read as:
    the placement the event had can be read off the bump record. *)
Definition bumpRecordsPriorPlacement : Prop :=
  exists priorOf : Audit -> option Placement,
    forall req s body e s' row ids c a,
      events s !! mb_eventId body = Some e ->
      dndMove req body s = (s', Ok (row, ids)) ->
      c ∈ dndConflicts s (mb_eventId body) (mb_standId body)
            (mb_bumpedEventId body) (ev_startAt e) (ev_endAt e) ->
      a ∈ auditsOfEvent (r_eventId c) (newAudits s s') ->
      isBumpRecord a = true ->
      priorOf a = Some (placementOf c).

(** A call that does not name the event to bump. *)
Definition noNamedBump (op : Op) : Prop :=
  match op with
  | OpDndMove body => mb_bumpedEventId body = None
  | OpDndPlace body => pb_bumpedEventId body = None
  | OpAssign _ _ | OpUnassign _ => True
  end.

(** The non-overlap invariant stated on rows of different events. *)
Definition nonOverlappingEvents (s : Store) : Prop :=
  forall a b,
    a ∈ reservations s -> b ∈ reservations s -> r_eventId a <> r_eventId b ->
    r_standId a = r_standId b ->
    eventNotCancelled s a = true -> eventNotCancelled s b = true ->
    ~ overlap a b.

(** A history of calls, each with its request, run one after the other. *)
Definition execAll (calls : list (Request * Op)) (s : Store) : Store :=
  foldl (fun s call => exec call.1 call.2 s) s calls.

(** The three foreign keys hold for every row of the table. *)
Definition foreignKeysHold (s : Store) : Prop :=
  forall r, r ∈ reservations s -> reservationKeysExist s r = true.

(** ** DELETE /events/:id (events.ts)

    [maintenanceEvent.delete({ where: { id } })]: the delete throws when
    there is no such event; the foreign keys of [StandReservation] and of
    [MaintenanceEventAudit] are ON DELETE CASCADE, so the rows of the event
    in both tables go with it. *)
Definition deleteEvent (id : Id) : M unit :=
  fun s =>
    match events s !! id with
    | None => (s, Err NotFound)
    | Some _ =>
        (mkStore (delete id (events s)) (layouts s) (stands s)
           (List.filter (fun r => negb (bool_decide (r_eventId r = id)))
              (reservations s))
           (List.filter (fun a => negb (bool_decide (a_eventId a = id)))
              (audits s))
           (firstOf s),
         Ok tt)
    end.

(** ** The listing of reservations (GET /, reservations.ts 17-43)

    [Date.now()] is the argument [now]; the joined [stand] and [event] of
    a returned row are left to the store. *)

Record ListQuery := mkListQuery {
  lq_layoutId : Id;
  lq_from : option Z;
  lq_to : option Z
}.

Definition dayMs : Z := 24 * 60 * 60 * 1000.

(** [{ layoutId, startAt: { lt: to }, endAt: { gt: from },
       event: { status: { not: CANCELLED } } }] *)
Definition listWhere (s : Store) (layoutId : Id) (from to : Z)
    (r : StandReservation) : bool :=
  bool_decide (r_layoutId r = layoutId)
  && bool_decide (r_startAt r < to)
  && bool_decide (r_endAt r > from)
  && eventNotCancelled s r.

Definition listFrom (now : Z) (q : ListQuery) : Z :=
  default (now - 7 * dayMs) (lq_from q).

Definition listTo (now : Z) (q : ListQuery) : Z :=
  default (now + 30 * dayMs) (lq_to q).

Definition listReservations (now : Z) (q : ListQuery) :
    M (list StandReservation) :=
  fun s =>
    (s, Ok (merge_sort startAtLe
              (List.filter
                 (listWhere s (lq_layoutId q) (listFrom now q) (listTo now q))
                 (reservations s)))).

(** ** Authentication and permissions (plugins/auth.ts, lib/rbac.ts) *)

(** A role with the codes of its permissions, and a [User] row with its
    roles joined in, as [loadUser] reads them. *)
Record Role := mkRole {
  role_code : string;
  role_permissions : list string
}.

Record User := mkUser {
  u_email : string;
  u_displayName : option string;
  u_isActive : bool;
  u_mustChangePassword : bool;
  u_roles : list Role
}.

(** [req.auth] *)
Record Auth := mkAuth {
  auth_id : Id;
  auth_email : string;
  auth_displayName : option string;
  auth_roles : list string;
  auth_permissions : list string;
  auth_mustChangePassword : bool
}.

(** [Array.from(new Set(l))]: the first occurrence of each element, in
    order; [seen] is the set built so far. *)
Fixpoint dedupInto (seen l : list string) : list string :=
  match l with
  | [] => []
  | x :: l' =>
      if bool_decide (x ∈ seen) then dedupInto seen l'
      else x :: dedupInto (x :: seen) l'
  end.

Definition loadUser (users : gmap string User) (userId : Id) : option Auth :=
  match users !! userId with
  | None => None
  | Some u =>
      if negb (u_isActive u) then None
      else
        Some (mkAuth userId (u_email u) (u_displayName u)
                (map role_code (u_roles u))
                (dedupInto [] (concat (map role_permissions (u_roles u))))
                (u_mustChangePassword u))
  end.

(** The request as the handlers of the routes see it. *)
Record HttpRequest := mkHttpRequest {
  http_auth : option Auth;
  http_headers : gmap string string
}.

(** What [getActor] reads of it. *)
Definition actorRequest (req : HttpRequest) : Request :=
  mkRequest (auth_email <$> http_auth req) (http_headers req).

Definition requirePermission (req : HttpRequest) (permission : string) : bool :=
  match http_auth req with
  | None => false
  | Some u => bool_decide (permission ∈ auth_permissions u)
  end.

(** [roles.includes("ADMIN") || roles.includes("PLANNER")] with
    [roles = req.auth?.roles ?? []] *)
Definition plannerRole (req : HttpRequest) : bool :=
  let roles := match http_auth req with
               | Some u => auth_roles u
               | None => []
               end in
  bool_decide ("ADMIN" ∈ roles) || bool_decide ("PLANNER" ∈ roles).

(** The answer of a route: the 401 of the auth hook, the 403 of
    [assertPermission] and of the role gate, or what the handler did. *)
Inductive Reply (A : Type) :=
  | Unauthorized
  | Forbidden
  | Handled (r : Res A).
Arguments Unauthorized {A}.
Arguments Forbidden {A}.
Arguments Handled {A} r.

Definition handled {A} (m : M A) : Store -> Store * Reply A :=
  fun s => (fst (m s), Handled (snd (m s))).

(** [assertPermission(req, permission)] in front of a handler. *)
Definition assertPermission {A} (req : HttpRequest) (permission : string)
    (k : Store -> Store * Reply A) : Store -> Store * Reply A :=
  fun s => if requirePermission req permission then k s else (s, Forbidden).

(** The role test in front of the two dnd handlers. *)
Definition assertPlanner {A} (req : HttpRequest)
    (k : Store -> Store * Reply A) : Store -> Store * Reply A :=
  fun s => if plannerRole req then k s else (s, Forbidden).

Definition routeList (now : Z) (req : HttpRequest) (q : ListQuery) :
    Store -> Store * Reply (list StandReservation) :=
  assertPermission req "events:read" (handled (listReservations now q)).

Definition routePutByEvent (req : HttpRequest) (eventId : Id)
    (body : AssignBody) : Store -> Store * Reply StandReservation :=
  assertPermission req "events:write"
    (handled (assignReservation (actorRequest req) eventId body)).

Definition routeDndMove (req : HttpRequest) (body : DndMoveBody) :
    Store -> Store * Reply (StandReservation * list Id) :=
  assertPermission req "events:write"
    (assertPlanner req (handled (dndMove (actorRequest req) body))).

Definition routeDndPlace (req : HttpRequest) (body : DndPlaceBody) :
    Store -> Store * Reply (StandReservation * list Id) :=
  assertPermission req "events:write"
    (assertPlanner req (handled (dndPlace (actorRequest req) body))).

Definition routeDeleteByEvent (req : HttpRequest) (eventId : Id) :
    Store -> Store * Reply nat :=
  assertPermission req "events:write"
    (handled (unassignReservation (actorRequest req) eventId)).

(** The [preHandler] hook of the auth plugin in front of a route of
    [/api]: [tokenSub] is the subject of the verified JWT, or [None] when
    [jwtVerify] throws. *)
Definition apiCall {A} (users : gmap string User) (tokenSub : option Id)
    (headers : gmap string string)
    (route : HttpRequest -> Store -> Store * Reply A) :
    Store -> Store * Reply A :=
  fun s =>
    match tokenSub with
    | None => (s, Unauthorized)
    | Some sub =>
        match loadUser users sub with
        | None => (s, Unauthorized)
        | Some user => route (mkHttpRequest (Some user) headers) s
        end
    end.

(** The four write routes behind the hook. *)
Definition apiWrite (users : gmap string User) (tokenSub : option Id)
    (headers : gmap string string) (op : Op) (s : Store) : Store :=
  match op with
  | OpAssign eventId body =>
      fst (apiCall users tokenSub headers
             (fun req => routePutByEvent req eventId body) s)
  | OpDndMove body =>
      fst (apiCall users tokenSub headers (fun req => routeDndMove req body) s)
  | OpDndPlace body =>
      fst (apiCall users tokenSub headers (fun req => routeDndPlace req body) s)
  | OpUnassign eventId =>
      fst (apiCall users tokenSub headers
             (fun req => routeDeleteByEvent req eventId) s)
  end.

(** The two dnd routes have the role gate. *)
Definition needsPlannerRole (op : Op) : bool :=
  match op with
  | OpDndMove _ | OpDndPlace _ => true
  | OpAssign _ _ | OpUnassign _ => false
  end.

(** A user table: an active planner, an active viewer who may only read,
    and a planner whose account was switched off. *)
Definition idPlanner : Id := "50000000-0000-4000-8000-000000000001".
Definition idViewer : Id := "50000000-0000-4000-8000-000000000002".
Definition idFormer : Id := "50000000-0000-4000-8000-000000000003".

Definition rolePlanner : Role :=
  mkRole "PLANNER" ["events:read"; "events:write"].

Definition roleViewer : Role := mkRole "VIEWER" ["events:read"].

Definition plannerUser : User :=
  mkUser "planner@example.org" (Some "Planner") true false
    [rolePlanner; roleViewer].

Definition users0 : gmap string User :=
  <[idPlanner := plannerUser]>
  (<[idViewer := mkUser "viewer@example.org" None true false [roleViewer]]>
  (<[idFormer := mkUser "former@example.org" None false false [rolePlanner]]>
   ∅)).

(** ** The hangar view (HangarView.tsx)

    The view asks GET /reservations for the chosen layout and window and
    colours a stand as busy from the reply. *)

Definition intersects (aStart aEnd bStart bEnd : Z) : bool :=
  bool_decide (aStart < bEnd) && bool_decide (aEnd > bStart).

(** [occupancyByStand]: the rows of the reply in a [Map] by [standId]. *)
Definition occupancyByStand (res : list StandReservation) :
    gmap Id (list StandReservation) :=
  foldl (fun map r =>
           let arr := default [] (map !! r_standId r) in
           <[r_standId r := arr ++ [r]]> map)
    ∅ res.

(** [busy] of the stand [standId]: [rs.some((r) => intersects(...))] with
    [rs = occupancyByStand.get(s.id) ?? []]. *)
Definition busy (res : list StandReservation) (standId : Id)
    (fromMs toMs : Z) : bool :=
  let rs := default [] (occupancyByStand res !! standId) in
  existsb (fun r => intersects (r_startAt r) (r_endAt r) fromMs toMs) rs.

(** ** The Gantt view: lanes for overlapping events (GanttView.tsx)

    [packOverlapsIntoLanes] reads [startAt] and [endAt] of an event, as
    the milliseconds [Date.parse] gives for the ISO strings of the API. *)

Record AircraftRef := mkAircraftRef {
  ac_operatorId : option Id;             (* ev.aircraft.operatorId *)
  ac_operator : option Id;               (* ev.aircraft.operator?.id *)
  ac_typeId : option Id;                 (* ev.aircraft.typeId *)
  ac_type : option Id                    (* ev.aircraft.type?.id *)
}.

Record EventRow := mkEventRow {
  er_id : Id;
  er_startAt : Z;                        (* Date.parse(ev.startAt) *)
  er_endAt : Z;                          (* Date.parse(ev.endAt) *)
  er_aircraft : AircraftRef
}.

Record PlacedEvent := mkPlaced {
  pe_ev : EventRow;
  pe_overlapToMs : option Z
}.

Record Lane := mkLane {
  lane_items : list PlacedEvent;
  lane_lastEndMs : Z
}.

(** The comparator of the sort: by start, then by end. *)
Definition compareRows (a b : EventRow) : Z :=
  if bool_decide (er_startAt a <> er_startAt b)
  then er_startAt a - er_startAt b
  else er_endAt a - er_endAt b.

(** [[...events].sort(compare)]: the sort of an array is stable, so an
    element goes before the first one that the comparator does not put
    before it. *)
Fixpoint insertRow (x : EventRow) (l : list EventRow) : list EventRow :=
  match l with
  | [] => [x]
  | y :: l' =>
      if bool_decide (compareRows x y <= 0) then x :: l
      else y :: insertRow x l'
  end.

Definition sortRows (events : list EventRow) : list EventRow :=
  foldr insertRow [] events.

(** [lanes.findIndex((l) => l.lastEndMs <= startMs)] and, when a lane is
    found, the push of the event to it. *)
Fixpoint pushToFreeLane (ev : EventRow) (lanes : list Lane) :
    option (list Lane) :=
  match lanes with
  | [] => None
  | l :: rest =>
      if bool_decide (lane_lastEndMs l <= er_startAt ev)
      then Some (mkLane (lane_items l ++ [mkPlaced ev None]) (er_endAt ev)
                   :: rest)
      else cons l <$> pushToFreeLane ev rest
  end.

(** [Math.max(...lanes.map((l) => l.lastEndMs))] of lanes that are not
    empty. *)
Definition maxLastEndMs (l : Lane) (rest : list Lane) : Z :=
  foldl Z.max (lane_lastEndMs l) (map lane_lastEndMs rest).

(** The body of the loop. *)
Definition placeInLanes (lanes : list Lane) (ev : EventRow) : list Lane :=
  match lanes with
  | [] => [mkLane [mkPlaced ev None] (er_endAt ev)]
  | l :: rest =>
      match pushToFreeLane ev lanes with
      | Some lanes' => lanes'
      | None =>
          lanes ++
          [mkLane [mkPlaced ev
                     (Some (Z.min (er_endAt ev) (maxLastEndMs l rest)))]
             (er_endAt ev)]
      end
  end.

Definition packOverlapsIntoLanes (events : list EventRow) :
    list (list PlacedEvent) :=
  map lane_items (foldl placeInLanes [] (sortRows events)).

(** *** The colour mark of an aircraft type *)

Definition AIRCRAFT_MARK_PALETTE : list string :=
  ["#0ea5e9"; "#22c55e"; "#a855f7"; "#f97316"; "#e11d48";
   "#14b8a6"; "#6366f1"; "#f59e0b"; "#10b981"; "#8b5cf6"].

(** [x | 0] for a number that is an integer: its 32-bit signed value. *)
Definition toInt32 (z : Z) : Z := (z + 2 ^ 31) mod 2 ^ 32 - 2 ^ 31.

(** [s.charCodeAt(i)]; a character of a string here is a code unit
    below 256, as in the keys made of uuids and a bar. *)
Definition charCode (c : ascii) : Z := Z.of_N (N_of_ascii c).

(** [for (...) h = (h * 31 + s.charCodeAt(i)) | 0] *)
Fixpoint hashLoop (h : Z) (s : string) : Z :=
  match s with
  | EmptyString => h
  | String c s' => hashLoop (toInt32 (h * 31 + charCode c)) s'
  end.

(** [%] is the remainder of the truncated division. *)
Definition hashToIndex (s : string) (modulus : Z) : Z :=
  let n := Z.abs (hashLoop 0 s) in
  if bool_decide (modulus <= 0) then 0 else Z.rem n modulus.

(** [a ?? b] *)
Definition orElse {A} (a b : option A) : option A :=
  match a with
  | Some x => Some x
  | None => b
  end.

(** The result is [None] where the array access would give [undefined]. *)
Definition aircraftTypeMarkColor (ev : EventRow)
    (palette : option (gmap string string)) : option string :=
  let opId := default "" (orElse (ac_operatorId (er_aircraft ev))
                            (ac_operator (er_aircraft ev))) in
  let typeId := default "" (orElse (ac_typeId (er_aircraft ev))
                              (ac_type (er_aircraft ev))) in
  let key := opId +:+ "|" +:+ typeId in
  if negb (truthy opId) && negb (truthy typeId)
  then Some "rgba(15, 23, 42, 0.22)"
  else
    match palette ≫= (fun m => m !! key) with
    | Some fromRef =>
        if truthy fromRef then Some fromRef
        else AIRCRAFT_MARK_PALETTE !!
               Z.to_nat (hashToIndex key (Z.of_nat (length AIRCRAFT_MARK_PALETTE)))
    | None =>
        AIRCRAFT_MARK_PALETTE !!
          Z.to_nat (hashToIndex key (Z.of_nat (length AIRCRAFT_MARK_PALETTE)))
    end.

(** Events of a row of the chart. *)
Definition noAircraft : AircraftRef := mkAircraftRef None None None None.

Definition rowEvents : list EventRow :=
  [mkEventRow "c0000000-0000-4000-8000-000000000003" 10 20 noAircraft;
   mkEventRow "e0000000-0000-4000-8000-000000000001" 5 15 noAircraft;
   mkEventRow "a0000000-0000-4000-8000-000000000002" 0 10 noAircraft].

(** [aircraftPaletteMap]: the reference palette as a [Map] from
    [operatorId|aircraftTypeId] to the colour; rows that are not active are
    skipped and the first row of a key wins. *)
Record AircraftTypePaletteRow := mkPaletteRow {
  pr_operatorId : Id;
  pr_aircraftTypeId : Id;
  pr_color : string;
  pr_isActive : bool
}.

Definition paletteKey (r : AircraftTypePaletteRow) : string :=
  pr_operatorId r +:+ "|" +:+ pr_aircraftTypeId r.

Definition aircraftPaletteMap (rows : list AircraftTypePaletteRow) :
    gmap string string :=
  foldl (fun m r =>
           if negb (pr_isActive r) then m
           else if bool_decide (is_Some (m !! paletteKey r)) then m
           else <[paletteKey r := pr_color r]> m)
    ∅ rows.

(** The events of a list of lanes, lane after lane. *)
Definition laneEvents (lanes : list (list PlacedEvent)) : list EventRow :=
  concat (map (map pe_ev) lanes).

(** An earlier event that is still running when [p] starts. *)
Definition runningAtStartOf (p q : PlacedEvent) : Prop :=
  er_startAt (pe_ev q) <= er_startAt (pe_ev p) /\
  er_startAt (pe_ev p) < er_endAt (pe_ev q).

(** The order of the sorted events that the loop relies on. *)
Definition startLe (a b : EventRow) : Prop := er_startAt a <= er_startAt b.

(** What the loop keeps for the lanes built so far. *)
Record lanesOk (lanes : list Lane) : Prop := mkLanesOk {
  (* a lane has a last item, and [lastEndMs] is its end *)
  ok_last : forall lane, lane ∈ lanes ->
    exists items p, lane_items lane = items ++ [p] /\
      lane_lastEndMs lane = er_endAt (pe_ev p);
  (* in a lane an item ends before the items after it start *)
  ok_chain : forall lane, lane ∈ lanes ->
    StronglySorted (fun p q => er_endAt (pe_ev p) <= er_startAt (pe_ev q))
      (lane_items lane);
  (* an item of a lane started while an item of each lane before ran *)
  ok_fit : forall (k j : nat) lane lane' p,
    lanes !! k = Some lane -> lanes !! j = Some lane' -> (j < k)%nat ->
    p ∈ lane_items lane ->
    exists q, q ∈ lane_items lane' /\ runningAtStartOf p q;
  (* the mark of an overlap: on the first item of a lane after the first *)
  ok_mark : forall (k i : nat) lane p,
    lanes !! k = Some lane -> lane_items lane !! i = Some p ->
    match pe_overlapToMs p with
    | None => k = 0%nat \/ i <> 0%nat
    | Some t =>
        k <> 0%nat /\ i = 0%nat /\ t <= er_endAt (pe_ev p) /\
        (er_startAt (pe_ev p) < er_endAt (pe_ev p) ->
         er_startAt (pe_ev p) < t) /\
        exists (j : nat) lane' q,
          (j < k)%nat /\ lanes !! j = Some lane' /\ q ∈ lane_items lane' /\
          er_startAt (pe_ev q) <= er_startAt (pe_ev p) /\
          t <= er_endAt (pe_ev q)
    end
}.


(** ** The actor of an audit record *)

Section Actor.




End Actor.

(** ** Relations kept by every step of a handler

    A reflexive and transitive relation that each write of the Prisma
    client respects is respected by the handlers, which only sequence
    those writes. *)

Section Steps.

Context (R : Store -> Store -> Prop) (req : Request).
Hypothesis R_refl : forall s, R s s.
Hypothesis R_trans : forall s1 s2 s3, R s1 s2 -> R s2 s3 -> R s1 s3.
Hypothesis R_upsert : forall row s,
  reservationKeysExist s row = true ->
  R s (setReservations (upsertRow row (reservations s)) s).
Hypothesis R_delete : forall p s,
  R s (setReservations (List.filter (fun r => negb (p r)) (reservations s)) s).
Hypothesis R_update : forall id data s,
  is_Some (events s !! id) -> R s (setEvents (alter data id (events s)) s).
Hypothesis R_updateMany : forall (ids : list Id) s,
  R s (setEvents (map_imap (fun id e =>
         Some (if bool_decide (id ∈ ids) then clearPlacement e else e))
         (events s)) s).
Hypothesis R_audit : forall a s,
  a_actor a = getActor req -> R s (setAudits (audits s ++ [a]) s).

Lemma steps_ret {A} (a : A) : steps R (ret a).
Proof. intros s. apply R_refl. Qed.

Lemma steps_throw {A} (e : Error) : steps R (@throw A e).
Proof. intros s. apply R_refl. Qed.

Lemma steps_bind {A B} (m : M A) (k : A -> M B) :
  steps R m -> (forall a, steps R (k a)) -> steps R (bind m k).
Proof.
  intros Hm Hk s. unfold bind. specialize (Hm s).
  destruct (m s) as [s' [a|e]]; simpl in *; [|done].
  eapply R_trans; [exact Hm | apply Hk].
Qed.

Lemma steps_transaction {A} (m : M A) : steps R m -> steps R (transaction m).
Proof.
  intros Hm s. unfold transaction. specialize (Hm s).
  destruct (m s) as [s' [a|e]]; simpl in *; [done | apply R_refl].
Qed.

Lemma steps_forEach {A} (l : list A) (f : A -> M unit) :
  (forall x, steps R (f x)) -> steps R (forEach l f).
Proof.
  intros Hf. induction l as [|x l IH]; simpl.
  - apply steps_ret.
  - apply steps_bind; [apply Hf | intros _; apply IH].
Qed.

Lemma steps_findEventOrThrow id : steps R (findEventOrThrow id).
Proof. intros s. unfold findEventOrThrow. destruct (events s !! id); apply R_refl. Qed.

Lemma steps_findLayoutOrThrow id : steps R (findLayoutOrThrow id).
Proof. intros s. unfold findLayoutOrThrow. destruct (layouts s !! id); apply R_refl. Qed.

Lemma steps_findReservation id : steps R (findReservation id).
Proof. intros s. apply R_refl. Qed.

Lemma steps_findFirstConflict sid f a b : steps R (findFirstConflict sid f a b).
Proof. intros s. apply R_refl. Qed.

Lemma steps_findManyConflicts sid f a b : steps R (findManyConflicts sid f a b).
Proof. intros s. apply R_refl. Qed.

Lemma steps_throwOccupied {A} c : steps R (@throwOccupied A c).
Proof. intros s. apply R_refl. Qed.

Lemma steps_upsertReservation row : steps R (upsertReservation row).
Proof.
  intros s. unfold upsertReservation.
  destruct (reservationKeysExist s row) eqn:Hk; simpl;
    [by apply R_upsert | apply R_refl].
Qed.

Lemma steps_deleteManyReservations p : steps R (deleteManyReservations p).
Proof. intros s. apply R_delete. Qed.

Lemma steps_updateEvent id data : steps R (updateEvent id data).
Proof.
  intros s. unfold updateEvent.
  destruct (events s !! id) eqn:He; simpl; [|apply R_refl].
  apply R_update. by rewrite He.
Qed.

Lemma steps_updateManyEvents ids : steps R (updateManyEvents ids clearPlacement).
Proof. intros s. apply R_updateMany. Qed.

Lemma steps_createAudit a : a_actor a = getActor req -> steps R (createAudit a).
Proof.
  intros Ha s. unfold createAudit.
  destruct (events s !! a_eventId a); simpl; [by apply R_audit | apply R_refl].
Qed.

Ltac steps_step :=
  first
    [ apply steps_ret | apply steps_throw | apply steps_throwOccupied
    | apply steps_findEventOrThrow | apply steps_findLayoutOrThrow
    | apply steps_findReservation | apply steps_findFirstConflict
    | apply steps_findManyConflicts | apply steps_upsertReservation
    | apply steps_deleteManyReservations | apply steps_updateEvent
    | apply steps_updateManyEvents
    | apply steps_createAudit; reflexivity
    | apply steps_transaction
    | apply steps_forEach; intros
    | apply steps_bind; [|intros]
    | match goal with
      | |- steps _ (if ?b then _ else _) => destruct b
      | |- steps _ (match ?x with _ => _ end) => destruct x
      end ].

Ltac steps_tac := repeat steps_step.

Lemma steps_bumpConflicts by_ reason conflicts :
  steps R (bumpConflicts req by_ reason conflicts).
Proof. unfold bumpConflicts. steps_tac. Qed.

Lemma steps_resolveConflicts by_ reason bump conflicts :
  steps R (resolveConflicts req by_ reason bump conflicts).
Proof. unfold resolveConflicts. steps_tac. Qed.

Lemma steps_assignReservation eventId body :
  steps R (assignReservation req eventId body).
Proof. unfold assignReservation. steps_tac. Qed.

Lemma steps_dndMove body : steps R (dndMove req body).
Proof.
  unfold dndMove. repeat first [apply steps_resolveConflicts | steps_step].
Qed.

Lemma steps_dndPlace body : steps R (dndPlace req body).
Proof.
  unfold dndPlace. repeat first [apply steps_resolveConflicts | steps_step].
Qed.

Lemma steps_unassignReservation eventId :
  steps R (unassignReservation req eventId).
Proof. unfold unassignReservation. steps_tac. Qed.

Lemma steps_exec op s : R s (exec req op s).
Proof.
  destruct op; simpl.
  - apply steps_assignReservation.
  - apply steps_dndMove.
  - apply steps_dndPlace.
  - apply steps_unassignReservation.
Qed.

End Steps.

(** ** The reservation table as a list of rows *)

Section Rows.

Implicit Types (row r : StandReservation) (rs : list StandReservation).

Lemma upsertRow_eventIds row rs :
  map r_eventId (upsertRow row rs) =
    if decide (r_eventId row ∈ map r_eventId rs) then map r_eventId rs
    else map r_eventId rs ++ [r_eventId row].
Proof.
  induction rs as [|r rs IH].
  - case_decide as Hin; [by apply not_elem_of_nil in Hin | done].
  - cbn [upsertRow]. case_bool_decide as Heq.
    + rewrite decide_True; [by rewrite !map_cons, Heq|].
      rewrite map_cons, Heq. apply list_elem_of_here.
    + rewrite !map_cons, IH. case_decide as Hin.
      * rewrite decide_True; [done | by apply list_elem_of_further].
      * rewrite decide_False; [done|].
        intros [?|?]%elem_of_cons; congruence.
Qed.

Lemma upsertRow_NoDup row rs :
  NoDup (map r_eventId rs) -> NoDup (map r_eventId (upsertRow row rs)).
Proof.
  intros Hnd. rewrite upsertRow_eventIds. case_decide; [done|].
  apply NoDup_app. split_and!; [done | | apply NoDup_singleton].
  intros x Hx ->%list_elem_of_singleton. done.
Qed.

Lemma upsertRow_elem_of row rs r :
  r ∈ upsertRow row rs -> r = row \/ r ∈ rs.
Proof.
  induction rs as [|r0 rs IH]; simpl.
  - intros ->%list_elem_of_singleton. by left.
  - case_bool_decide.
    + intros [->|?]%elem_of_cons; [by left | right; by apply list_elem_of_further].
    + intros [->|?]%elem_of_cons; [right; apply list_elem_of_here|].
      destruct IH as [?|?]; [done | by left | right; by apply list_elem_of_further].
Qed.

Lemma rowsOfEvent_not_in id rs :
  id ∉ map r_eventId rs -> rowsOfEvent id rs = [].
Proof.
  unfold rowsOfEvent. induction rs as [|r rs IH]; simpl; [done|].
  intros Hni. rewrite filter_cons. rewrite decide_False.
  - apply IH. intros ?. apply Hni. by apply list_elem_of_further.
  - intros Heq. apply Hni. rewrite <- Heq. apply list_elem_of_here.
Qed.

Lemma rowsOfEvent_upsert row rs :
  NoDup (map r_eventId rs) ->
  rowsOfEvent (r_eventId row) (upsertRow row rs) = [row].
Proof.
  unfold rowsOfEvent. induction rs as [|r rs IH]; simpl; intros Hnd.
  - by rewrite filter_cons, decide_True.
  - apply NoDup_cons in Hnd as [Hni Hnd]. case_bool_decide as Heq.
    + rewrite filter_cons, decide_True by done. f_equal.
      apply rowsOfEvent_not_in. by rewrite <- Heq.
    + rewrite filter_cons, decide_False by done. by apply IH.
Qed.

Lemma upsertRow_length row rs :
  r_eventId row ∈ map r_eventId rs -> length (upsertRow row rs) = length rs.
Proof.
  induction rs as [|r rs IH]; simpl; [by intros ?%not_elem_of_nil|].
  case_bool_decide as Heq; [done|].
  intros [?|?]%elem_of_cons; [congruence|]. simpl. by rewrite IH.
Qed.

Lemma rowsOfEvent_length_le id rs :
  NoDup (map r_eventId rs) -> (length (rowsOfEvent id rs) <= 1)%nat.
Proof.
  unfold rowsOfEvent. induction rs as [|r rs IH]; simpl; intros Hnd; [lia|].
  apply NoDup_cons in Hnd as [Hni Hnd]. rewrite filter_cons. case_decide as Heq.
  - fold (rowsOfEvent id rs). rewrite rowsOfEvent_not_in; [simpl; lia|].
    by rewrite <- Heq.
  - by apply IH.
Qed.

Lemma filter_negb_eventIds_NoDup (p : StandReservation -> bool) rs :
  NoDup (map r_eventId rs) ->
  NoDup (map r_eventId (List.filter (fun r => negb (p r)) rs)).
Proof.
  induction rs as [|r rs IH]; simpl; intros Hnd; [done|].
  apply NoDup_cons in Hnd as [Hni Hnd]. destruct (p r); simpl; [by apply IH|].
  apply NoDup_cons. split; [|by apply IH].
  intros Hin. apply Hni. apply list_elem_of_fmap in Hin as (r' & -> & Hr').
  apply list_elem_of_fmap. exists r'. split; [done|].
  apply list_elem_of_In in Hr'. apply filter_In in Hr' as [Hr' _].
  by apply list_elem_of_In.
Qed.

End Rows.

(** ** What every call keeps *)

Section Kept.

Lemma events_alter_is_Some (data : MaintenanceEvent -> MaintenanceEvent)
    (es : gmap string MaintenanceEvent) (id id' : Id) :
  is_Some (alter data id es !! id') <-> is_Some (es !! id').
Proof.
  rewrite lookup_alter. case_decide; [subst|done].
  by rewrite fmap_is_Some.
Qed.

Lemma events_clearMany_lookup (ids : list Id)
    (es : gmap string MaintenanceEvent) (id : Id) :
  map_imap (fun id e => Some (if bool_decide (id ∈ ids) then clearPlacement e else e))
    es !! id =
  (fun e => if bool_decide (id ∈ ids) then clearPlacement e else e) <$> es !! id.
Proof. rewrite map_lookup_imap. by destruct (es !! id). Qed.


Lemma exec_uniqueEventId req op s :
  uniqueEventId s -> uniqueEventId (exec req op s).
Proof.
  apply (steps_exec (fun s s' => uniqueEventId s -> uniqueEventId s')); clear;
    unfold uniqueEventId; simpl; try done.
  - intros s1 s2 s3 H1 H2 H. auto.
  - intros row s _. apply upsertRow_NoDup.
  - intros p s. apply filter_negb_eventIds_NoDup.
Qed.

Lemma exec_sameCatalogue req op s : sameCatalogue s (exec req op s).
Proof.
  apply steps_exec; clear; unfold sameCatalogue; simpl; try done.
  - intros s1 s2 s3 (L1 & S1 & E1) (L2 & S2 & E2).
    split_and!; [congruence | congruence | intros id; by rewrite E2, E1].
  - intros id data s _. split_and!; [done | done |].
    intros id'. apply events_alter_is_Some.
  - intros ids s. split_and!; [done | done |].
    intros id. by rewrite events_clearMany_lookup, fmap_is_Some.
Qed.

Lemma exec_reservationsLinked req op s :
  reservationsLinked s -> reservationsLinked (exec req op s).
Proof.
  apply (steps_exec (fun s s' => reservationsLinked s -> reservationsLinked s'));
    clear; unfold reservationsLinked; simpl; try done.
  - intros s1 s2 s3 H1 H2 H. auto.
  - intros row s Hk Hl r [->|Hr]%upsertRow_elem_of; [|by apply Hl].
    unfold reservationKeysExist in Hk.
    apply andb_prop in Hk as [Hk _]. apply andb_prop in Hk as [Hk _].
    by apply bool_decide_eq_true in Hk.
  - intros p s Hl r Hr. apply Hl.
    apply list_elem_of_In in Hr. apply filter_In in Hr as [Hr _].
    by apply list_elem_of_In.
  - intros id data s _ Hl r Hr. apply events_alter_is_Some. by apply Hl.
  - intros ids s Hl r Hr. rewrite events_clearMany_lookup, fmap_is_Some.
    by apply Hl.
Qed.

Lemma reachable_uniqueEventId s : reachable s -> uniqueEventId s.
Proof.
  induction 1 as [s Hs|s req op _ IH].
  - unfold uniqueEventId. rewrite Hs. apply NoDup_nil_2.
  - by apply exec_uniqueEventId.
Qed.

End Kept.

(** ** The interval conflict check *)

Section ConflictCheck.

Lemma eventNotCancelled_true s r :
  eventNotCancelled s r = true <->
  exists e, events s !! r_eventId r = Some e /\ ev_status e <> CANCELLED.
Proof.
  unfold eventNotCancelled. destruct (events s !! r_eventId r) as [e|].
  - rewrite bool_decide_eq_true. split; [by exists e | by intros (? & [= <-] & ?)].
  - split; [done | by intros (? & ? & ?)].
Qed.

Lemma conflictWhere_true s standId f ws we r :
  conflictWhere s standId f ws we r = true <->
  r_standId r = standId /\ eventFilterMatches f (r_eventId r) = true /\
  r_startAt r < we /\ r_endAt r > ws /\ eventNotCancelled s r = true.
Proof.
  unfold conflictWhere. rewrite !andb_true_iff, !bool_decide_eq_true. tauto.
Qed.

(** What the row chosen among the matching rows can be. *)
Lemma lookup_mod_Some {A} (l : list A) (n : nat) (x : A) :
  l !! (n `mod` length l)%nat = Some x -> x ∈ l.
Proof. intros H. apply list_elem_of_lookup. by eexists. Qed.

Lemma lookup_mod_None {A} (l : list A) (n : nat) :
  l !! (n `mod` length l)%nat = None <-> l = [].
Proof.
  split; [|by intros ->]. intros H. destruct l as [|x l]; [done|].
  apply lookup_ge_None in H.
  pose proof (Nat.mod_upper_bound n (length (x :: l))) as Hlt.
  simpl in *. lia.
Qed.

Lemma filter_nil_iff {A} (p : A -> bool) (l : list A) :
  List.filter p l = [] <-> forall x, x ∈ l -> p x = false.
Proof.
  induction l as [|y l IH]; simpl.
  - split; [|done]. by intros _ x ?%elem_of_nil.
  - destruct (p y) eqn:Hy.
    + split; [done|]. intros H. specialize (H y (list_elem_of_here _ _)).
      congruence.
    + rewrite IH. split.
      * intros H x [->|Hx]%elem_of_cons; [done | by apply H].
      * intros H x Hx. apply H. by apply list_elem_of_further.
Qed.

Lemma findFirstConflict_run standId f ws we s :
  exists r,
    findFirstConflict standId f ws we s = (s, Ok r) /\
    (forall c, r = Some c ->
       c ∈ reservations s /\ conflictWhere s standId f ws we c = true) /\
    (r = None <->
     forall c, c ∈ reservations s -> conflictWhere s standId f ws we c = false).
Proof.
  unfold findFirstConflict. eexists. split; [reflexivity|]. split.
  - intros c Hc. apply lookup_mod_Some in Hc.
    apply list_elem_of_In, filter_In in Hc as [Hin Hc].
    by rewrite list_elem_of_In.
  - by rewrite lookup_mod_None, filter_nil_iff.
Qed.

Lemma findManyConflicts_elem_of s standId f ws we r l :
  findManyConflicts standId f ws we s = (s, Ok l) ->
  r ∈ l <-> r ∈ reservations s /\ conflictWhere s standId f ws we r = true.
Proof.
  unfold findManyConflicts. intros [= <-].
  assert (r ∈ List.filter (conflictWhere s standId f ws we) (reservations s)
          <-> r ∈ reservations s /\ conflictWhere s standId f ws we r = true) as Hf.
  { rewrite !list_elem_of_In. apply filter_In. }
  destruct f; [|done]. by rewrite merge_sort_Permutation.
Qed.

Lemma dndConflicts_elem_of s eventId standId bumped ws we r :
  r ∈ dndConflicts s eventId standId bumped ws we <->
  r ∈ reservations s /\
  conflictWhere s standId (dndFilter eventId bumped) ws we r = true.
Proof. unfold dndConflicts. by apply findManyConflicts_elem_of. Qed.

(** C5: a row is reported as a conflict for a window exactly when it is on
    the stand, starts before the window ends, ends after the window starts,
    belongs to an event that is not CANCELLED and is not the excluded
    event.  A row that ends when the window starts (or starts when it
    ends) and a row of a CANCELLED event are never reported, whatever the
    filter on the event id.  [findFirst] of the PUT handler and [findMany]
    of the dnd handlers report exactly the rows that satisfy the test. *)
Theorem conflict_check_half_open (s : Store) (standId excl : Id) (ws we : Z)
    (r : StandReservation) :
  (conflictWhere s standId (NotEvent excl) ws we r = true <->
     r_standId r = standId /\
     r_startAt r < we /\ r_endAt r > ws /\
     (exists e, events s !! r_eventId r = Some e /\ ev_status e <> CANCELLED) /\
     r_eventId r <> excl) /\
  (forall f, r_endAt r = ws -> conflictWhere s standId f ws we r = false) /\
  (forall f, r_startAt r = we -> conflictWhere s standId f ws we r = false) /\
  (forall f e, events s !! r_eventId r = Some e -> ev_status e = CANCELLED ->
     conflictWhere s standId f ws we r = false) /\
  (r ∈ dndConflicts s excl standId None ws we <->
     r ∈ reservations s /\ conflictWhere s standId (NotEvent excl) ws we r = true) /\
  (forall c, findFirstConflict standId (NotEvent excl) ws we s = (s, Ok (Some c)) ->
     c ∈ reservations s /\ conflictWhere s standId (NotEvent excl) ws we c = true) /\
  (findFirstConflict standId (NotEvent excl) ws we s = (s, Ok None) <->
     forall c, c ∈ reservations s ->
       conflictWhere s standId (NotEvent excl) ws we c = false).
Proof.
  split_and!.
  - rewrite conflictWhere_true, eventNotCancelled_true. simpl.
    rewrite bool_decide_eq_true. tauto.
  - intros f Hend. apply not_true_is_false.
    rewrite conflictWhere_true. lia.
  - intros f Hstart. apply not_true_is_false.
    rewrite conflictWhere_true. lia.
  - intros f e He Hst. apply not_true_is_false.
    rewrite conflictWhere_true, eventNotCancelled_true.
    intros (_ & _ & _ & _ & e' & He' & Hne). congruence.
  - apply dndConflicts_elem_of.
  - destruct (findFirstConflict_run standId (NotEvent excl) ws we s)
      as (r0 & -> & Hsome & _).
    intros c [= ->]. by apply Hsome.
  - destruct (findFirstConflict_run standId (NotEvent excl) ws we s)
      as (r0 & -> & _ & Hnone).
    rewrite <- Hnone. split; [by intros [= ->] | by intros ->].
Qed.

End ConflictCheck.

(** ** The actor *)

Section ActorClaim.



End ActorClaim.

(** ** Running the Prisma calls *)

Section Runs.

Lemma bind_ok {A B} (m : M A) (k : A -> M B) s s' a :
  m s = (s', Ok a) -> bind m k s = k a s'.
Proof. unfold bind. by intros ->. Qed.

Lemma bind_err {A B} (m : M A) (k : A -> M B) s s' e :
  m s = (s', Err e) -> bind m k s = (s', Err e).
Proof. unfold bind. by intros ->. Qed.

Lemma transaction_ok {A} (m : M A) s s' a :
  m s = (s', Ok a) -> transaction m s = (s', Ok a).
Proof. unfold transaction. by intros ->. Qed.

Lemma transaction_err {A} (m : M A) s s' e :
  transaction m s = (s', Err e) -> s' = s.
Proof. unfold transaction. destruct (m s) as [? [?|?]]; congruence. Qed.

Lemma run_eq {A} (m : M A) s r : snd (m s) = r -> m s = (fst (m s), r).
Proof. destruct (m s). simpl. congruence. Qed.

Lemma findEventOrThrow_ok id e s :
  events s !! id = Some e -> findEventOrThrow id s = (s, Ok e).
Proof. unfold findEventOrThrow. by intros ->. Qed.

Lemma findLayoutOrThrow_ok id h s :
  layouts s !! id = Some h -> findLayoutOrThrow id s = (s, Ok (mkLayoutSel id h)).
Proof. unfold findLayoutOrThrow. by intros ->. Qed.

Lemma findManyConflicts_ok standId eventId bumpedId ws we s :
  findManyConflicts standId (dndFilter eventId bumpedId) ws we s =
    (s, Ok (dndConflicts s eventId standId bumpedId ws we)).
Proof. done. Qed.

Lemma upsertReservation_ok row s :
  is_Some (events s !! r_eventId row) ->
  is_Some (layouts s !! r_layoutId row) ->
  r_standId row ∈ stands s ->
  upsertReservation row s =
    (setReservations (upsertRow row (reservations s)) s, Ok row).
Proof.
  intros He Hl Hs. unfold upsertReservation, reservationKeysExist.
  by rewrite !bool_decide_eq_true_2.
Qed.

Lemma updateEvent_ok id data s :
  is_Some (events s !! id) ->
  updateEvent id data s = (setEvents (alter data id (events s)) s, Ok tt).
Proof. intros [e He]. unfold updateEvent. by rewrite He. Qed.

Lemma createAudit_ok a s :
  is_Some (events s !! a_eventId a) -> createAudit a s = (audited a s, Ok tt).
Proof. intros [e He]. unfold createAudit. by rewrite He. Qed.

Lemma forEach_createAudit_ok (f : Id -> Audit) ids s :
  (forall id, a_eventId (f id) = id) ->
  (forall id, id ∈ ids -> is_Some (events s !! id)) ->
  forEach ids (fun id => createAudit (f id)) s =
    (setAudits (audits s ++ map f ids) s, Ok tt).
Proof.
  intros Hf. revert s. induction ids as [|id ids IH]; intros s Hids; simpl.
  - unfold ret. destruct s; unfold setAudits; simpl. by rewrite app_nil_r.
  - erewrite bind_ok; [|apply createAudit_ok; rewrite Hf; apply Hids, list_elem_of_here].
    rewrite IH.
    + unfold audited, setAudits; simpl. by rewrite <- app_assoc.
    + intros id' Hin. simpl. by apply Hids, list_elem_of_further.
Qed.

Lemma bumpConflicts_ok req byEventId reason conflicts s :
  (forall c, c ∈ conflicts -> is_Some (events s !! r_eventId c)) ->
  bumpConflicts req byEventId reason conflicts s =
    (bumped req byEventId reason (map r_eventId conflicts) s,
     Ok (map r_eventId conflicts)).
Proof.
  intros Hc. unfold bumpConflicts.
  erewrite bind_ok by reflexivity.
  erewrite bind_ok by reflexivity.
  erewrite bind_ok; [reflexivity|].
  rewrite forEach_createAudit_ok; [done | done |].
  intros id (c & -> & Hin)%list_elem_of_fmap. simpl.
  rewrite events_clearMany_lookup, fmap_is_Some. by apply Hc.
Qed.

Lemma filter_all_true {A} (l : list A) : List.filter (fun _ => true) l = l.
Proof. induction l; simpl; congruence. Qed.

Lemma bumped_nil req byEventId reason s : bumped req byEventId reason [] s = s.
Proof.
  destruct s as [es ls ss rs al]. unfold bumped, setAudits, setEvents,
    setReservations; simpl. f_equal.
  - apply map_eq. intros id. rewrite map_lookup_imap.
    by destruct (es !! id).
  - apply filter_all_true.
  - apply app_nil_r.
Qed.

End Runs.

(** ** Running the handlers *)

Section HandlerRuns.

Lemma dndConflicts_linked s eventId standId bumpedId ws we c :
  c ∈ dndConflicts s eventId standId bumpedId ws we ->
  is_Some (events s !! r_eventId c).
Proof.
  intros [_ Hc]%dndConflicts_elem_of.
  apply conflictWhere_true in Hc as (_ & _ & _ & _ & Hc).
  apply eventNotCancelled_true in Hc as (e & -> & _). by eexists.
Qed.

Lemma resolveConflicts_ok req byEventId reason bump conflicts s :
  (forall c, c ∈ conflicts -> is_Some (events s !! r_eventId c)) ->
  conflicts = [] \/ bump = true ->
  resolveConflicts req byEventId reason bump conflicts s =
    (bumped req byEventId reason (map r_eventId conflicts) s,
     Ok (map r_eventId conflicts)).
Proof.
  intros Hc Hb. unfold resolveConflicts. destruct conflicts as [|c cs].
  - by rewrite bumped_nil.
  - destruct Hb as [?| ->]; [done|]. simpl negb. cbv iota.
    by apply bumpConflicts_ok.
Qed.

Lemma resolveConflicts_blocked req byEventId reason c cs s :
  resolveConflicts req byEventId reason false (c :: cs) s =
    (s, Err (Conflict (occupiedMessage s c))).
Proof. done. Qed.

Lemma bumped_events_is_Some req byEventId reason ids s id :
  is_Some (events (bumped req byEventId reason ids s) !! id) <->
  is_Some (events s !! id).
Proof. simpl. by rewrite events_clearMany_lookup, fmap_is_Some. Qed.

Lemma dndMove_ok req body s e h :
  events s !! mb_eventId body = Some e ->
  layouts s !! mb_layoutId body = Some h ->
  mb_standId body ∈ stands s ->
  let conflicts := dndConflicts s (mb_eventId body) (mb_standId body)
                     (mb_bumpedEventId body) (ev_startAt e) (ev_endAt e) in
  let ids := map r_eventId conflicts in
  let row := mkReservation (mb_eventId body) (mb_layoutId body)
               (mb_standId body) (ev_startAt e) (ev_endAt e) in
  conflicts = [] \/ mb_bumpOnConflict body = Some true ->
  dndMove req body s =
    (audited
       (mkAudit (mb_eventId body) RESERVE (getActor req)
          (Some (mb_changeReason body))
          (ChDndReservation (default false (mb_bumpOnConflict body)) ids
             (placementOf <$> reservationOf s (mb_eventId body))
             (placementOf row)))
       (placed row (setPointers (mkLayoutSel (mb_layoutId body) h))
          (bumped req (mb_eventId body) (mb_changeReason body) ids s)),
     Ok (row, ids)).
Proof.
  intros He Hl Hs conflicts ids row Hb. unfold dndMove.
  apply transaction_ok.
  erewrite bind_ok by (by apply findEventOrThrow_ok).
  erewrite bind_ok by reflexivity.
  erewrite bind_ok by (by apply findLayoutOrThrow_ok).
  erewrite bind_ok by apply findManyConflicts_ok.
  erewrite bind_ok; cycle 1.
  { apply resolveConflicts_ok.
    - intros c. apply dndConflicts_linked.
    - destruct Hb as [Hb|Hb]; [by left | right; by rewrite Hb]. }
  fold conflicts ids row.
  assert (is_Some (events (bumped req (mb_eventId body) (mb_changeReason body)
            ids s) !! mb_eventId body)) as Hev.
  { apply bumped_events_is_Some. by rewrite He. }
  erewrite bind_ok; cycle 1.
  { apply upsertReservation_ok; simpl; [exact Hev | by rewrite Hl | done]. }
  erewrite bind_ok; cycle 1.
  { apply updateEvent_ok. exact Hev. }
  erewrite bind_ok; cycle 1.
  { apply createAudit_ok. simpl. apply events_alter_is_Some.
    simpl in Hev. exact Hev. }
  reflexivity.
Qed.

Lemma dndPlace_ok req body s e h :
  pb_endAt body > pb_startAt body ->
  events s !! pb_eventId body = Some e ->
  layouts s !! pb_layoutId body = Some h ->
  pb_standId body ∈ stands s ->
  let conflicts := dndConflicts s (pb_eventId body) (pb_standId body)
                     (pb_bumpedEventId body) (pb_startAt body) (pb_endAt body) in
  let ids := map r_eventId conflicts in
  let row := mkReservation (pb_eventId body) (pb_layoutId body)
               (pb_standId body) (pb_startAt body) (pb_endAt body) in
  conflicts = [] \/ pb_bumpOnConflict body = Some true ->
  dndPlace req body s =
    (audited
       (mkAudit (pb_eventId body) UPDATE (getActor req)
          (Some (pb_changeReason body))
          (ChDndPlace (default false (pb_bumpOnConflict body)) ids
             (mkSnapshot (ev_startAt e) (ev_endAt e) (ev_hangarId e)
                (ev_layoutId e)
                (placementOf <$> reservationOf s (pb_eventId body)))
             (mkSnapshot (pb_startAt body) (pb_endAt body) (Some h)
                (Some (pb_layoutId body)) (Some (placementOf row)))))
       (placed row
          (setWindowAndPointers (pb_startAt body) (pb_endAt body)
             (mkLayoutSel (pb_layoutId body) h))
          (bumped req (pb_eventId body) (pb_changeReason body) ids s)),
     Ok (row, ids)).
Proof.
  intros Hw He Hl Hs conflicts ids row Hb. unfold dndPlace.
  rewrite bool_decide_eq_true_2 by done. simpl negb. cbv iota.
  apply transaction_ok.
  erewrite bind_ok by (by apply findEventOrThrow_ok).
  erewrite bind_ok by reflexivity.
  erewrite bind_ok by (by apply findLayoutOrThrow_ok).
  erewrite bind_ok by apply findManyConflicts_ok.
  erewrite bind_ok; cycle 1.
  { apply resolveConflicts_ok.
    - intros c. apply dndConflicts_linked.
    - destruct Hb as [Hb|Hb]; [by left | right; by rewrite Hb]. }
  fold conflicts ids row.
  assert (is_Some (events (bumped req (pb_eventId body) (pb_changeReason body)
            ids s) !! pb_eventId body)) as Hev.
  { apply bumped_events_is_Some. by rewrite He. }
  erewrite bind_ok; cycle 1.
  { apply updateEvent_ok. exact Hev. }
  erewrite bind_ok; cycle 1.
  { apply upsertReservation_ok; simpl.
    - apply events_alter_is_Some. simpl in Hev. exact Hev.
    - by rewrite Hl.
    - done. }
  erewrite bind_ok; cycle 1.
  { apply createAudit_ok. simpl. apply events_alter_is_Some.
    simpl in Hev. exact Hev. }
  reflexivity.
Qed.

Lemma find_none_iff {A} (p : A -> bool) (l : list A) :
  List.find p l = None <-> forall x, x ∈ l -> p x = false.
Proof.
  split.
  - intros Hf x Hx. apply list_elem_of_In in Hx. by apply (find_none _ _ Hf).
  - intros Hall. destruct (List.find p l) as [x|] eqn:Hf; [|done].
    apply find_some in Hf as [Hin Hp]. apply list_elem_of_In, Hall in Hin.
    congruence.
Qed.

Lemma assignReservation_written req eventId body s e h :
  assignable s eventId body e h ->
  let row := assignRow eventId body e in
  let s_w := placed row (setPointers (mkLayoutSel (ab_layoutId body) h)) s in
  assignReservation req eventId body s =
    if reservationChanged (reservationOf s eventId) row
       && noReason (ab_changeReason body)
    then (s_w, Err (BadRequest "changeReason is required when changing reservation"))
    else (audited (assignAudit req eventId body (reservationOf s eventId) row) s_w,
          Ok row).
Proof.
  intros (He & Hw & Hc & Hl & Hs) row s_w. unfold assignReservation.
  erewrite bind_ok by (by apply findEventOrThrow_ok).
  erewrite bind_ok by reflexivity.
  cbv zeta. rewrite bool_decide_eq_false_2 by (unfold assignRow in Hw; simpl in Hw; lia).
  assert (findFirstConflict (ab_standId body) (NotEvent eventId)
            (default (ev_startAt e) (ab_startAt body))
            (default (ev_endAt e) (ab_endAt body)) s = (s, Ok None)) as Hfind.
  { destruct (findFirstConflict_run (ab_standId body) (NotEvent eventId)
                (default (ev_startAt e) (ab_startAt body))
                (default (ev_endAt e) (ab_endAt body)) s)
      as (r0 & -> & _ & Hnone).
    do 2 f_equal. by apply Hnone. }
  erewrite bind_ok by exact Hfind. cbv iota.
  erewrite bind_ok by (by apply findLayoutOrThrow_ok).
  erewrite bind_ok; cycle 1.
  { apply upsertReservation_ok; simpl; [by rewrite He | by rewrite Hl | done]. }
  erewrite bind_ok; cycle 1.
  { apply updateEvent_ok. simpl. by rewrite He. }
  fold (assignRow eventId body e). fold row.
  destruct (reservationChanged (reservationOf s eventId) row
            && noReason (ab_changeReason body)); [done|].
  erewrite bind_ok; cycle 1.
  { apply createAudit_ok. simpl. apply events_alter_is_Some. by rewrite He. }
  reflexivity.
Qed.

Lemma assignReservation_cases req eventId body s :
  (exists err, assignReservation req eventId body s = (s, Err err)) \/
  (exists e h, assignable s eventId body e h).
Proof.
  unfold assignReservation.
  destruct (events s !! eventId) as [e|] eqn:He; cycle 1.
  { left. eexists. apply bind_err. unfold findEventOrThrow. by rewrite He. }
  erewrite bind_ok by (by apply findEventOrThrow_ok).
  erewrite bind_ok by reflexivity.
  cbv zeta. case_bool_decide as Hw; [left; by eexists|].
  destruct (findFirstConflict_run (ab_standId body) (NotEvent eventId)
              (default (ev_startAt e) (ab_startAt body))
              (default (ev_endAt e) (ab_endAt body)) s)
    as (r0 & Hf & _ & Hnone).
  destruct r0 as [c|].
  { left. eexists. erewrite bind_ok by exact Hf. reflexivity. }
  erewrite bind_ok by exact Hf. cbv iota.
  destruct (layouts s !! ab_layoutId body) as [h|] eqn:Hl; cycle 1.
  { left. eexists. apply bind_err. unfold findLayoutOrThrow. by rewrite Hl. }
  erewrite bind_ok by (by apply findLayoutOrThrow_ok).
  destruct (decide (ab_standId body ∈ stands s)) as [Hs|Hs]; cycle 1.
  { left. eexists. apply bind_err. unfold upsertReservation, reservationKeysExist.
    simpl. rewrite (bool_decide_eq_false_2 (_ ∈ _)) by done.
    by rewrite andb_false_r. }
  right. exists e, h. split_and!; try done.
  - unfold assignRow; simpl. lia.
  - by apply Hnone.
Qed.

Lemma transaction_fail {A} (m : M A) s s' e :
  m s = (s', Err e) -> transaction m s = (s, Err e).
Proof. unfold transaction. by intros ->. Qed.

Lemma upsertReservation_no_stand row s :
  r_standId row ∉ stands s -> upsertReservation row s = (s, Err ForeignKey).
Proof.
  intros Hs. unfold upsertReservation, reservationKeysExist.
  rewrite (bool_decide_eq_false_2 (_ ∈ _)) by done. by rewrite andb_false_r.
Qed.

Lemma bump_allowed_cases (conflicts : list StandReservation) (bump : option bool) :
  (conflicts = [] \/ bump = Some true) \/
  (exists c cs, conflicts = c :: cs /\ default false bump = false).
Proof.
  destruct conflicts as [|c cs]; [by left; left|].
  destruct bump as [[|]|]; [by left; right | right; by eexists _, _ ..].
Qed.

Lemma dndMove_cases req body s :
  (exists err, dndMove req body s = (s, Err err)) \/
  (exists e h, movable s body e h).
Proof.
  unfold dndMove, movable, droppable.
  destruct (events s !! mb_eventId body) as [e|] eqn:He; cycle 1.
  { left. eexists. eapply transaction_fail, bind_err.
    unfold findEventOrThrow. by rewrite He. }
  destruct (layouts s !! mb_layoutId body) as [h|] eqn:Hl; cycle 1.
  { left. eexists. eapply transaction_fail.
    erewrite bind_ok by (by apply findEventOrThrow_ok).
    erewrite bind_ok by reflexivity.
    apply bind_err. unfold findLayoutOrThrow. by rewrite Hl. }
  destruct (bump_allowed_cases
              (dndConflicts s (mb_eventId body) (mb_standId body)
                 (mb_bumpedEventId body) (ev_startAt e) (ev_endAt e))
              (mb_bumpOnConflict body)) as [Hb|(c & cs & Hc & Hb)]; cycle 1.
  { left. eexists. eapply transaction_fail.
    erewrite bind_ok by (by apply findEventOrThrow_ok).
    erewrite bind_ok by reflexivity.
    erewrite bind_ok by (by apply findLayoutOrThrow_ok).
    erewrite bind_ok by apply findManyConflicts_ok.
    apply bind_err. rewrite Hc, Hb. apply resolveConflicts_blocked. }
  destruct (decide (mb_standId body ∈ stands s)) as [Hs|Hs]; cycle 1.
  { left. eexists. eapply transaction_fail.
    erewrite bind_ok by (by apply findEventOrThrow_ok).
    erewrite bind_ok by reflexivity.
    erewrite bind_ok by (by apply findLayoutOrThrow_ok).
    erewrite bind_ok by apply findManyConflicts_ok.
    erewrite bind_ok; cycle 1.
    { apply resolveConflicts_ok.
      - intros c. apply dndConflicts_linked.
      - destruct Hb as [Hb|Hb]; [by left | right; by rewrite Hb]. }
    apply bind_err. by apply upsertReservation_no_stand. }
  right. by exists e, h.
Qed.

Lemma dndPlace_cases req body s :
  (exists err, dndPlace req body s = (s, Err err)) \/
  (exists e h, placeable s body e h).
Proof.
  unfold dndPlace, placeable, droppable.
  case_bool_decide as Hw; simpl negb; cbv iota; [|left; by eexists].
  destruct (events s !! pb_eventId body) as [e|] eqn:He; cycle 1.
  { left. eexists. eapply transaction_fail, bind_err.
    unfold findEventOrThrow. by rewrite He. }
  destruct (layouts s !! pb_layoutId body) as [h|] eqn:Hl; cycle 1.
  { left. eexists. eapply transaction_fail.
    erewrite bind_ok by (by apply findEventOrThrow_ok).
    erewrite bind_ok by reflexivity.
    apply bind_err. unfold findLayoutOrThrow. by rewrite Hl. }
  destruct (bump_allowed_cases
              (dndConflicts s (pb_eventId body) (pb_standId body)
                 (pb_bumpedEventId body) (pb_startAt body) (pb_endAt body))
              (pb_bumpOnConflict body)) as [Hb|(c & cs & Hc & Hb)]; cycle 1.
  { left. eexists. eapply transaction_fail.
    erewrite bind_ok by (by apply findEventOrThrow_ok).
    erewrite bind_ok by reflexivity.
    erewrite bind_ok by (by apply findLayoutOrThrow_ok).
    erewrite bind_ok by apply findManyConflicts_ok.
    apply bind_err. rewrite Hc, Hb. apply resolveConflicts_blocked. }
  destruct (decide (pb_standId body ∈ stands s)) as [Hs|Hs]; cycle 1.
  { left. eexists. eapply transaction_fail.
    erewrite bind_ok by (by apply findEventOrThrow_ok).
    erewrite bind_ok by reflexivity.
    erewrite bind_ok by (by apply findLayoutOrThrow_ok).
    erewrite bind_ok by apply findManyConflicts_ok.
    erewrite bind_ok; cycle 1.
    { apply resolveConflicts_ok.
      - intros c. apply dndConflicts_linked.
      - destruct Hb as [Hb|Hb]; [by left | right; by rewrite Hb]. }
    erewrite bind_ok; cycle 1.
    { apply updateEvent_ok. apply bumped_events_is_Some. by rewrite He. }
    apply bind_err. by apply upsertReservation_no_stand. }
  right. exists e, h. split_and!; try done. lia.
Qed.

End HandlerRuns.

(** ** Removing a reservation *)

Section Unassign.

Lemma filter_bool_rows id rs :
  List.filter (fun r => bool_decide (r_eventId r = id)) rs = rowsOfEvent id rs.
Proof.
  unfold rowsOfEvent. induction rs as [|r rs IH]; simpl; [done|].
  rewrite filter_cons. case_bool_decide; case_decide; try done. by f_equal.
Qed.

Lemma rowsOfEvent_deleted id (p : StandReservation -> bool) rs :
  (forall r, r_eventId r = id -> p r = true) ->
  rowsOfEvent id (List.filter (fun r => negb (p r)) rs) = [].
Proof.
  intros Hp. apply rowsOfEvent_not_in.
  intros (r & -> & Hr)%list_elem_of_fmap.
  apply list_elem_of_In, filter_In in Hr as [_ Hr].
  rewrite Hp in Hr; done.
Qed.

Lemma reservationOf_unique s id ex :
  uniqueEventId s -> reservationOf s id = Some ex ->
  rowsOfEvent id (reservations s) = [ex].
Proof.
  unfold reservationOf. intros Hu Hh.
  pose proof (rowsOfEvent_length_le id _ Hu) as Hlen.
  destruct (rowsOfEvent id (reservations s)) as [|r [|r' l]]; simpl in *;
    [done | congruence | lia].
Qed.

Lemma reservationOf_elem_of s id ex :
  reservationOf s id = Some ex -> ex ∈ reservations s /\ r_eventId ex = id.
Proof.
  unfold reservationOf. intros Hh.
  assert (ex ∈ rowsOfEvent id (reservations s)) as Hin.
  { destruct (rowsOfEvent id (reservations s)); simplify_eq/=.
    apply list_elem_of_here. }
  apply list_elem_of_filter in Hin. tauto.
Qed.

Lemma reservationOf_None s id :
  reservationOf s id = None <-> id ∉ map r_eventId (reservations s).
Proof.
  unfold reservationOf. split.
  - intros Hh (r & -> & Hr)%list_elem_of_fmap.
    assert (r ∈ rowsOfEvent (r_eventId r) (reservations s)) as Hin
      by by apply list_elem_of_filter.
    destruct (rowsOfEvent (r_eventId r) (reservations s)); [|done].
    by apply not_elem_of_nil in Hin.
  - intros Hni. by rewrite rowsOfEvent_not_in.
Qed.

Lemma unassignReservation_none req eventId s :
  reservationOf s eventId = None ->
  unassignReservation req eventId s = (s, Ok 0%nat).
Proof.
  intros Hn. unfold unassignReservation.
  erewrite bind_ok by reflexivity. by rewrite Hn.
Qed.

Lemma unassignReservation_some req eventId s ex :
  reservationOf s eventId = Some ex ->
  is_Some (events s !! eventId) ->
  unassignReservation req eventId s =
    (audited
       (mkAudit eventId UNRESERVE (getActor req) (Some "Снятие резерва")
          (ChReservation (Some (placementOf ex)) None))
       (setReservations
          (List.filter (fun r => negb (bool_decide (r_eventId r = eventId)))
             (reservations s)) s),
     Ok (length (rowsOfEvent eventId (reservations s)))).
Proof.
  intros Hex Hev. unfold unassignReservation.
  erewrite bind_ok by reflexivity. rewrite Hex.
  erewrite bind_ok by reflexivity.
  erewrite bind_ok by (by apply createAudit_ok).
  by rewrite filter_bool_rows.
Qed.

(** C7: removing the reservation of an event never throws.  Without a
    reservation it returns [deleted: 0] and leaves the store as it is; with
    one it deletes that row, returns [deleted: 1] and appends one UNRESERVE
    record for the event that holds the layout, stand, start and end of
    the removed row as [from] and null as [to]; called again on the store
    it left, it returns [deleted: 0]. *)
Theorem unassign_idempotent (req : Request) (eventId : Id) (s : Store) :
  uniqueEventId s -> reservationsLinked s ->
  (reservationOf s eventId = None ->
     unassignReservation req eventId s = (s, Ok 0%nat)) /\
  (forall ex, reservationOf s eventId = Some ex ->
     exists s',
       unassignReservation req eventId s = (s', Ok 1%nat) /\
       reservations s' =
         List.filter (fun r => negb (bool_decide (r_eventId r = eventId)))
           (reservations s) /\
       reservationOf s' eventId = None /\
       events s' = events s /\
       audits s' = audits s ++
         [mkAudit eventId UNRESERVE (getActor req) (Some "Снятие резерва")
            (ChReservation
               (Some (mkPlacement (r_layoutId ex) (r_standId ex)
                        (r_startAt ex) (r_endAt ex)))
               None)] /\
       unassignReservation req eventId s' = (s', Ok 0%nat)) /\
  (exists n, snd (unassignReservation req eventId s) = Ok n /\ (n <= 1)%nat).
Proof.
  intros Hu Hl.
  assert (forall ex, reservationOf s eventId = Some ex ->
            is_Some (events s !! eventId)) as Hev.
  { intros ex [Hin <-]%reservationOf_elem_of. by apply Hl. }
  split_and!.
  - apply unassignReservation_none.
  - intros ex Hex. eexists. split_and!.
    + rewrite (unassignReservation_some _ _ _ ex) by eauto.
      by rewrite (reservationOf_unique _ _ ex).
    + done.
    + unfold reservationOf. simpl.
      rewrite rowsOfEvent_deleted; [done|].
      intros r ->. by apply bool_decide_eq_true.
    + done.
    + done.
    + apply unassignReservation_none. unfold reservationOf. simpl.
      rewrite rowsOfEvent_deleted; [done|].
      intros r ->. by apply bool_decide_eq_true.
  - destruct (reservationOf s eventId) as [ex|] eqn:Hex.
    + rewrite (unassignReservation_some _ _ _ ex) by eauto. simpl.
      eexists. split; [done|]. by apply rowsOfEvent_length_le.
    + rewrite unassignReservation_none by done. exists 0%nat. simpl. split; [done|lia].
Qed.

(** A run of the theorem above: event A of the small hangar. *)
Lemma unassign_idempotent_witness :
  uniqueEventId hangar0 /\ reservationsLinked hangar0 /\
  exists s',
    unassignReservation plannerReq idA hangar0 = (s', Ok 1%nat) /\
    audits s' = audits hangar0 ++
      [mkAudit idA UNRESERVE (getActor plannerReq) (Some "Снятие резерва")
         (ChReservation (Some (mkPlacement layoutL standX 0 10)) None)] /\
    unassignReservation plannerReq idA s' = (s', Ok 0%nat).
Proof.
  assert (uniqueEventId hangar0) as Hu.
  { unfold uniqueEventId. apply (bool_decide_unpack _). by vm_compute. }
  assert (reservationsLinked hangar0) as Hl.
  { unfold reservationsLinked. apply Forall_forall.
    apply (bool_decide_unpack _). by vm_compute. }
  split; [exact Hu|]. split; [exact Hl|].
  destruct (unassign_idempotent plannerReq idA hangar0 Hu Hl) as (_ & Hsome & _).
  destruct (Hsome (mkReservation idA layoutL standX 0 10) eq_refl)
    as (s' & H1 & _ & _ & _ & Ha & H2).
  exists s'. split; [exact H1|]. split; [exact Ha | exact H2].
Defined.

End Unassign.

(** ** The change reason of a PUT and what a failed call leaves behind *)

Section AssignReason.

Lemma reservationChanged_false ex row :
  reservationChanged (Some ex) row = false <->
  r_layoutId ex = r_layoutId row /\ r_standId ex = r_standId row /\
  r_startAt ex = r_startAt row /\ r_endAt ex = r_endAt row.
Proof.
  unfold reservationChanged. rewrite !orb_false_iff, !bool_decide_eq_false.
  split.
  - intros (((H1 & H2) & H3) & H4).
    split_and!; apply dec_stable; done.
  - intros (-> & -> & -> & ->). split_and!; by intros ?.
Qed.

(** With a prior reservation the PUT throws for the missing reason exactly
    when layout, stand, start or end differ; the part of C3 that the code
    keeps. *)
Lemma assignReservation_reason_with_prior req eventId body s e h ex :
  assignable s eventId body e h ->
  reservationOf s eventId = Some ex ->
  ab_changeReason body = None ->
  let row := assignRow eventId body e in
  (snd (assignReservation req eventId body s) =
     Err (BadRequest "changeReason is required when changing reservation") <->
   ~ (r_layoutId ex = r_layoutId row /\ r_standId ex = r_standId row /\
      r_startAt ex = r_startAt row /\ r_endAt ex = r_endAt row)) /\
  (snd (assignReservation req eventId body s) = Ok row <->
   r_layoutId ex = r_layoutId row /\ r_standId ex = r_standId row /\
   r_startAt ex = r_startAt row /\ r_endAt ex = r_endAt row).
Proof.
  intros Ha Hex Hr row. rewrite (assignReservation_written _ _ _ _ e h) by done.
  rewrite Hex, Hr. fold row. simpl noReason. rewrite andb_true_r.
  rewrite <- reservationChanged_false.
  destruct (reservationChanged (Some ex) row); simpl; split; split; done.
Qed.

(** Without a prior reservation [changed] is true: a first assignment
    without a reason always ends in the 400. *)
Lemma assignReservation_first_needs_reason req eventId body s e h :
  assignable s eventId body e h ->
  reservationOf s eventId = None ->
  ab_changeReason body = None ->
  snd (assignReservation req eventId body s) =
    Err (BadRequest "changeReason is required when changing reservation").
Proof.
  intros Ha Hex Hr. rewrite (assignReservation_written _ _ _ _ e h) by done.
  by rewrite Hex, Hr.
Qed.

(** Every error of the PUT other than the missing reason leaves the store
    as it was; the missing reason is detected after the writes. *)
Lemma assignReservation_error_store req eventId body s s' err :
  assignReservation req eventId body s = (s', Err err) ->
  s' = s \/
  (err = BadRequest "changeReason is required when changing reservation" /\
   exists e h, assignable s eventId body e h /\
     s' = placed (assignRow eventId body e)
            (setPointers (mkLayoutSel (ab_layoutId body) h)) s).
Proof.
  intros Hrun.
  destruct (assignReservation_cases req eventId body s)
    as [(err' & Herr)|(e & h & Ha)].
  - left. congruence.
  - right. rewrite (assignReservation_written _ _ _ _ e h) in Hrun by done.
    destruct (_ && _); [|done]. injection Hrun as <- <-. eauto.
Qed.

(** The two dnd handlers run in [$transaction]: an error leaves the store
    as it was. *)
Lemma dnd_error_store req s s' err :
  (forall body, dndMove req body s = (s', Err err) -> s' = s) /\
  (forall body, dndPlace req body s = (s', Err err) -> s' = s).
Proof.
  split; intros body.
  - apply transaction_err.
  - unfold dndPlace. destruct (negb _); [by intros [= <-]|].
    apply transaction_err.
Qed.

(** C3, defect: event E of the small hangar has no reservation; its first
    assignment without a change reason is rejected with the 400
    [changeReason is required when changing reservation], because [changed]
    is true whenever there is no prior reservation.  The default reason
    that the handler prepares for this very case is never reached. *)
Theorem first_assignment_without_reason_rejected :
  reservationOf hangarEmpty idE = None /\
  assignable hangarEmpty idE (mkAssignBody layoutL standX None None None)
    eventE hangarH /\
  snd (assignReservation plannerReq idE (mkAssignBody layoutL standX None None None)
         hangarEmpty) =
    Err (BadRequest "changeReason is required when changing reservation").
Proof.
  split; [done|]. split; [|by vm_compute].
  unfold assignable. split_and!.
  - by vm_compute.
  - done.
  - intros c Hc. by apply not_elem_of_nil in Hc.
  - by vm_compute.
  - apply (bool_decide_unpack _); by vm_compute.
Qed.

(** C2, defect: the PUT does not run in a transaction and tests the
    reason after its writes.  Moving event A of the small hangar from stand
    X to stand Y of layout L2 without a reason is answered with the 400,
    yet the reservation row and the layout pointer of the event have been
    written (and no audit row). *)
Theorem assign_missing_reason_keeps_writes :
  let run := assignReservation plannerReq idA
               (mkAssignBody layoutL2 standY None None None) hangar0 in
  snd run = Err (BadRequest "changeReason is required when changing reservation") /\
  reservationOf hangar0 idA = Some (mkReservation idA layoutL standX 0 10) /\
  reservationOf (fst run) idA = Some (mkReservation idA layoutL2 standY 0 10) /\
  ev_layoutId <$> events hangar0 !! idA = Some (Some layoutL) /\
  ev_layoutId <$> events (fst run) !! idA = Some (Some layoutL2) /\
  audits (fst run) = audits hangar0 /\
  fst run <> hangar0.
Proof.
  cbv zeta. do 6 (split; [by vm_compute|]).
  intros Heq. apply (f_equal reservations) in Heq. by vm_compute in Heq.
Qed.

End AssignReason.

(** ** One reservation row per event *)

Section OneRow.

Lemma assignReservation_Ok_inv req eventId body s s' r :
  assignReservation req eventId body s = (s', Ok r) ->
  exists e h,
    assignable s eventId body e h /\ r = assignRow eventId body e /\
    s' = audited (assignAudit req eventId body (reservationOf s eventId) r)
           (placed r (setPointers (mkLayoutSel (ab_layoutId body) h)) s).
Proof.
  intros Hrun.
  destruct (assignReservation_cases req eventId body s)
    as [(err & Herr)|(e & h & Ha)]; [congruence|].
  exists e, h. rewrite (assignReservation_written _ _ _ _ e h) in Hrun by done.
  destruct (_ && _); [done|]. by injection Hrun as <- <-.
Qed.

Lemma dndMove_Ok_inv req body s s' res :
  dndMove req body s = (s', Ok res) -> exists e h, movable s body e h.
Proof.
  intros Hrun. destruct (dndMove_cases req body s) as [(err & Herr)|?];
    [congruence | done].
Qed.

Lemma dndPlace_Ok_inv req body s s' res :
  dndPlace req body s = (s', Ok res) -> exists e h, placeable s body e h.
Proof.
  intros Hrun. destruct (dndPlace_cases req body s) as [(err & Herr)|?];
    [congruence | done].
Qed.

Lemma reservationOf_is_Some s id :
  is_Some (reservationOf s id) -> id ∈ map r_eventId (reservations s).
Proof.
  intros [ex [Hin <-]%reservationOf_elem_of].
  apply list_elem_of_fmap. by exists ex.
Qed.

(** C8: in every state reached through the handlers an event has at most
    one reservation row.  A PUT, dnd-move or dnd-place that returns leaves
    exactly one row for its event, the returned one, on the requested
    stand; a PUT for an event that already had a row keeps the number of
    rows.  So after assigning an event to stand X and then to stand Y its
    only row is the one on Y. *)
Theorem one_reservation_per_event (s : Store) :
  reachable s ->
  uniqueEventId s /\
  (forall id, (length (rowsOfEvent id (reservations s)) <= 1)%nat) /\
  (forall req eventId body s' r,
     assignReservation req eventId body s = (s', Ok r) ->
     rowsOfEvent eventId (reservations s') = [r] /\
     r_standId r = ab_standId body /\ r_layoutId r = ab_layoutId body /\
     (is_Some (reservationOf s eventId) ->
      length (reservations s') = length (reservations s))) /\
  (forall req body s' r ids,
     dndMove req body s = (s', Ok (r, ids)) ->
     rowsOfEvent (mb_eventId body) (reservations s') = [r] /\
     r_standId r = mb_standId body /\ r_layoutId r = mb_layoutId body) /\
  (forall req body s' r ids,
     dndPlace req body s = (s', Ok (r, ids)) ->
     rowsOfEvent (pb_eventId body) (reservations s') = [r] /\
     r_standId r = pb_standId body /\ r_layoutId r = pb_layoutId body) /\
  (forall req eventId bodyX bodyY s1 s2 rX rY,
     assignReservation req eventId bodyX s = (s1, Ok rX) ->
     assignReservation req eventId bodyY s1 = (s2, Ok rY) ->
     rowsOfEvent eventId (reservations s2) = [rY] /\
     r_standId rY = ab_standId bodyY /\
     length (reservations s2) = length (reservations s1)).
Proof.
  intros Hu%reachable_uniqueEventId.
  assert (forall t req eventId body s' r,
            uniqueEventId t ->
            assignReservation req eventId body t = (s', Ok r) ->
            rowsOfEvent eventId (reservations s') = [r] /\
            r_standId r = ab_standId body /\ r_layoutId r = ab_layoutId body /\
            (is_Some (reservationOf t eventId) ->
             length (reservations s') = length (reservations t))) as Hassign.
  { intros t req eventId body s' r Ht (e & h & _ & -> & ->)%assignReservation_Ok_inv.
    simpl. split_and!; [| done | done |].
    - by apply (rowsOfEvent_upsert (assignRow eventId body e)).
    - intros Hsome%reservationOf_is_Some. by apply upsertRow_length. }
  split_and!.
  - done.
  - intros id. by apply rowsOfEvent_length_le.
  - intros req eventId body s' r. by apply Hassign.
  - intros req body s' r ids Hrun.
    destruct (dndMove_Ok_inv _ _ _ _ _ Hrun) as (e & h & He & Hl & Hs & Hb).
    rewrite (dndMove_ok _ _ _ e h) in Hrun by done.
    injection Hrun as <- <- <-. simpl. split_and!; [|done..].
    apply (rowsOfEvent_upsert (mkReservation _ _ _ _ _)).
    by apply filter_negb_eventIds_NoDup.
  - intros req body s' r ids Hrun.
    destruct (dndPlace_Ok_inv _ _ _ _ _ Hrun) as (e & h & Hw & He & Hl & Hs & Hb).
    rewrite (dndPlace_ok _ _ _ e h) in Hrun by (done || lia).
    injection Hrun as <- <- <-. simpl. split_and!; [|done..].
    apply (rowsOfEvent_upsert (mkReservation _ _ _ _ _)).
    by apply filter_negb_eventIds_NoDup.
  - intros req eventId bodyX bodyY s1 s2 rX rY HX HY.
    assert (uniqueEventId s1) as Hu1.
    { replace s1 with (exec req (OpAssign eventId bodyX) s)
        by (simpl; by rewrite HX).
      by apply exec_uniqueEventId. }
    destruct (Hassign s req eventId bodyX s1 rX Hu HX) as (HrX & _).
    destruct (Hassign s1 req eventId bodyY s2 rY Hu1 HY) as (HrY & Hst & _ & Hlen).
    split_and!; [done | done |]. apply Hlen.
    unfold reservationOf. by rewrite HrX.
Qed.

(** A run of the theorem above: in the hangar without reservations event E
    is assigned to stand X and then to stand Y. *)
Lemma one_reservation_per_event_witness :
  reachable hangarEmpty /\
  exists s1 s2 rX rY,
    assignReservation plannerReq idE
      (mkAssignBody layoutL standX None None (Some "first")) hangarEmpty = (s1, Ok rX) /\
    assignReservation plannerReq idE
      (mkAssignBody layoutL standY None None (Some "moved")) s1 = (s2, Ok rY) /\
    rowsOfEvent idE (reservations s2) = [rY] /\ r_standId rY = standY /\
    length (reservations s2) = length (reservations s1).
Proof.
  assert (reachable hangarEmpty) as Hr by (by apply reach_init).
  split; [exact Hr|].
  destruct (one_reservation_per_event hangarEmpty Hr) as (_ & _ & _ & _ & _ & H).
  set (s1 := fst (assignReservation plannerReq idE
                    (mkAssignBody layoutL standX None None (Some "first")) hangarEmpty)).
  set (s2 := fst (assignReservation plannerReq idE
                    (mkAssignBody layoutL standY None None (Some "moved")) s1)).
  exists s1, s2, (mkReservation idE layoutL standX 5 15),
    (mkReservation idE layoutL standY 5 15).
  assert (assignReservation plannerReq idE
            (mkAssignBody layoutL standX None None (Some "first")) hangarEmpty
          = (s1, Ok (mkReservation idE layoutL standX 5 15))) as H1
    by (apply (run_eq (assignReservation plannerReq idE _)); by vm_compute).
  assert (assignReservation plannerReq idE
            (mkAssignBody layoutL standY None None (Some "moved")) s1
          = (s2, Ok (mkReservation idE layoutL standY 5 15))) as H2
    by (apply (run_eq (assignReservation plannerReq idE _)); by vm_compute).
  split; [exact H1|]. split; [exact H2|].
  exact (H plannerReq idE _ _ s1 s2 _ _ H1 H2).
Defined.

End OneRow.

(** ** The stores the dnd handlers commit *)

Section DndStores.

Lemma filter_eventIds_NoDup (p : StandReservation -> bool) rs :
  NoDup (map r_eventId rs) -> NoDup (map r_eventId (List.filter p rs)).
Proof.
  intros Hnd.
  rewrite <- (filter_ext (fun r => negb (negb (p r))) p)
    by (intros r; apply negb_involutive).
  by apply (filter_negb_eventIds_NoDup (fun r => negb (p r))).
Qed.

Lemma dndConflicts_NoDup s eventId standId bumpedId ws we :
  uniqueEventId s ->
  NoDup (map r_eventId (dndConflicts s eventId standId bumpedId ws we)).
Proof.
  intros Hu. unfold dndConflicts, findManyConflicts.
  pose proof (filter_eventIds_NoDup
    (conflictWhere s standId (dndFilter eventId bumpedId) ws we) _ Hu) as Hnd.
  destruct (dndFilter eventId bumpedId); [|done].
  eapply NoDup_Permutation_proper; [|exact Hnd].
  apply fmap_Permutation, merge_sort_Permutation.
Qed.


Lemma auditsOfEvent_bumpAudits req byEventId reason ids id :
  NoDup ids ->
  auditsOfEvent id (map (bumpAudit req byEventId reason) ids) =
    if decide (id ∈ ids) then [bumpAudit req byEventId reason id] else [].
Proof.
  unfold auditsOfEvent. induction ids as [|x ids IH]; intros Hnd.
  - by rewrite decide_False by apply not_elem_of_nil.
  - apply NoDup_cons in Hnd as [Hx Hnd]. simpl. rewrite IH by done.
    case_bool_decide as Heq.
    + subst x. rewrite (decide_False (P := id ∈ ids)) by done.
      by rewrite decide_True by apply list_elem_of_here.
    + destruct (decide (id ∈ ids)) as [Hin|Hni].
      * by rewrite decide_True by by apply list_elem_of_further.
      * rewrite decide_False; [done|].
        intros [?|?]%elem_of_cons; congruence.
Qed.


Lemma newAudits_committed req byEventId reason ids row data a s :
  newAudits s (audited a (placed row data (bumped req byEventId reason ids s))) =
    map (bumpAudit req byEventId reason) ids ++ [a].
Proof.
  unfold newAudits. simpl. rewrite <- app_assoc. by rewrite drop_app_length.
Qed.

Lemma events_committed req byEventId reason ids row data a s id :
  events (audited a (placed row data (bumped req byEventId reason ids s))) !! id =
    (fun e => if decide (id = r_eventId row) then data e else e) <$>
    ((fun e => if bool_decide (id ∈ ids) then clearPlacement e else e) <$>
     events s !! id).
Proof.
  simpl. rewrite lookup_alter.
  destruct (decide (r_eventId row = id)) as [<-|Hne];
    rewrite events_clearMany_lookup.
  - destruct (events s !! r_eventId row); simpl; [|done].
    by rewrite decide_True.
  - destruct (events s !! id); simpl; [|done].
    by rewrite decide_False.
Qed.

Lemma reservations_committed req byEventId reason ids row data a s :
  reservations (audited a (placed row data (bumped req byEventId reason ids s))) =
    upsertRow row
      (List.filter (fun r => negb (bool_decide (r_eventId r ∈ ids)))
         (reservations s)).
Proof. done. Qed.

End DndStores.

(** ** Drag-and-drop with a new window *)

Section DndPlace.




End DndPlace.

(** ** The bump *)

Section Bump.

Lemma committed_displaced req mover reason conflicts row data a s c :
  NoDup (map r_eventId conflicts) ->
  (forall c', c' ∈ conflicts -> is_Some (events s !! r_eventId c')) ->
  r_eventId row = mover -> a_eventId a = mover -> isBumpRecord a = false ->
  (forall e, ev_status (data e) = ev_status e) ->
  c ∈ conflicts ->
  displacedBy req mover reason s
    (audited a (placed row data
       (bumped req mover reason (map r_eventId conflicts) s))) c.
Proof.
  intros Hnd Hev Hrow Ha Hnb Hdata Hc.
  destruct (Hev c Hc) as [e He]. exists e.
  assert (r_eventId c ∈ map r_eventId conflicts) as Hin
    by (apply list_elem_of_fmap; by exists c).
  assert (auditsOfEvent (r_eventId c)
            (map (bumpAudit req mover reason) (map r_eventId conflicts) ++ [a])
          = bumpAudit req mover reason (r_eventId c)
              :: auditsOfEvent (r_eventId c) [a]) as Haud.
  { unfold auditsOfEvent at 1. rewrite List.filter_app.
    fold (auditsOfEvent (r_eventId c)
            (map (bumpAudit req mover reason) (map r_eventId conflicts))).
    rewrite auditsOfEvent_bumpAudits by done. by rewrite decide_True. }
  split_and!.
  - done.
  - rewrite newAudits_committed, Haud. simpl.
    case_bool_decide; simpl; by rewrite ?Hnb.
  - rewrite events_committed, He. simpl.
    rewrite bool_decide_eq_true_2 by done.
    eexists. split; [done|]. case_decide; by rewrite ?Hdata.
  - intros Hne. split_and!.
    + rewrite reservations_committed.
      intros [->|Hf]%upsertRow_elem_of; [done|].
      apply list_elem_of_In, filter_In in Hf as [_ Hf].
      by rewrite bool_decide_eq_true_2 in Hf.
    + apply reservationOf_None. rewrite reservations_committed.
      intros (r & Hr & [->|Hf]%upsertRow_elem_of)%list_elem_of_fmap;
        [congruence|].
      apply list_elem_of_In, filter_In in Hf as [_ Hf].
      rewrite <- Hr in Hf. by rewrite bool_decide_eq_true_2 in Hf.
    + rewrite events_committed, He. simpl.
      rewrite bool_decide_eq_true_2 by done.
      by rewrite decide_False by congruence.
    + done.
    + done.
    + rewrite newAudits_committed, Haud. simpl.
      by rewrite bool_decide_eq_false_2 by congruence.
Qed.

Lemma bumped_bumpedOut req mover reason conflicts s c :
  NoDup (map r_eventId conflicts) ->
  (forall c', c' ∈ conflicts -> is_Some (events s !! r_eventId c')) ->
  c ∈ conflicts ->
  bumpedOut req mover reason s
    (bumped req mover reason (map r_eventId conflicts) s) c.
Proof.
  intros Hnd Hev Hc. destruct (Hev c Hc) as [e He]. exists e.
  assert (r_eventId c ∈ map r_eventId conflicts) as Hin
    by (apply list_elem_of_fmap; by exists c).
  split_and!; try done.
  - simpl. intros Hf. apply list_elem_of_In, filter_In in Hf as [_ Hf].
    by rewrite bool_decide_eq_true_2 in Hf.
  - apply reservationOf_None. simpl.
    intros (r & Hr & Hf)%list_elem_of_fmap.
    apply list_elem_of_In, filter_In in Hf as [_ Hf].
    rewrite <- Hr in Hf. by rewrite bool_decide_eq_true_2 in Hf.
  - simpl. rewrite events_clearMany_lookup, He. simpl.
    by rewrite bool_decide_eq_true_2.
  - unfold newAudits. simpl. rewrite drop_app_length.
    rewrite auditsOfEvent_bumpAudits by done. by rewrite decide_True.
Qed.

(** C6, as amended: when dnd-move or dnd-place finds conflicts and
    bumping is allowed, the bump block runs on all of them and the call
    commits its result plus the placement of the mover and returns the ids
    of the conflicting events.  For each conflicting row the bump deletes
    the row, sets hangar and layout of the event to null and its status to
    DRAFT, and appends exactly one record for it: kind UPDATE, the actor
    and reason of the request, and a payload that names the moving event
    ([bumpedByEventId]) and the new state (reservation null, status DRAFT,
    hangar and layout null).  The committed store shows the same for every
    displaced event.  The placement the event had is not in the record. *)
Theorem bump_displaces_conflicts (req : Request) (s : Store) :
  uniqueEventId s ->
  (forall body e h,
     movable s body e h -> mb_bumpOnConflict body = Some true ->
     let conflicts := dndConflicts s (mb_eventId body) (mb_standId body)
                        (mb_bumpedEventId body) (ev_startAt e) (ev_endAt e) in
     exists sb s' row a,
       bumpConflicts req (mb_eventId body) (mb_changeReason body) conflicts s =
         (sb, Ok (map r_eventId conflicts)) /\
       dndMove req body s = (s', Ok (row, map r_eventId conflicts)) /\
       s' = audited a (placed row (setPointers (mkLayoutSel (mb_layoutId body) h)) sb) /\
       forall c, c ∈ conflicts ->
         bumpedOut req (mb_eventId body) (mb_changeReason body) s sb c /\
         displacedBy req (mb_eventId body) (mb_changeReason body) s s' c) /\
  (forall body e h,
     placeable s body e h -> pb_bumpOnConflict body = Some true ->
     let conflicts := dndConflicts s (pb_eventId body) (pb_standId body)
                        (pb_bumpedEventId body) (pb_startAt body) (pb_endAt body) in
     exists sb s' row a,
       bumpConflicts req (pb_eventId body) (pb_changeReason body) conflicts s =
         (sb, Ok (map r_eventId conflicts)) /\
       dndPlace req body s = (s', Ok (row, map r_eventId conflicts)) /\
       s' = audited a
              (placed row
                 (setWindowAndPointers (pb_startAt body) (pb_endAt body)
                    (mkLayoutSel (pb_layoutId body) h)) sb) /\
       forall c, c ∈ conflicts ->
         bumpedOut req (pb_eventId body) (pb_changeReason body) s sb c /\
         displacedBy req (pb_eventId body) (pb_changeReason body) s s' c).
Proof.
  intros Hu. split.
  - intros body e h (He & Hl & Hs & Hb) Hbump conflicts.
    assert (forall c', c' ∈ conflicts -> is_Some (events s !! r_eventId c'))
      as Hev by (intros c'; apply dndConflicts_linked).
    assert (NoDup (map r_eventId conflicts)) as Hnd
      by by apply dndConflicts_NoDup.
    eexists _, _, _, _. split; [by apply bumpConflicts_ok|].
    split; [apply (dndMove_ok _ _ _ e h); done|].
    split; [reflexivity|].
    intros c Hc. split; [by apply bumped_bumpedOut|].
    by apply committed_displaced.
  - intros body e h (Hw & He & Hl & Hs & Hb) Hbump conflicts.
    assert (forall c', c' ∈ conflicts -> is_Some (events s !! r_eventId c'))
      as Hev by (intros c'; apply dndConflicts_linked).
    assert (NoDup (map r_eventId conflicts)) as Hnd
      by by apply dndConflicts_NoDup.
    eexists _, _, _, _. split; [by apply bumpConflicts_ok|].
    split; [apply (dndPlace_ok _ _ _ e h); (done || lia)|].
    split; [reflexivity|].
    intros c Hc. split; [by apply bumped_bumpedOut|].
    by apply committed_displaced.
Qed.

(** A run of the theorem above: event E, window [5,15), is dropped on
    stand X of the small hangar with bumping allowed; both rows of the
    stand are displaced. *)
Lemma bump_displaces_conflicts_witness :
  let body := mkDndMoveBody idE layoutL standX (Some true) None "urgent" in
  uniqueEventId hangar0 /\
  movable hangar0 body eventE hangarH /\
  exists s' row,
    dndMove plannerReq body hangar0 = (s', Ok (row, [idA; idC])) /\
    displacedBy plannerReq idE "urgent" hangar0 s'
      (mkReservation idA layoutL standX 0 10) /\
    displacedBy plannerReq idE "urgent" hangar0 s'
      (mkReservation idC layoutL standX 10 20).
Proof.
  intros body.
  assert (uniqueEventId hangar0) as Hu.
  { unfold uniqueEventId. apply (bool_decide_unpack _). by vm_compute. }
  assert (movable hangar0 body
            eventE hangarH) as Hm.
  { split_and!; [by vm_compute | by vm_compute | |].
    - apply (bool_decide_unpack _); by vm_compute.
    - by right. }
  split; [exact Hu|]. split; [exact Hm|].
  destruct (bump_displaces_conflicts plannerReq hangar0 Hu) as [H _].
  destruct (H body _ _ Hm eq_refl) as (sb & s' & row & a & _ & Hrun & _ & Hd).
  exists s', row. split; [exact Hrun|].
  split; apply Hd; apply (bool_decide_unpack _); by vm_compute.
Defined.

(** C6, counterexample: in the small hangar and in its variant where A is
    placed through layout L2 in [2,8), dropping E on stand X with bumping
    displaces A and appends the same record for A; so no reading of a bump
    record gives the placement the displaced event had. *)
Lemma bump_record_omits_prior_placement :
  let body := mkDndMoveBody idE layoutL standX (Some true) None "urgent" in
  let s0' := fst (dndMove plannerReq body hangar0) in
  let s1' := fst (dndMove plannerReq body hangar1) in
  reservationOf hangar0 idA = Some (mkReservation idA layoutL standX 0 10) /\
  reservationOf hangar1 idA = Some (mkReservation idA layoutL2 standX 2 8) /\
  auditsOfEvent idA (newAudits hangar0 s0') =
    [mkAudit idA UPDATE "planner@example.org" (Some "urgent")
       (ChBumped idE None DRAFT None None)] /\
  auditsOfEvent idA (newAudits hangar1 s1') =
    [mkAudit idA UPDATE "planner@example.org" (Some "urgent")
       (ChBumped idE None DRAFT None None)] /\
  ~ bumpRecordsPriorPlacement.
Proof.
  intros body s0' s1'.
  do 4 (split; [by vm_compute|]).
  intros (priorOf & Hprior).
  set (a := mkAudit idA UPDATE "planner@example.org" (Some "urgent")
              (ChBumped idE None DRAFT None None)).
  set (e := eventE).
  assert (priorOf a = Some (placementOf (mkReservation idA layoutL standX 0 10))) as H0.
  { apply (Hprior plannerReq hangar0 body e s0'
             (mkReservation idE layoutL standX 5 15) [idA; idC]).
    - by vm_compute.
    - apply (run_eq (dndMove plannerReq body)). by vm_compute.
    - apply (bool_decide_unpack _). by vm_compute.
    - apply (bool_decide_unpack _). by vm_compute.
    - done. }
  assert (priorOf a = Some (placementOf (mkReservation idA layoutL2 standX 2 8))) as H1.
  { apply (Hprior plannerReq hangar1 body e s1'
             (mkReservation idE layoutL standX 5 15) [idA; idC]).
    - by vm_compute.
    - apply (run_eq (dndMove plannerReq body)). by vm_compute.
    - apply (bool_decide_unpack _). by vm_compute.
    - apply (bool_decide_unpack _). by vm_compute.
    - done. }
  rewrite H0 in H1. discriminate.
Qed.

End Bump.

(** ** The hangar and layout pointers of an event *)

Section Pointers.

Lemma upsertRow_elem_of_unique row rs r :
  NoDup (map r_eventId rs) -> r ∈ upsertRow row rs ->
  r = row \/ (r ∈ rs /\ r_eventId r <> r_eventId row).
Proof.
  induction rs as [|r0 rs IH]; simpl; intros Hnd.
  - intros ->%list_elem_of_singleton. by left.
  - apply NoDup_cons in Hnd as [Hni Hnd]. case_bool_decide as Heq.
    + intros [->|Hin]%elem_of_cons; [by left|]. right.
      split; [by apply list_elem_of_further|].
      intros Heq'. apply Hni. rewrite Heq, <- Heq'.
      apply list_elem_of_fmap. by exists r.
    + intros [->|Hin]%elem_of_cons.
      * right. split; [apply list_elem_of_here | done].
      * destruct (IH Hnd Hin) as [->|[Hr Hne]]; [by left|].
        right. split; [by apply list_elem_of_further | done].
Qed.

Lemma placedInSync_placed row data s h :
  uniqueEventId s -> placedInSync s ->
  is_Some (events s !! r_eventId row) ->
  layouts s !! r_layoutId row = Some h ->
  (forall e, ev_layoutId (data e) = Some (r_layoutId row) /\
             ev_hangarId (data e) = Some h) ->
  placedInSync (placed row data s).
Proof.
  intros Hu Hsync [e He] Hl Hdata r Hr. simpl in *.
  apply upsertRow_elem_of_unique in Hr; [|exact Hu].
  destruct Hr as [->|[Hr Hne]].
  - exists (data e), h. rewrite lookup_alter_eq, He. simpl.
    destruct (Hdata e). done.
  - destruct (Hsync r Hr) as (e' & h' & He' & Hl' & Hp).
    exists e', h'. by rewrite lookup_alter_ne.
Qed.

Lemma placedInSync_bumped req byEventId reason ids s :
  placedInSync s -> placedInSync (bumped req byEventId reason ids s).
Proof.
  intros Hsync r Hr. simpl in *.
  apply list_elem_of_In, filter_In in Hr as [Hr Hni].
  apply list_elem_of_In in Hr. apply negb_true_iff in Hni.
  destruct (Hsync r Hr) as (e & h & He & Hl & Hp).
  exists e, h. rewrite events_clearMany_lookup, He. simpl. by rewrite Hni.
Qed.

Lemma placedInSync_audited a s : placedInSync s -> placedInSync (audited a s).
Proof. done. Qed.

Lemma uniqueEventId_bumped req byEventId reason ids s :
  uniqueEventId s -> uniqueEventId (bumped req byEventId reason ids s).
Proof. intros Hu. by apply filter_negb_eventIds_NoDup. Qed.

Lemma unassignReservation_store req eventId s :
  let s' := fst (unassignReservation req eventId s) in
  events s' = events s /\ layouts s' = layouts s /\
  reservations s' =
    match reservationOf s eventId with
    | Some _ => List.filter (fun r => negb (bool_decide (r_eventId r = eventId)))
                  (reservations s)
    | None => reservations s
    end.
Proof.
  unfold unassignReservation, bind, findReservation, deleteManyReservations,
    createAudit, ret.
  destruct (reservationOf s eventId) as [ex|]; simpl; [|done].
  by destruct (events s !! eventId).
Qed.

Lemma exec_placedInSync req op s :
  uniqueEventId s -> placedInSync s -> placedInSync (exec req op s).
Proof.
  intros Hu Hsync. destruct op as [eventId body|body|body|eventId]; simpl.
  - destruct (assignReservation_cases req eventId body s)
      as [(err & ->)|(e & h & Ha)]; [done|].
    rewrite (assignReservation_written _ _ _ _ e h) by done.
    destruct Ha as (He & _ & _ & Hl & _).
    assert (placedInSync (placed (assignRow eventId body e)
              (setPointers (mkLayoutSel (ab_layoutId body) h)) s)) as Hp.
    { apply (placedInSync_placed _ _ _ h); done. }
    by destruct (_ && _).
  - destruct (dndMove_cases req body s) as [(err & ->)|(e & h & Hm)]; [done|].
    destruct Hm as (He & Hl & Hs & Hb).
    rewrite (dndMove_ok _ _ _ e h) by done. simpl fst.
    apply placedInSync_audited, (placedInSync_placed _ _ _ h); try done.
    + by apply uniqueEventId_bumped.
    + by apply placedInSync_bumped.
    + apply bumped_events_is_Some. simpl. by rewrite He.
  - destruct (dndPlace_cases req body s) as [(err & ->)|(e & h & Hm)]; [done|].
    destruct Hm as (Hw & He & Hl & Hs & Hb).
    rewrite (dndPlace_ok _ _ _ e h) by (done || lia). simpl fst.
    apply placedInSync_audited, (placedInSync_placed _ _ _ h); try done.
    + by apply uniqueEventId_bumped.
    + by apply placedInSync_bumped.
    + apply bumped_events_is_Some. simpl. by rewrite He.
  - destruct (unassignReservation_store req eventId s) as (He & Hl & Hr).
    intros r Hin. rewrite He, Hl. apply Hsync. rewrite Hr in Hin.
    destruct (reservationOf s eventId); [|done].
    apply list_elem_of_In, filter_In in Hin as [Hin _].
    by apply list_elem_of_In.
Qed.

Lemma reachable_placedInSync s : reachable s -> placedInSync s.
Proof.
  induction 1 as [s Hs|s req op Hr IH].
  - intros r Hin. rewrite Hs in Hin. by apply not_elem_of_nil in Hin.
  - apply exec_placedInSync; [by apply reachable_uniqueEventId | done].
Qed.

Lemma displacedBy_unplaced req mover reason s s' conflicts id :
  (forall c, c ∈ conflicts -> displacedBy req mover reason s s' c) ->
  id ∈ map r_eventId conflicts -> id <> mover ->
  reservationOf s' id = None /\
  exists e', events s' !! id = Some e' /\
    ev_hangarId e' = None /\ ev_layoutId e' = None /\ ev_status e' = DRAFT.
Proof.
  intros Hd (c & -> & Hc)%list_elem_of_fmap Hne.
  destruct (Hd c Hc) as (e & _ & _ & _ & Hrest).
  destruct (Hrest Hne) as (_ & Hnone & He' & _). split; [done|].
  by exists (clearPlacement e).
Qed.

Lemma upsertRow_eventIds_elem_of row rs id :
  id ∈ map r_eventId (upsertRow row rs) <->
  id = r_eventId row \/ id ∈ map r_eventId rs.
Proof.
  rewrite upsertRow_eventIds. case_decide as Hin.
  - split; [by right|]. by intros [->|?].
  - rewrite elem_of_app, list_elem_of_singleton. tauto.
Qed.

Lemma filter_eventIds_elem_of (p : StandReservation -> bool) rs id :
  (forall r, r_eventId r = id -> p r = true) ->
  id ∈ map r_eventId rs -> id ∈ map r_eventId (List.filter p rs).
Proof.
  intros Hp (r & -> & Hr)%list_elem_of_fmap.
  apply list_elem_of_fmap. exists r. split; [done|].
  apply list_elem_of_In, filter_In. split; [by apply list_elem_of_In|].
  by apply Hp.
Qed.

Lemma unplacedCleared_bumped req byEventId reason ids s :
  unplacedCleared s -> unplacedCleared (bumped req byEventId reason ids s).
Proof.
  intros Hc id e' He' Hnone. simpl in He'.
  rewrite events_clearMany_lookup in He'.
  destruct (events s !! id) as [e|] eqn:He; [|done].
  simpl in He'. injection He' as <-.
  case_bool_decide as Hin; [done|].
  apply (Hc id e He). apply reservationOf_None.
  apply reservationOf_None in Hnone. intros Hrow. apply Hnone. simpl.
  apply filter_eventIds_elem_of; [|done].
  intros r ->. by rewrite bool_decide_eq_false_2.
Qed.

Lemma unplacedCleared_placed row data s :
  unplacedCleared s -> unplacedCleared (placed row data s).
Proof.
  intros Hc id e' He' Hnone.
  apply reservationOf_None in Hnone. simpl in Hnone.
  rewrite upsertRow_eventIds_elem_of in Hnone.
  simpl in He'. rewrite lookup_alter_ne in He' by (intros Heq; apply Hnone; by left).
  apply (Hc id e' He'). apply reservationOf_None. tauto.
Qed.

Lemma unplacedCleared_audited a s :
  unplacedCleared s -> unplacedCleared (audited a s).
Proof. done. Qed.

(** The three placement handlers keep "no reservation, no pointers",
    whether they return or throw. *)
Lemma exec_unplacedCleared req op s :
  (forall eventId, op <> OpUnassign eventId) ->
  unplacedCleared s -> unplacedCleared (exec req op s).
Proof.
  intros Hop Hc. destruct op as [eventId body|body|body|eventId]; simpl.
  - destruct (assignReservation_cases req eventId body s)
      as [(err & ->)|(e & h & Ha)]; [done|].
    rewrite (assignReservation_written _ _ _ _ e h) by done.
    assert (unplacedCleared (placed (assignRow eventId body e)
              (setPointers (mkLayoutSel (ab_layoutId body) h)) s)) as Hp
      by by apply unplacedCleared_placed.
    by destruct (_ && _).
  - destruct (dndMove_cases req body s) as [(err & ->)|(e & h & Hm)]; [done|].
    destruct Hm as (He & Hl & Hs & Hb).
    rewrite (dndMove_ok _ _ _ e h) by done. simpl fst.
    by apply unplacedCleared_audited, unplacedCleared_placed,
      unplacedCleared_bumped.
  - destruct (dndPlace_cases req body s) as [(err & ->)|(e & h & Hm)]; [done|].
    destruct Hm as (Hw & He & Hl & Hs & Hb).
    rewrite (dndPlace_ok _ _ _ e h) by (done || lia). simpl fst.
    by apply unplacedCleared_audited, unplacedCleared_placed,
      unplacedCleared_bumped.
  - by destruct (Hop eventId).
Qed.

(** C4, as amended.  From a store that satisfies the unique index and in
    which every reserved event points at the layout of its reservation and
    at the hangar of that layout, every call of the four handlers leads to
    such a store again.  PUT, dnd-move and dnd-place, returning or
    throwing, also keep the other half: when every event without a
    reservation had no hangar and no layout before the call, so it has
    after it; an event displaced by a bump, other than the moved event
    itself, is left without reservation, hangar and layout and in status
    DRAFT (a moved event that names itself as the one to bump is placed
    again, so it falls under the first half).  DELETE by-event removes the
    reservation and leaves the events table, hence the pointers of the
    event, as it was: the other half is lost for that event, and kept for
    every other one. *)
Theorem pointers_follow_reservation (req : Request) (s : Store) :
  uniqueEventId s -> placedInSync s ->
  (forall op, placedInSync (exec req op s)) /\
  (forall op, (forall eventId, op <> OpUnassign eventId) ->
     unplacedCleared s -> unplacedCleared (exec req op s)) /\
  (forall body s' row ids id,
     dndMove req body s = (s', Ok (row, ids)) ->
     id ∈ ids -> id <> mb_eventId body ->
     reservationOf s' id = None /\
     exists e', events s' !! id = Some e' /\
       ev_hangarId e' = None /\ ev_layoutId e' = None /\ ev_status e' = DRAFT) /\
  (forall body s' row ids id,
     dndPlace req body s = (s', Ok (row, ids)) ->
     id ∈ ids -> id <> pb_eventId body ->
     reservationOf s' id = None /\
     exists e', events s' !! id = Some e' /\
       ev_hangarId e' = None /\ ev_layoutId e' = None /\ ev_status e' = DRAFT) /\
  (forall eventId,
     let s' := exec req (OpUnassign eventId) s in
     events s' = events s /\
     reservationOf s' eventId = None /\
     (unplacedCleared s ->
      forall id e, id <> eventId ->
        events s' !! id = Some e -> reservationOf s' id = None ->
        ev_hangarId e = None /\ ev_layoutId e = None)).
Proof.
  intros Hu Hsync. split_and!.
  - intros op. by apply exec_placedInSync.
  - intros op. apply exec_unplacedCleared.
  - intros body s' row ids id Hrun Hin Hne.
    destruct (dndMove_Ok_inv _ _ _ _ _ Hrun) as (e & h & He & Hl & Hs & Hb).
    rewrite (dndMove_ok _ _ _ e h) in Hrun by done.
    injection Hrun as <- <- <-.
    eapply displacedBy_unplaced; [|exact Hin|exact Hne].
    intros c Hc. apply committed_displaced; try done.
    + by apply dndConflicts_NoDup.
    + intros c'. apply dndConflicts_linked.
  - intros body s' row ids id Hrun Hin Hne.
    destruct (dndPlace_Ok_inv _ _ _ _ _ Hrun) as (e & h & Hw & He & Hl & Hs & Hb).
    rewrite (dndPlace_ok _ _ _ e h) in Hrun by (done || lia).
    injection Hrun as <- <- <-.
    eapply displacedBy_unplaced; [|exact Hin|exact Hne].
    intros c Hc. apply committed_displaced; try done.
    + by apply dndConflicts_NoDup.
    + intros c'. apply dndConflicts_linked.
  - intros eventId s'. unfold s'. simpl.
    destruct (unassignReservation_store req eventId s) as (He & _ & Hr).
    cbv zeta in He, Hr.
    split; [done|]. split.
    + unfold reservationOf. rewrite Hr.
      destruct (reservationOf s eventId) eqn:Hex; [|done].
      rewrite rowsOfEvent_deleted; [done|].
      intros r ->. by apply bool_decide_eq_true.
    + intros Hc id e Hne Hev Hnone. rewrite He in Hev.
      apply (Hc id e Hev). apply reservationOf_None.
      apply reservationOf_None in Hnone. rewrite Hr in Hnone.
      destruct (reservationOf s eventId); [|done].
      intros Hrow. apply Hnone.
      apply filter_eventIds_elem_of; [|done].
      intros r ->. by rewrite bool_decide_eq_false_2.
Qed.

Lemma hangar0_unplacedCleared : unplacedCleared hangar0.
Proof.
  apply (bool_decide_unpack (map_Forall (fun id e =>
    reservationOf hangar0 id = None ->
    ev_hangarId e = None /\ ev_layoutId e = None) (events hangar0))).
  by vm_compute.
Qed.

(** A run of the theorem above on the small hangar: E is dropped on stand
    X with bumping allowed, which displaces A and C; and A is unassigned. *)
Lemma pointers_follow_reservation_witness :
  let move := OpDndMove
                (mkDndMoveBody idE layoutL standX (Some true) None "urgent") in
  uniqueEventId hangar0 /\ placedInSync hangar0 /\ unplacedCleared hangar0 /\
  placedInSync (exec plannerReq move hangar0) /\
  unplacedCleared (exec plannerReq move hangar0) /\
  events (exec plannerReq (OpUnassign idA) hangar0) = events hangar0 /\
  reservationOf (exec plannerReq (OpUnassign idA) hangar0) idA = None.
Proof.
  intros move.
  assert (uniqueEventId hangar0) as Hu.
  { unfold uniqueEventId. apply (bool_decide_unpack _). by vm_compute. }
  assert (placedInSync hangar0) as Hs.
  { intros r Hr. simpl in Hr.
    apply elem_of_cons in Hr as [->|Hr]; [by exists
      eventA, hangarH|].
    apply elem_of_cons in Hr as [->|Hr]; [by exists
      eventC, hangarH|].
    by apply not_elem_of_nil in Hr. }
  pose proof hangar0_unplacedCleared as Hc.
  split; [exact Hu|]. split; [exact Hs|]. split; [exact Hc|].
  destruct (pointers_follow_reservation plannerReq hangar0 Hu Hs)
    as (Hop & Hun & _ & _ & Hdel).
  split; [apply Hop|]. split.
  - apply Hun; [|exact Hc]. intros eventId. discriminate.
  - destruct (Hdel idA) as (Hev & Hnone & _). split; [exact Hev | exact Hnone].
Defined.

Lemma hangar0_placedInSync : placedInSync hangar0.
Proof.
  unfold placedInSync. apply Forall_forall. repeat constructor.
  - by exists eventA, hangarH.
  - by exists eventC, hangarH.
Qed.

(** C4, counterexample: in the small hangar every reserved event points at
    its layout and hangar and every other event has null pointers; after
    DELETE by-event for A, event A has no reservation and still points at
    hangar H and layout L. *)
Lemma unassign_keeps_pointers :
  let s' := exec plannerReq (OpUnassign idA) hangar0 in
  placedInSync hangar0 /\ unplacedCleared hangar0 /\
  snd (unassignReservation plannerReq idA hangar0) = Ok 1%nat /\
  reservationOf s' idA = None /\
  ev_hangarId <$> events s' !! idA = Some (Some hangarH) /\
  ev_layoutId <$> events s' !! idA = Some (Some layoutL) /\
  ~ unplacedCleared s'.
Proof.
  intros s'. split_and!.
  - apply hangar0_placedInSync.
  - apply (bool_decide_unpack (map_Forall (fun id e =>
      reservationOf hangar0 id = None ->
      ev_hangarId e = None /\ ev_layoutId e = None) (events hangar0))).
    by vm_compute.
  - by vm_compute.
  - by vm_compute.
  - by vm_compute.
  - by vm_compute.
  - intros Hc.
    destruct (Hc idA eventA) as [Hh _];
      [by vm_compute | by vm_compute | discriminate].
Qed.

End Pointers.

(** ** The non-overlap invariant *)

Section NonOverlap.

Lemma nonOverlapping_events s :
  uniqueEventId s -> nonOverlapping s <-> nonOverlappingEvents s.
Proof.
  intros Hu. split.
  - intros Hno a b [i Hi]%list_elem_of_lookup [j Hj]%list_elem_of_lookup Hne.
    apply (Hno i j a b Hi Hj). intros ->. congruence.
  - intros Hno i j a b Hi Hj Hne. apply Hno.
    + apply list_elem_of_lookup. by exists i.
    + apply list_elem_of_lookup. by exists j.
    + intros Heq. apply Hne.
      apply (NoDup_lookup _ i j (r_eventId a) Hu).
      * by rewrite list_lookup_fmap, Hi.
      * by rewrite list_lookup_fmap, Hj, Heq.
Qed.

Lemma overlap_sym a b : overlap a b -> overlap b a.
Proof. unfold overlap. tauto. Qed.

(** The store a placement commits after bumping every conflict of the
    window of the row keeps the invariant. *)
Lemma nonOverlappingEvents_committed req reason row data a s ids :
  uniqueEventId s -> nonOverlappingEvents s ->
  (forall e, ev_status (data e) = ev_status e) ->
  (forall c, c ∈ reservations s ->
     conflictWhere s (r_standId row) (NotEvent (r_eventId row))
       (r_startAt row) (r_endAt row) c = true -> r_eventId c ∈ ids) ->
  nonOverlappingEvents
    (audited a (placed row data (bumped req (r_eventId row) reason ids s))).
Proof.
  intros Hu Hno Hdata Hall.
  set (s' := audited a (placed row data (bumped req (r_eventId row) reason ids s))).
  assert (forall r, r ∈ reservations s' ->
            r = row \/ (r ∈ reservations s /\ r_eventId r <> r_eventId row /\
                        r_eventId r ∉ ids)) as Hrows.
  { intros r Hr. unfold s' in Hr. rewrite reservations_committed in Hr.
    apply upsertRow_elem_of_unique in Hr;
      [|by apply filter_negb_eventIds_NoDup].
    destruct Hr as [->|[Hr Hne]]; [by left|]. right.
    apply list_elem_of_In, filter_In in Hr as [Hr Hni].
    apply negb_true_iff, bool_decide_eq_false in Hni.
    split_and!; [by apply list_elem_of_In | done | done]. }
  assert (forall r, r ∈ reservations s -> r_eventId r <> r_eventId row ->
            r_eventId r ∉ ids ->
            eventNotCancelled s' r = eventNotCancelled s r) as Hact.
  { intros r Hr Hne Hni. unfold eventNotCancelled, s'.
    rewrite events_committed. destruct (events s !! r_eventId r); simpl; [|done].
    rewrite (bool_decide_eq_false_2 (_ ∈ ids)) by done.
    by rewrite decide_False. }
  assert (forall b, b ∈ reservations s -> r_eventId b <> r_eventId row ->
            r_eventId b ∉ ids -> r_standId row = r_standId b ->
            eventNotCancelled s b = true -> ~ overlap row b) as Hrow.
  { intros b Hb Hne Hni Hst Hab [Ho1 Ho2]. apply Hni, Hall; [done|].
    apply conflictWhere_true. split_and!; [done | | lia | lia | done].
    simpl. by apply bool_decide_eq_true. }
  intros x y Hx Hy Hne Hst Hax Hay.
  destruct (Hrows x Hx) as [->|(Hx' & Hxr & Hxi)];
    destruct (Hrows y Hy) as [->|(Hy' & Hyr & Hyi)].
  - done.
  - rewrite Hact in Hay by done. by apply Hrow.
  - rewrite Hact in Hax by done. intros Ho%overlap_sym. revert Ho.
    by apply Hrow.
  - rewrite Hact in Hax, Hay by done. by apply Hno.
Qed.

(** The part of the non-overlap invariant that the code keeps: a call that
    does not name the event to bump leads from a store with the unique
    index and without overlaps to a store without overlaps. *)
Lemma exec_nonOverlapping req op s :
  noNamedBump op -> uniqueEventId s -> nonOverlapping s ->
  nonOverlapping (exec req op s).
Proof.
  intros Hop Hu Hno.
  apply nonOverlapping_events; [by apply exec_uniqueEventId|].
  apply nonOverlapping_events in Hno; [|done].
  destruct op as [eventId body|body|body|eventId]; simpl in *.
  - destruct (assignReservation_cases req eventId body s)
      as [(err & ->)|(e & h & Ha)]; [done|].
    rewrite (assignReservation_written _ _ _ _ e h) by done.
    destruct Ha as (He & Hw & Hc & Hl & Hs).
    pose proof (nonOverlappingEvents_committed req "" (assignRow eventId body e)
      (setPointers (mkLayoutSel (ab_layoutId body) h))
      (assignAudit req eventId body (reservationOf s eventId)
         (assignRow eventId body e)) s [] Hu Hno) as Hfin.
    rewrite bumped_nil in Hfin.
    destruct (_ && _); simpl; apply Hfin; try done.
    + intros c Hin Hcw. simpl in Hcw. rewrite Hc in Hcw; done.
    + intros c Hin Hcw. simpl in Hcw. rewrite Hc in Hcw; done.
  - destruct (dndMove_cases req body s) as [(err & ->)|(e & h & Hm)]; [done|].
    destruct Hm as (He & Hl & Hs & Hb).
    rewrite (dndMove_ok _ _ _ e h) by done. simpl fst.
    apply (nonOverlappingEvents_committed req (mb_changeReason body)
             (mkReservation _ _ _ _ _)); try done.
    intros c Hin Hcw. apply list_elem_of_fmap. exists c. split; [done|].
    apply dndConflicts_elem_of. rewrite Hop. done.
  - destruct (dndPlace_cases req body s) as [(err & ->)|(e & h & Hm)]; [done|].
    destruct Hm as (Hw & He & Hl & Hs & Hb).
    rewrite (dndPlace_ok _ _ _ e h) by (done || lia). simpl fst.
    apply (nonOverlappingEvents_committed req (pb_changeReason body)
             (mkReservation _ _ _ _ _)); try done.
    intros c Hin Hcw. apply list_elem_of_fmap. exists c. split; [done|].
    apply dndConflicts_elem_of. rewrite Hop. done.
  - destruct (unassignReservation_store req eventId s) as (He & Hl & Hr).
    assert (forall r, r ∈ reservations (fst (unassignReservation req eventId s))
              -> r ∈ reservations s) as Hsub.
    { intros r Hin. rewrite Hr in Hin.
      destruct (reservationOf s eventId); [|done].
      apply list_elem_of_In, filter_In in Hin as [Hin _].
      by apply list_elem_of_In. }
    intros x y Hx Hy Hne Hst Hax Hay.
    unfold eventNotCancelled in Hax, Hay. rewrite He in Hax, Hay.
    apply Hno; auto.
Qed.

Lemma hangar0_nonOverlapping : nonOverlapping hangar0.
Proof.
  intros i j a b Hi Hj Hne _ _ _ [Ho1 Ho2].
  destruct i as [|[|i]], j as [|[|j]]; simplify_eq/=; lia.
Qed.

(** C1, defect: the small hangar has no overlap on stand X (A in [0,10),
    C in [10,20)).  A dnd-move, and equally a dnd-place, of event E with
    window [5,15) that names A as the event to bump looks only at the row
    of A: it bumps A and commits E on stand X, where the row of C, an
    event that is not cancelled, overlaps it in [10,15).  The query that
    does not name an event finds both rows. *)
Theorem named_bump_commits_overlap :
  let move := mkDndMoveBody idE layoutL standX (Some true) (Some idA) "urgent" in
  let place := mkDndPlaceBody idE layoutL standX 5 15 (Some true) (Some idA) "urgent" in
  let rowA := mkReservation idA layoutL standX 0 10 in
  let rowC := mkReservation idC layoutL standX 10 20 in
  let rowE := mkReservation idE layoutL standX 5 15 in
  let s' := fst (dndMove plannerReq move hangar0) in
  uniqueEventId hangar0 /\ nonOverlapping hangar0 /\
  dndConflicts hangar0 idE standX None 5 15 = [rowA; rowC] /\
  dndConflicts hangar0 idE standX (Some idA) 5 15 = [rowA] /\
  snd (dndMove plannerReq move hangar0) = Ok (rowE, [idA]) /\
  snd (dndPlace plannerReq place hangar0) = Ok (rowE, [idA]) /\
  reservations s' = [rowC; rowE] /\
  reservations (fst (dndPlace plannerReq place hangar0)) = [rowC; rowE] /\
  eventNotCancelled s' rowC = true /\ eventNotCancelled s' rowE = true /\
  overlap rowC rowE /\
  ~ nonOverlapping s' /\
  ~ nonOverlapping (fst (dndPlace plannerReq place hangar0)).
Proof.
  intros move place rowA rowC rowE s'.
  split; [unfold uniqueEventId; apply (bool_decide_unpack _); by vm_compute|].
  split; [apply hangar0_nonOverlapping|].
  do 8 (split; [by vm_compute|]).
  split; [unfold overlap; simpl; lia|].
  split.
  - intros Hno. apply (Hno 0%nat 1%nat rowC rowE); by vm_compute.
  - intros Hno. apply (Hno 0%nat 1%nat rowC rowE); by vm_compute.
Qed.

End NonOverlap.

(** ** Listing reservations *)

Section Listing.

#[local] Instance startAtLe_total : Total startAtLe.
Proof. intros a b. unfold startAtLe. lia. Qed.

Lemma listWhere_true s layoutId from to r :
  listWhere s layoutId from to r = true <->
  r_layoutId r = layoutId /\ r_startAt r < to /\ r_endAt r > from /\
  eventNotCancelled s r = true.
Proof.
  unfold listWhere. rewrite !andb_true_iff, !bool_decide_eq_true. tauto.
Qed.

Lemma listReservations_elem_of now q s r :
  r ∈ merge_sort startAtLe
        (List.filter (listWhere s (lq_layoutId q) (listFrom now q) (listTo now q))
           (reservations s)) <->
  r ∈ reservations s /\
  listWhere s (lq_layoutId q) (listFrom now q) (listTo now q) r = true.
Proof. rewrite merge_sort_Permutation, !list_elem_of_In. apply filter_In. Qed.

(** X1: GET /reservations never changes the store and returns, sorted by
    [startAt], exactly the rows of the layout that overlap the half-open
    window [from, to) and belong to an event that is not CANCELLED, each as
    often as the table has it; without [from] the window starts seven days
    before now, without [to] it ends thirty days after now. *)
Theorem listReservations_window (now : Z) (q : ListQuery) (s : Store) :
  exists l,
    listReservations now q s = (s, Ok l) /\
    (forall r, r ∈ l <->
       r ∈ reservations s /\ r_layoutId r = lq_layoutId q /\
       r_startAt r < listTo now q /\ r_endAt r > listFrom now q /\
       exists e, events s !! r_eventId r = Some e /\ ev_status e <> CANCELLED) /\
    Sorted startAtLe l /\
    l ≡ₚ List.filter
           (listWhere s (lq_layoutId q) (listFrom now q) (listTo now q))
           (reservations s) /\
    (lq_from q = None -> listFrom now q = now - 604800000) /\
    (lq_to q = None -> listTo now q = now + 2592000000) /\
    (forall from, lq_from q = Some from -> listFrom now q = from) /\
    (forall to, lq_to q = Some to -> listTo now q = to).
Proof.
  eexists. split; [reflexivity|]. split_and!.
  - intros r. rewrite listReservations_elem_of, listWhere_true,
      eventNotCancelled_true. tauto.
  - apply Sorted_merge_sort; apply _.
  - apply merge_sort_Permutation.
  - unfold listFrom. by intros ->.
  - unfold listTo. by intros ->.
  - unfold listFrom. by intros from ->.
  - unfold listTo. by intros to ->.
Qed.

(** X2: a row that any conflict query reports for a window is in the
    listing of its layout whenever the listed window contains the window
    of the query: what blocks a placement is visible in the occupancy
    data. *)
Theorem conflict_rows_are_listed (s : Store) (standId : Id) (f : EventFilter)
    (ws we now : Z) (q : ListQuery) (c : StandReservation) :
  c ∈ reservations s ->
  conflictWhere s standId f ws we c = true ->
  r_layoutId c = lq_layoutId q ->
  listFrom now q <= ws -> we <= listTo now q ->
  exists l, listReservations now q s = (s, Ok l) /\ c ∈ l.
Proof.
  intros Hin Hc Hl Hfrom Hto. eexists. split; [reflexivity|].
  apply listReservations_elem_of. split; [done|].
  apply conflictWhere_true in Hc as (_ & _ & Hs & He & Ha).
  apply listWhere_true. split_and!; [done | lia | lia | done].
Qed.

Lemma conflict_rows_are_listed_witness :
  exists l,
    listReservations 0 (mkListQuery layoutL (Some 0) (Some 20)) hangar0 =
      (hangar0, Ok l) /\
    mkReservation idA layoutL standX 0 10 ∈ l.
Proof.
  apply (conflict_rows_are_listed hangar0 standX (NotEvent idE) 5 15).
  - apply (bool_decide_unpack _). by vm_compute.
  - by vm_compute.
  - reflexivity.
  - unfold listFrom; simpl; lia.
  - unfold listTo; simpl; lia.
Defined.

(** X3: listing after a write.  After a DELETE by-event that returns, no
    listing contains a row of the event.  After a PUT that returns for an
    event that is not CANCELLED, every listing of the target layout whose
    window overlaps the window of the returned row contains that row. *)
Theorem listing_follows_writes (req : Request) (eventId : Id) (s : Store) :
  (forall s' n now q l r,
     unassignReservation req eventId s = (s', Ok n) ->
     listReservations now q s' = (s', Ok l) ->
     r ∈ l -> r_eventId r <> eventId) /\
  (forall body s' row e now q,
     assignReservation req eventId body s = (s', Ok row) ->
     events s !! eventId = Some e -> ev_status e <> CANCELLED ->
     lq_layoutId q = ab_layoutId body ->
     r_startAt row < listTo now q -> r_endAt row > listFrom now q ->
     exists l, listReservations now q s' = (s', Ok l) /\ row ∈ l).
Proof.
  split.
  - intros s' n now q l r Hrun [= <-] Hr Heq.
    apply listReservations_elem_of in Hr as [Hr _].
    assert (s' = fst (unassignReservation req eventId s)) as ->
      by by rewrite Hrun.
    destruct (unassignReservation_store req eventId s) as (_ & _ & Hrows).
    rewrite Hrows in Hr.
    destruct (reservationOf s eventId) as [ex|] eqn:Hex.
    + apply list_elem_of_In, filter_In in Hr as [_ Hr].
      by rewrite bool_decide_eq_true_2 in Hr.
    + apply reservationOf_None in Hex. apply Hex.
      apply list_elem_of_fmap. by exists r.
  - intros body s' row e now q Hrun He Hst Hl Hto Hfrom.
    apply assignReservation_Ok_inv in Hrun as (e' & h & Ha & -> & ->).
    destruct Ha as (He' & _). rewrite He in He'. injection He' as <-.
    eexists. split; [reflexivity|].
    apply listReservations_elem_of. split.
    + simpl. remember (assignRow eventId body e) as row.
      clear. induction (reservations s) as [|r0 rs IH]; simpl.
      * apply list_elem_of_here.
      * case_bool_decide; [apply list_elem_of_here |
                           by apply list_elem_of_further].
    + apply listWhere_true. split_and!; [by rewrite Hl | done | done |].
      apply eventNotCancelled_true. simpl.
      rewrite lookup_alter_eq, He. simpl. eexists. split; [done|]. done.
Qed.

Lemma listing_follows_writes_witness :
  exists s' l,
    assignReservation plannerReq idE
      (mkAssignBody layoutL standY None None (Some "first")) hangar0 =
      (s', Ok (mkReservation idE layoutL standY 5 15)) /\
    listReservations 0 (mkListQuery layoutL (Some 0) (Some 20)) s' = (s', Ok l) /\
    mkReservation idE layoutL standY 5 15 ∈ l.
Proof.
  destruct (listing_follows_writes plannerReq idE hangar0) as [_ H].
  set (body := mkAssignBody layoutL standY None None (Some "first")).
  set (s' := fst (assignReservation plannerReq idE body hangar0)).
  assert (assignReservation plannerReq idE body hangar0 =
          (s', Ok (mkReservation idE layoutL standY 5 15))) as Hrun
    by (apply (run_eq (assignReservation plannerReq idE body)); by vm_compute).
  destruct (H body s' _ eventE 0 (mkListQuery layoutL (Some 0) (Some 20)) Hrun)
    as (l & Hl & Hin);
    [by vm_compute | done | done | unfold listTo; simpl; lia
    | unfold listFrom; simpl; lia |].
  exists s', l. split; [exact Hrun|]. split; [exact Hl | exact Hin].
Defined.

End Listing.

(** ** Who may write *)

Section Gates.

Lemma dedupInto_elem_of seen l x :
  x ∈ dedupInto seen l <-> x ∈ l /\ x ∉ seen.
Proof.
  revert seen. induction l as [|y l IH]; intros seen; simpl.
  - rewrite elem_of_nil. tauto.
  - case_bool_decide as Hy.
    + rewrite IH, elem_of_cons. split; [tauto|].
      intros [[->|?] ?]; tauto.
    + rewrite elem_of_cons, IH, !elem_of_cons. split.
      * intros [->|[? ?]]; tauto.
      * intros [[->|?] ?]; [by left|].
        destruct (decide (x = y)) as [->|]; [by left | right; tauto].
Qed.

Lemma dedupInto_NoDup seen l : NoDup (dedupInto seen l).
Proof.
  revert seen. induction l as [|y l IH]; intros seen; simpl.
  - apply NoDup_nil_2.
  - case_bool_decide; [apply IH|]. apply NoDup_cons. split; [|apply IH].
    rewrite dedupInto_elem_of, elem_of_cons. tauto.
Qed.

Lemma elem_of_role_permissions (roles : list Role) p :
  p ∈ concat (map role_permissions roles) <->
  exists role, role ∈ roles /\ p ∈ role_permissions role.
Proof.
  induction roles as [|r roles IH]; simpl.
  - rewrite elem_of_nil. split; [done|]. by intros (? & ?%elem_of_nil & _).
  - rewrite elem_of_app, IH. split.
    + intros [?|(role & ? & ?)].
      * exists r. split; [apply list_elem_of_here | done].
      * exists role. split; [by apply list_elem_of_further | done].
    + intros (role & [->|?]%elem_of_cons & ?); [by left | right; eauto].
Qed.

Lemma loadUser_Some (users : gmap string User) (userId : Id) (auth : Auth) :
  loadUser users userId = Some auth ->
  exists u,
    users !! userId = Some u /\ u_isActive u = true /\
    auth_id auth = userId /\ auth_email auth = u_email u /\
    auth_roles auth = map role_code (u_roles u) /\
    NoDup (auth_permissions auth) /\
    forall p, p ∈ auth_permissions auth <->
      exists role, role ∈ u_roles u /\ p ∈ role_permissions role.
Proof.
  unfold loadUser. destruct (users !! userId) as [u|] eqn:Hu; [|done].
  destruct (u_isActive u) eqn:Hact; simpl; [|done].
  intros [= <-]. exists u. simpl.
  split_and!; try done; [apply dedupInto_NoDup|].
  intros p. rewrite dedupInto_elem_of, elem_of_role_permissions.
  rewrite elem_of_nil. tauto.
Qed.

(** X4: [loadUser] gives nothing for an unknown or inactive user; for an
    active user it gives the id, the email, the codes of the roles and a
    permission list without duplicates that holds exactly the permissions
    of the user's roles. *)
Theorem loadUser_permissions (users : gmap string User) (userId : Id) :
  (loadUser users userId = None <->
     users !! userId = None \/
     exists u, users !! userId = Some u /\ u_isActive u = false) /\
  (forall auth, loadUser users userId = Some auth ->
     exists u,
       users !! userId = Some u /\ u_isActive u = true /\
       auth_id auth = userId /\ auth_email auth = u_email u /\
       auth_roles auth = map role_code (u_roles u) /\
       NoDup (auth_permissions auth) /\
       forall p, p ∈ auth_permissions auth <->
         exists role, role ∈ u_roles u /\ p ∈ role_permissions role).
Proof.
  split; [|apply loadUser_Some].
  unfold loadUser. destruct (users !! userId) as [u|] eqn:Hu.
  - destruct (u_isActive u) eqn:Hact; simpl.
    + split; [done|]. intros [?|(u' & [= <-] & ?)]; congruence.
    + split; [|done]. intros _. right. by exists u.
  - split; [by left | done].
Qed.

(** A run of the theorem above: the planner of [users0], who has
    [events:read] through both roles. *)
Lemma loadUser_permissions_witness :
  let auth := mkAuth idPlanner "planner@example.org" (Some "Planner")
                ["PLANNER"; "VIEWER"] ["events:read"; "events:write"] false in
  exists u,
    users0 !! idPlanner = Some u /\ u_isActive u = true /\
    auth_id auth = idPlanner /\ auth_email auth = u_email u /\
    auth_roles auth = map role_code (u_roles u) /\
    NoDup (auth_permissions auth) /\
    forall p, p ∈ auth_permissions auth <->
      exists role, role ∈ u_roles u /\ p ∈ role_permissions role.
Proof.
  intros auth.
  apply (proj2 (loadUser_permissions users0 idPlanner) auth).
  by vm_compute.
Defined.

Lemma requirePermission_loaded users sub auth headers p :
  loadUser users sub = Some auth ->
  requirePermission (mkHttpRequest (Some auth) headers) p = true <->
  exists u role, users !! sub = Some u /\ role ∈ u_roles u /\
    p ∈ role_permissions role.
Proof.
  intros Hload.
  destruct (loadUser_Some users sub auth Hload) as (u & Hu & _ & _ & _ & _ & _ & Hp).
  unfold requirePermission. simpl. rewrite bool_decide_eq_true, Hp.
  split.
  - intros (role & ? & ?). by exists u, role.
  - intros (u' & role & Hu' & ? & ?). rewrite Hu in Hu'.
    injection Hu' as <-. by exists role.
Qed.

Lemma plannerRole_loaded users sub auth headers :
  loadUser users sub = Some auth ->
  plannerRole (mkHttpRequest (Some auth) headers) = true <->
  exists u role, users !! sub = Some u /\ role ∈ u_roles u /\
    (role_code role = "ADMIN" \/ role_code role = "PLANNER").
Proof.
  intros Hload.
  destruct (loadUser_Some users sub auth Hload) as (u & Hu & _ & _ & _ & Hroles & _).
  unfold plannerRole. simpl. rewrite Hroles.
  rewrite orb_true_iff, !bool_decide_eq_true.
  assert (forall code, code ∈ map role_code (u_roles u) <->
            exists role, role ∈ u_roles u /\ role_code role = code) as Hc.
  { intros code. change (map role_code (u_roles u)) with (role_code <$> u_roles u).
    rewrite list_elem_of_fmap. split; intros (role & ? & ?); by exists role. }
  rewrite !Hc. split.
  - intros [(role & ? & ?)|(role & ? & ?)]; exists u, role; tauto.
  - intros (u' & role & Hu' & ? & Hcode). rewrite Hu in Hu'.
    injection Hu' as <-. destruct Hcode; [left | right]; by exists role.
Qed.

(** X5: a call of one of the four write routes reaches its handler
    exactly when the token is valid, the user exists and is active, one of
    the user's roles has the permission [events:write] and, for the two
    dnd routes, one of the roles is ADMIN or PLANNER; then it runs the
    handler with the user's email as the authenticated email.  Every other
    call leaves the store as it was. *)
Theorem write_routes_gate (users : gmap string User) (tokenSub : option Id)
    (headers : gmap string string) (op : Op) (s : Store) :
  let granted (sub : Id) (u : User) :=
    tokenSub = Some sub /\ users !! sub = Some u /\ u_isActive u = true /\
    (exists role, role ∈ u_roles u /\ "events:write" ∈ role_permissions role) /\
    (needsPlannerRole op = true ->
     exists role, role ∈ u_roles u /\
       (role_code role = "ADMIN" \/ role_code role = "PLANNER")) in
  (forall sub u, granted sub u ->
     apiWrite users tokenSub headers op s =
       exec (mkRequest (Some (u_email u)) headers) op s) /\
  ((forall sub u, ~ granted sub u) ->
     apiWrite users tokenSub headers op s = s).
Proof.
  intros granted. split.
  - intros sub u (-> & Hu & Hact & (role & Hr & Hp) & Hplan).
    assert (exists auth, loadUser users sub = Some auth /\
              auth_email auth = u_email u) as (auth & Hload & Hmail).
    { unfold loadUser. rewrite Hu, Hact. simpl. by eexists. }
    assert (requirePermission (mkHttpRequest (Some auth) headers)
              "events:write" = true) as Hperm.
    { apply (requirePermission_loaded users sub); [done|]. by exists u, role. }
    assert (actorRequest (mkHttpRequest (Some auth) headers) =
            mkRequest (Some (u_email u)) headers) as Hreq.
    { unfold actorRequest. simpl. by rewrite Hmail. }
    destruct op as [eventId body|body|body|eventId];
      unfold apiWrite, apiCall; rewrite Hload;
      unfold routePutByEvent, routeDndMove, routeDndPlace, routeDeleteByEvent,
        assertPermission, assertPlanner, handled;
      rewrite Hperm, ?Hreq; try done.
    + destruct (Hplan eq_refl) as (role' & Hr' & Hcode).
      rewrite (proj2 (plannerRole_loaded users sub auth headers Hload));
        [done|]. by exists u, role'.
    + destruct (Hplan eq_refl) as (role' & Hr' & Hcode).
      rewrite (proj2 (plannerRole_loaded users sub auth headers Hload));
        [done|]. by exists u, role'.
  - intros Hno. unfold apiWrite.
    assert (forall A (route : HttpRequest -> Store -> Store * Reply A),
              (forall auth, loadUser users (default "" tokenSub) = Some auth ->
                 tokenSub <> None ->
                 fst (route (mkHttpRequest (Some auth) headers) s) = s) ->
              fst (apiCall users tokenSub headers route s) = s) as Hcall.
    { intros A route Hroute. unfold apiCall.
      destruct tokenSub as [sub|]; [|done]. simpl in Hroute.
      destruct (loadUser users sub) as [auth|] eqn:Hload; [|done].
      by apply Hroute. }
    assert (forall auth, loadUser users (default "" tokenSub) = Some auth ->
              tokenSub <> None ->
              requirePermission (mkHttpRequest (Some auth) headers)
                "events:write" = true ->
              (needsPlannerRole op = true ->
               plannerRole (mkHttpRequest (Some auth) headers) = true) ->
              False) as Hdeny.
    { intros auth Hload Htok Hperm Hplan.
      destruct tokenSub as [sub|]; [|done]. simpl in Hload.
      destruct (loadUser_Some users sub auth Hload) as (u & Hu & Hact & _).
      apply (Hno sub u). split_and!; try done.
      - apply (requirePermission_loaded users sub auth headers) in Hperm
          as (u' & role & Hu' & ? & ?); [|done].
        rewrite Hu in Hu'. injection Hu' as <-. by exists role.
      - intros Hneed. specialize (Hplan Hneed).
        apply (plannerRole_loaded users sub auth headers) in Hplan
          as (u' & role & Hu' & ? & ?); [|done].
        rewrite Hu in Hu'. injection Hu' as <-. by exists role. }
    destruct op as [eventId body|body|body|eventId]; apply Hcall;
      intros auth Hload Htok;
      unfold routePutByEvent, routeDndMove, routeDndPlace, routeDeleteByEvent,
        assertPermission, assertPlanner;
      destruct (requirePermission _ _) eqn:Hperm; try done;
      try (destruct (plannerRole _) eqn:Hplan; try done);
      exfalso; by eapply Hdeny.
Qed.

(** A run of the theorem above: the planner of [users0] reaches the
    handler of DELETE /by-event. *)
Lemma write_routes_gate_witness :
  apiWrite users0 (Some idPlanner) ∅ (OpUnassign idA) hangar0 =
    exec plannerReq (OpUnassign idA) hangar0.
Proof.
  apply (proj1 (write_routes_gate users0 (Some idPlanner) ∅ (OpUnassign idA)
                  hangar0) idPlanner plannerUser).
  split; [reflexivity|]. split; [by vm_compute|]. split; [reflexivity|].
  split.
  - exists rolePlanner. split; [apply list_elem_of_here|].
    apply (bool_decide_unpack _). by vm_compute.
  - intros _. exists rolePlanner. split; [apply list_elem_of_here | by right].
Defined.






End Gates.

(** ** Lanes of the Gantt view *)

Section Lanes.

Lemma insertRow_Permutation x l : insertRow x l ≡ₚ x :: l.
Proof.
  induction l as [|y l IH]; simpl; [done|].
  case_bool_decide; [done|]. rewrite IH. apply Permutation_swap.
Qed.

Lemma sortRows_Permutation l : sortRows l ≡ₚ l.
Proof.
  induction l as [|x l IH]; simpl; [done|].
  by rewrite insertRow_Permutation, IH.
Qed.

Lemma insertRow_sorted x l :
  StronglySorted startLe l -> StronglySorted startLe (insertRow x l).
Proof.
  induction l as [|y l IH]; simpl; intros Hs.
  - apply StronglySorted_cons. split; [apply Forall_nil_2 | constructor].
  - apply StronglySorted_cons in Hs as [Hy Hl].
    unfold compareRows. case_bool_decide as Hcmp.
    + apply StronglySorted_cons. split.
      * assert (startLe x y) as Hxy.
        { unfold startLe. case_bool_decide; lia. }
        apply Forall_cons. split; [done|].
        eapply Forall_impl; [exact Hy|]. unfold startLe in *. intros; lia.
      * by apply StronglySorted_cons.
    + apply StronglySorted_cons. split; [|by apply IH].
      rewrite insertRow_Permutation. apply Forall_cons. split; [|done].
      unfold startLe. case_bool_decide; lia.
Qed.

Lemma sortRows_sorted l : StronglySorted startLe (sortRows l).
Proof.
  induction l as [|x l IH]; simpl; [constructor | by apply insertRow_sorted].
Qed.

(** What the search of a free lane finds. *)
Lemma pushToFreeLane_Some ev lanes lanes' :
  pushToFreeLane ev lanes = Some lanes' ->
  exists (idx : nat) lane,
    lanes !! idx = Some lane /\
    lane_lastEndMs lane <= er_startAt ev /\
    (forall (j : nat) lane', (j < idx)%nat -> lanes !! j = Some lane' ->
       er_startAt ev < lane_lastEndMs lane') /\
    lanes' = <[idx := mkLane (lane_items lane ++ [mkPlaced ev None])
                        (er_endAt ev)]> lanes.
Proof.
  revert lanes'. induction lanes as [|l rest IH]; simpl; intros lanes' H;
    [done|].
  case_bool_decide as Hfree.
  - injection H as <-. exists 0%nat, l. split_and!; try done.
    intros j lane' Hj. lia.
  - destruct (pushToFreeLane ev rest) as [rest'|]; [|done].
    injection H as <-.
    destruct (IH rest' eq_refl) as (idx & lane & Hl & Hle & Hbefore & ->).
    exists (S idx), lane. split_and!; try done.
    intros [|j] lane' Hj Hlook; simpl in Hlook.
    + injection Hlook as <-. lia.
    + apply (Hbefore j); [lia | done].
Qed.

Lemma pushToFreeLane_None ev lanes :
  pushToFreeLane ev lanes = None ->
  forall lane, lane ∈ lanes -> er_startAt ev < lane_lastEndMs lane.
Proof.
  induction lanes as [|l rest IH]; simpl; intros H lane Hin.
  - by apply elem_of_nil in Hin.
  - case_bool_decide as Hfree; [done|].
    destruct (pushToFreeLane ev rest); [done|].
    apply elem_of_cons in Hin as [->|Hin]; [lia | by apply IH].
Qed.

Lemma maxLastEndMs_max l rest :
  (exists lane, lane ∈ l :: rest /\ maxLastEndMs l rest = lane_lastEndMs lane) /\
  (forall lane, lane ∈ l :: rest -> lane_lastEndMs lane <= maxLastEndMs l rest).
Proof.
  unfold maxLastEndMs. revert l.
  induction rest as [|r rest IH]; intros l; simpl.
  - split.
    + exists l. split; [apply list_elem_of_here | done].
    + intros lane ->%list_elem_of_singleton. lia.
  - assert (forall z, z = lane_lastEndMs (mkLane [] z)) as Hz by done.
    rewrite (Hz (Z.max _ _)).
    destruct (IH (mkLane [] (Z.max (lane_lastEndMs l) (lane_lastEndMs r))))
      as [(lane & Hin & Hmax) Hall].
    split.
    + apply elem_of_cons in Hin as [->|Hin].
      * rewrite Hmax. simpl.
        destruct (Z.max_spec (lane_lastEndMs l) (lane_lastEndMs r))
          as [[_ Hm]|[_ Hm]].
        -- exists r. split; [|done].
           apply list_elem_of_further, list_elem_of_here.
        -- exists l. split; [apply list_elem_of_here | done].
      * exists lane. split; [|done]. by do 2 apply list_elem_of_further.
    + intros lane0 Hlane.
      assert (Z.max (lane_lastEndMs l) (lane_lastEndMs r) <=
              foldl Z.max (lane_lastEndMs
                (mkLane [] (Z.max (lane_lastEndMs l) (lane_lastEndMs r))))
                (map lane_lastEndMs rest)) as Hm.
      { apply (Hall (mkLane [] _)). apply list_elem_of_here. }
      simpl in Hm. simpl.
      apply elem_of_cons in Hlane as [->|Hlane]; [lia|].
      apply elem_of_cons in Hlane as [->|Hlane]; [lia|].
      apply (Hall lane0). by apply list_elem_of_further.
Qed.

Lemma lanesOk_nil : lanesOk [].
Proof.
  split.
  - by intros lane ?%elem_of_nil.
  - by intros lane ?%elem_of_nil.
  - intros k j lane lane' p H. by rewrite lookup_nil in H.
  - intros k i lane p H. by rewrite lookup_nil in H.
Qed.

(** The last item of a lane that is not free is running. *)
Lemma busy_lane_runs lanes lane ev o :
  lanesOk lanes ->
  (forall lane p, lane ∈ lanes -> p ∈ lane_items lane ->
     er_startAt (pe_ev p) <= er_startAt ev) ->
  lane ∈ lanes -> er_startAt ev < lane_lastEndMs lane ->
  exists q, q ∈ lane_items lane /\ runningAtStartOf (mkPlaced ev o) q.
Proof.
  intros Hok Hbound Hin Hbusy.
  destruct (ok_last _ Hok lane Hin) as (items & q & Hitems & Hend).
  assert (q ∈ lane_items lane) as Hq.
  { rewrite Hitems, elem_of_app, list_elem_of_singleton. by right. }
  exists q. split; [done|]. split; simpl.
  - by apply (Hbound lane).
  - by rewrite <- Hend.
Qed.

Lemma placeInLanes_items lanes ev lane p :
  lane ∈ placeInLanes lanes ev -> p ∈ lane_items lane ->
  pe_ev p = ev \/ exists lane0, lane0 ∈ lanes /\ p ∈ lane_items lane0.
Proof.
  unfold placeInLanes. destruct lanes as [|l rest].
  - intros ->%list_elem_of_singleton. simpl.
    intros ->%list_elem_of_singleton. by left.
  - destruct (pushToFreeLane ev (l :: rest)) as [lanes'|] eqn:Hpush.
    + apply pushToFreeLane_Some in Hpush
        as (idx & lane0 & Hl0 & _ & _ & ->).
      intros (k & Hk)%list_elem_of_lookup Hp.
      apply list_lookup_insert_Some in Hk as [(<- & <- & _)|[_ Hk]].
      * simpl in Hp. apply elem_of_app in Hp as [Hp|Hp].
        -- right. exists lane0. split; [|done].
           apply list_elem_of_lookup. by exists idx.
        -- apply list_elem_of_singleton in Hp as ->. by left.
      * right. exists lane. split; [|done].
        apply list_elem_of_lookup. by exists k.
    + intros [Hin|Hin]%elem_of_app Hp.
      * right. by exists lane.
      * apply list_elem_of_singleton in Hin as ->. simpl in Hp.
        apply list_elem_of_singleton in Hp as ->. by left.
Qed.

Lemma placeInLanes_ok lanes ev :
  lanesOk lanes ->
  (forall lane p, lane ∈ lanes -> p ∈ lane_items lane ->
     er_startAt (pe_ev p) <= er_startAt ev) ->
  lanesOk (placeInLanes lanes ev).
Proof.
  intros Hok Hbound. unfold placeInLanes.
  destruct lanes as [|l rest].
  { split.
    - intros lane ->%list_elem_of_singleton. by exists [], (mkPlaced ev None).
    - intros lane ->%list_elem_of_singleton. simpl.
      apply StronglySorted_cons. split; [apply Forall_nil_2 | constructor].
    - intros k j lane lane' p Hk Hj Hlt.
      apply list_lookup_singleton_Some in Hk as [-> _]. lia.
    - intros k i lane p Hk Hi.
      apply list_lookup_singleton_Some in Hk as [-> <-]. simpl in Hi.
      apply list_lookup_singleton_Some in Hi as [-> <-]. simpl. by left. }
  set (lanes := l :: rest) in *.
  destruct (pushToFreeLane ev lanes) as [lanes'|] eqn:Hpush.
  - apply pushToFreeLane_Some in Hpush
      as (idx & lane0 & Hl0 & Hfree & Hbefore & ->).
    assert (lane0 ∈ lanes) as Hin0
      by (apply list_elem_of_lookup; by exists idx).
    destruct (ok_last _ Hok lane0 Hin0) as (items0 & p0 & Hitems0 & Hend0).
    split.
    + intros lane (k & Hk)%list_elem_of_lookup.
      apply list_lookup_insert_Some in Hk as [(<- & <- & _)|[_ Hk]].
      * by exists (lane_items lane0), (mkPlaced ev None).
      * apply (ok_last _ Hok). apply list_elem_of_lookup. by exists k.
    + intros lane (k & Hk)%list_elem_of_lookup.
      apply list_lookup_insert_Some in Hk as [(<- & <- & _)|[_ Hk]].
      * simpl. apply StronglySorted_app_2.
        -- intros x1 x2 Hx1 ->%list_elem_of_singleton. simpl.
           pose proof (ok_chain _ Hok lane0 Hin0) as Hchain.
           rewrite Hitems0 in Hx1, Hchain.
           apply elem_of_app in Hx1 as [Hx1|Hx1].
           ++ assert (er_endAt (pe_ev x1) <= er_startAt (pe_ev p0)) as Hx.
              { apply (StronglySorted_app_1_elem_of _ _ _ _ _ Hchain Hx1).
                apply list_elem_of_here. }
              assert (er_startAt (pe_ev p0) <= er_startAt ev).
              { apply (Hbound lane0); [done|]. rewrite Hitems0.
                apply elem_of_app. right. apply list_elem_of_here. }
              lia.
           ++ apply list_elem_of_singleton in Hx1 as ->. lia.
        -- by apply (ok_chain _ Hok).
        -- apply StronglySorted_cons. split; [apply Forall_nil_2 | constructor].
      * apply (ok_chain _ Hok). apply list_elem_of_lookup. by exists k.
    + intros k j lane lane' p Hk Hj Hlt Hp.
      assert (exists lane1, lanes !! j = Some lane1 /\
                forall q, q ∈ lane_items lane1 -> q ∈ lane_items lane')
        as (lane1 & Hj1 & Hsub).
      { apply list_lookup_insert_Some in Hj as [(<- & <- & _)|[_ Hj]].
        - exists lane0. split; [done|]. intros q Hq. simpl.
          apply elem_of_app. by left.
        - by exists lane'. }
      assert (forall lane2, lanes !! k = Some lane2 -> p ∈ lane_items lane2 ->
                exists q, q ∈ lane_items lane' /\ runningAtStartOf p q) as Hold.
      { intros lane2 Hk2 Hp2.
        destruct (ok_fit _ Hok k j lane2 lane1 p Hk2 Hj1 Hlt Hp2)
          as (q & Hq & Hrun).
        exists q. split; [by apply Hsub | done]. }
      apply list_lookup_insert_Some in Hk as [(<- & <- & _)|[_ Hk]];
        [|by apply (Hold lane)].
      simpl in Hp. apply elem_of_app in Hp as [Hp|Hp]; [by apply (Hold lane0)|].
      apply list_elem_of_singleton in Hp as ->.
      destruct (busy_lane_runs lanes lane1 ev None Hok Hbound)
        as (q & Hq & Hrun).
      { apply list_elem_of_lookup. by exists j. }
      { by apply (Hbefore j). }
      exists q. split; [by apply Hsub | done].
    + intros k i lane p Hk Hi.
      assert (forall lane2, lanes !! k = Some lane2 ->
                lane_items lane2 !! i = Some p ->
                match pe_overlapToMs p with
                | None => k = 0%nat \/ i <> 0%nat
                | Some t =>
                    k <> 0%nat /\ i = 0%nat /\ t <= er_endAt (pe_ev p) /\
                    (er_startAt (pe_ev p) < er_endAt (pe_ev p) ->
                     er_startAt (pe_ev p) < t) /\
                    exists (j : nat) lane' q,
                      (j < k)%nat /\
                      <[idx := mkLane (lane_items lane0 ++ [mkPlaced ev None])
                                 (er_endAt ev)]> lanes !! j = Some lane' /\
                      q ∈ lane_items lane' /\
                      er_startAt (pe_ev q) <= er_startAt (pe_ev p) /\
                      t <= er_endAt (pe_ev q)
                end) as Hold.
      { intros lane2 Hk2 Hi2.
        pose proof (ok_mark _ Hok k i lane2 p Hk2 Hi2) as Hm.
        destruct (pe_overlapToMs p) as [t|]; [|done].
        destruct Hm as (? & ? & ? & ? & j & lane' & q & Hlt & Hj & Hq & ? & ?).
        split_and!; try done.
        destruct (decide (idx = j)) as [<-|Hne].
        - rewrite Hl0 in Hj. injection Hj as <-.
          eexists idx, _, q. split; [done|]. split.
          + apply list_lookup_insert_eq. by apply lookup_lt_Some in Hl0.
          + split_and!; try done. simpl. apply elem_of_app. by left.
        - exists j, lane', q. split; [done|]. split; [|done].
          by rewrite list_lookup_insert_ne. }
      apply list_lookup_insert_Some in Hk as [(<- & <- & _)|[_ Hk]];
        [|by apply (Hold lane)].
      simpl in Hi. apply lookup_app_Some in Hi as [Hi|[Hlen Hi]];
        [by apply (Hold lane0)|].
      apply list_lookup_singleton_Some in Hi as [_ <-]. simpl. right.
      rewrite Hitems0, length_app in Hlen. simpl in Hlen. lia.
  - pose proof (pushToFreeLane_None ev lanes Hpush) as Hbusy.
    destruct (maxLastEndMs_max l rest) as [(lmax & Hlmax & Hmax) Hle].
    fold lanes in Hlmax, Hle.
    set (t := Z.min (er_endAt ev) (maxLastEndMs l rest)).
    assert (length lanes <> 0%nat) as Hlen by done.
    split.
    + intros lane [Hin|Hin]%elem_of_app; [by apply (ok_last _ Hok)|].
      apply list_elem_of_singleton in Hin as ->.
      by exists [], (mkPlaced ev (Some t)).
    + intros lane [Hin|Hin]%elem_of_app; [by apply (ok_chain _ Hok)|].
      apply list_elem_of_singleton in Hin as ->. simpl.
      apply StronglySorted_cons. split; [apply Forall_nil_2 | constructor].
    + intros k j lane lane' p Hk Hj Hlt Hp.
      apply lookup_app_Some in Hk as [Hk|[Hge Hk]].
      * rewrite lookup_app_l in Hj
          by (apply lookup_lt_Some in Hk; lia).
        by apply (ok_fit _ Hok k j lane lane' p).
      * apply list_lookup_singleton_Some in Hk as [Hk <-].
        simpl in Hp. apply list_elem_of_singleton in Hp as ->.
        rewrite lookup_app_l in Hj by lia.
        apply (busy_lane_runs lanes lane' ev (Some t) Hok Hbound).
        -- apply list_elem_of_lookup. by exists j.
        -- apply Hbusy. apply list_elem_of_lookup. by exists j.
    + intros k i lane p Hk Hi.
      apply lookup_app_Some in Hk as [Hk|[Hge Hk]].
      * pose proof (ok_mark _ Hok k i lane p Hk Hi) as Hm.
        destruct (pe_overlapToMs p) as [t'|]; [|done].
        destruct Hm as (? & ? & ? & ? & j & lane' & q & Hlt & Hj & Hq & ? & ?).
        split_and!; try done. exists j, lane', q.
        split; [done|]. split; [|done].
        rewrite lookup_app_l; [done|]. by apply lookup_lt_Some in Hj.
      * apply list_lookup_singleton_Some in Hk as [Hk <-].
        simpl in Hi. apply list_lookup_singleton_Some in Hi as [-> <-].
        simpl. split; [lia|]. split; [done|]. split; [unfold t; lia|].
        pose proof (Hbusy lmax Hlmax) as Hb.
        split; [unfold t; lia|].
        apply list_elem_of_lookup in Hlmax as (j & Hj).
        destruct (ok_last _ Hok lmax) as (items & q & Hitems & Hend).
        { apply list_elem_of_lookup. by exists j. }
        assert (q ∈ lane_items lmax) as Hq.
        { rewrite Hitems, elem_of_app, list_elem_of_singleton. by right. }
        exists j, lmax, q. split; [apply lookup_lt_Some in Hj; lia|].
        split; [exact (lookup_app_l_Some lanes _ j lmax Hj)|].
        split; [done|]. split.
        -- apply (Hbound lmax); [|done]. apply list_elem_of_lookup. by exists j.
        -- unfold t. rewrite <- Hend, <- Hmax. lia.
Qed.

Lemma foldl_placeInLanes_ok evs lanes :
  lanesOk lanes -> StronglySorted startLe evs ->
  (forall lane p e, lane ∈ lanes -> p ∈ lane_items lane -> e ∈ evs ->
     startLe (pe_ev p) e) ->
  lanesOk (foldl placeInLanes lanes evs).
Proof.
  revert lanes. induction evs as [|ev evs IH]; intros lanes Hok Hs Hbound;
    simpl; [done|].
  apply StronglySorted_cons in Hs as [Hev Hs].
  apply IH; [|done|].
  - apply placeInLanes_ok; [done|]. intros lane p Hl Hp.
    apply (Hbound lane p ev Hl Hp). apply list_elem_of_here.
  - intros lane p e Hl Hp He.
    destruct (placeInLanes_items lanes ev lane p Hl Hp)
      as [Heq|(lane0 & Hl0 & Hp0)].
    + rewrite Heq. by apply (proj1 (Forall_forall _ _) Hev).
    + apply (Hbound lane0 p e Hl0 Hp0). by apply list_elem_of_further.
Qed.

Lemma packed_lanesOk events :
  lanesOk (foldl placeInLanes [] (sortRows events)).
Proof.
  apply foldl_placeInLanes_ok;
    [apply lanesOk_nil | apply sortRows_sorted |].
  by intros lane p e ?%elem_of_nil.
Qed.

Lemma placeInLanes_Permutation lanes ev :
  concat (map (map pe_ev) (map lane_items (placeInLanes lanes ev))) ≡ₚ
  ev :: concat (map (map pe_ev) (map lane_items lanes)).
Proof.
  unfold placeInLanes. destruct lanes as [|l rest]; [done|].
  destruct (pushToFreeLane ev (l :: rest)) as [lanes'|] eqn:Hpush.
  - revert lanes' Hpush. generalize (l :: rest). clear.
    induction l as [|l rest IH]; simpl; intros lanes' H; [done|].
    case_bool_decide.
    + injection H as <-. simpl. rewrite map_app. simpl.
      rewrite <- app_assoc. simpl.
      by rewrite <- Permutation_middle.
    + destruct (pushToFreeLane ev rest) as [rest'|]; [|done].
      injection H as <-. simpl. rewrite (IH rest' eq_refl).
      by rewrite <- Permutation_middle.
  - rewrite !map_app, concat_app. simpl.
    by rewrite <- Permutation_cons_append.
Qed.

Lemma foldl_placeInLanes_Permutation evs lanes :
  concat (map (map pe_ev) (map lane_items (foldl placeInLanes lanes evs))) ≡ₚ
  concat (map (map pe_ev) (map lane_items lanes)) ++ evs.
Proof.
  revert lanes. induction evs as [|ev evs IH]; intros lanes; simpl.
  - by rewrite app_nil_r.
  - rewrite IH, placeInLanes_Permutation.
    by rewrite <- Permutation_middle.
Qed.

Lemma StronglySorted_lookup {A} (R : relation A) (l : list A) (i j : nat) x y :
  StronglySorted R l -> l !! i = Some x -> l !! j = Some y -> (i < j)%nat ->
  R x y.
Proof.
  intros Hs Hi Hj Hlt. rewrite <- (take_drop j l) in Hs.
  apply (StronglySorted_app_1_elem_of _ _ _ _ _ Hs).
  - apply list_elem_of_lookup. exists i. by rewrite lookup_take_lt.
  - apply list_elem_of_lookup. exists 0%nat.
    by rewrite lookup_drop, Nat.add_0_r.
Qed.

Lemma packed_lookup events (k : nat) items :
  packOverlapsIntoLanes events !! k = Some items ->
  exists lane, foldl placeInLanes [] (sortRows events) !! k = Some lane /\
    items = lane_items lane.
Proof.
  unfold packOverlapsIntoLanes.
  change (map lane_items ?l) with (lane_items <$> l).
  rewrite list_lookup_fmap. intros H.
  destruct (_ !! k) as [lane|]; [|done]. injection H as <-. by exists lane.
Qed.

(** X7: every event of the row is in exactly one lane (the lanes together
    hold the events of the input, each as often as the input has it), no
    lane is empty, and there is no lane only when there is no event. *)
Theorem lanes_hold_every_event_once (events : list EventRow) :
  laneEvents (packOverlapsIntoLanes events) ≡ₚ events /\
  Forall (fun lane => lane <> []) (packOverlapsIntoLanes events) /\
  (packOverlapsIntoLanes events = [] <-> events = []).
Proof.
  assert (laneEvents (packOverlapsIntoLanes events) ≡ₚ events) as Hperm.
  { unfold laneEvents, packOverlapsIntoLanes.
    rewrite foldl_placeInLanes_Permutation. simpl.
    apply sortRows_Permutation. }
  split; [done|]. split.
  - apply Forall_forall. intros items (k & Hk)%list_elem_of_lookup.
    apply packed_lookup in Hk as (lane & Hk & ->).
    destruct (ok_last _ (packed_lanesOk events) lane)
      as (its & p & -> & _).
    + apply list_elem_of_lookup. by exists k.
    + by destruct its.
  - split.
    + intros Hnil. rewrite Hnil in Hperm. symmetry.
      by apply Permutation_nil_l.
    + by intros ->.
Qed.

(** X8: the events of one lane do not overlap: an event of a lane ends
    before (or when) every event after it in the lane starts. *)
Theorem lane_events_do_not_overlap (events : list EventRow)
    (lane : list PlacedEvent) (i j : nat) (p q : PlacedEvent) :
  lane ∈ packOverlapsIntoLanes events ->
  lane !! i = Some p -> lane !! j = Some q -> (i < j)%nat ->
  er_endAt (pe_ev p) <= er_startAt (pe_ev q).
Proof.
  intros (k & Hk)%list_elem_of_lookup Hi Hj Hlt.
  apply packed_lookup in Hk as (l & Hk & ->).
  apply (StronglySorted_lookup
           (fun p q => er_endAt (pe_ev p) <= er_startAt (pe_ev q))
           (lane_items l) i j p q); try done.
  apply (ok_chain _ (packed_lanesOk events)).
  apply list_elem_of_lookup. by exists k.
Qed.

Lemma lane_events_do_not_overlap_witness :
  er_endAt (mkEventRow "a0000000-0000-4000-8000-000000000002" 0 10 noAircraft)
  <= er_startAt
       (mkEventRow "c0000000-0000-4000-8000-000000000003" 10 20 noAircraft).
Proof.
  apply (lane_events_do_not_overlap rowEvents
           [mkPlaced (mkEventRow "a0000000-0000-4000-8000-000000000002" 0 10
                        noAircraft) None;
            mkPlaced (mkEventRow "c0000000-0000-4000-8000-000000000003" 10 20
                        noAircraft) None]
           0 1 (mkPlaced _ None) (mkPlaced _ None)).
  - vm_compute. apply list_elem_of_here.
  - reflexivity.
  - reflexivity.
  - lia.
Defined.

(** X9: a lane below another is used only when it is needed: when an
    event is drawn in a lane, each lane before that one holds an event
    that started no later and is still running when the event starts. *)
Theorem lane_opened_only_when_needed (events : list EventRow) (k j : nat)
    (lane lane' : list PlacedEvent) (p : PlacedEvent) :
  packOverlapsIntoLanes events !! k = Some lane ->
  packOverlapsIntoLanes events !! j = Some lane' ->
  (j < k)%nat -> p ∈ lane ->
  exists q, q ∈ lane' /\ runningAtStartOf p q.
Proof.
  intros Hk Hj Hlt Hp.
  apply packed_lookup in Hk as (l & Hk & ->).
  apply packed_lookup in Hj as (l' & Hj & ->).
  by apply (ok_fit _ (packed_lanesOk events) k j l l' p).
Qed.

Lemma lane_opened_only_when_needed_witness :
  exists q,
    q ∈ [mkPlaced (mkEventRow "a0000000-0000-4000-8000-000000000002" 0 10
                     noAircraft) None;
         mkPlaced (mkEventRow "c0000000-0000-4000-8000-000000000003" 10 20
                     noAircraft) None] /\
    runningAtStartOf
      (mkPlaced (mkEventRow "e0000000-0000-4000-8000-000000000001" 5 15
                   noAircraft) (Some 10)) q.
Proof.
  apply (lane_opened_only_when_needed rowEvents 1 0
           [mkPlaced (mkEventRow "e0000000-0000-4000-8000-000000000001" 5 15
                        noAircraft) (Some 10)]).
  - reflexivity.
  - reflexivity.
  - lia.
  - apply list_elem_of_here.
Defined.

(** X10: the mark of an overlap.  [overlapToMs] is set exactly on the
    first event of each lane after the first.  Where it is set to [t],
    [t] is not after the end of the event, it is after its start when the
    event has a duration, and an event of an earlier lane that started no
    later runs at least until [t]: the marked stretch from the start of
    the event to [t] lies in both windows. *)
Theorem overlap_mark_is_an_overlap (events : list EventRow) (k i : nat)
    (lane : list PlacedEvent) (p : PlacedEvent) :
  packOverlapsIntoLanes events !! k = Some lane -> lane !! i = Some p ->
  (pe_overlapToMs p = None <-> k = 0%nat \/ i <> 0%nat) /\
  (forall t, pe_overlapToMs p = Some t ->
     t <= er_endAt (pe_ev p) /\
     (er_startAt (pe_ev p) < er_endAt (pe_ev p) -> er_startAt (pe_ev p) < t) /\
     exists (j : nat) lane' q,
       (j < k)%nat /\ packOverlapsIntoLanes events !! j = Some lane' /\
       q ∈ lane' /\ er_startAt (pe_ev q) <= er_startAt (pe_ev p) /\
       t <= er_endAt (pe_ev q)).
Proof.
  intros Hk Hi. apply packed_lookup in Hk as (l & Hk & ->).
  pose proof (ok_mark _ (packed_lanesOk events) k i l p Hk Hi) as Hm.
  destruct (pe_overlapToMs p) as [t|].
  - destruct Hm as (Hk0 & Hi0 & Hle & Hlt & j & l' & q & Hj & Hl' & Hq & Hs & He).
    split; [split; [done | lia]|].
    intros t' [= <-]. split_and!; try done.
    exists j, (lane_items l'), q. split_and!; try done.
    unfold packOverlapsIntoLanes.
    change (map lane_items ?x) with (lane_items <$> x).
    by rewrite list_lookup_fmap, Hl'.
  - split; [done|]. by intros t.
Qed.

Lemma overlap_mark_is_an_overlap_witness :
  (Some 10 = None <-> 1%nat = 0%nat \/ 0%nat <> 0%nat) /\
  (forall t, Some 10 = Some t ->
     t <= 15 /\ (5 < 15 -> 5 < t) /\
     exists (j : nat) lane' q,
       (j < 1)%nat /\ packOverlapsIntoLanes rowEvents !! j = Some lane' /\
       q ∈ lane' /\ er_startAt (pe_ev q) <= 5 /\ t <= er_endAt (pe_ev q)).
Proof.
  apply (overlap_mark_is_an_overlap rowEvents 1 0
           [mkPlaced (mkEventRow "e0000000-0000-4000-8000-000000000001" 5 15
                        noAircraft) (Some 10)]
           (mkPlaced (mkEventRow "e0000000-0000-4000-8000-000000000001" 5 15
                        noAircraft) (Some 10))).
  - reflexivity.
  - reflexivity.
Defined.

Lemma toInt32_range z : - 2 ^ 31 <= toInt32 z < 2 ^ 31.
Proof.
  unfold toInt32.
  pose proof (Z.mod_pos_bound (z + 2 ^ 31) (2 ^ 32) ltac:(lia)). lia.
Qed.

Lemma hashLoop_range h s :
  - 2 ^ 31 <= h < 2 ^ 31 -> - 2 ^ 31 <= hashLoop h s < 2 ^ 31.
Proof.
  revert h. induction s as [|c s IH]; intros h Hh; simpl; [done|].
  apply IH, toInt32_range.
Qed.

Lemma hashToIndex_bounds s modulus :
  0 < modulus -> 0 <= hashToIndex s modulus < modulus.
Proof.
  intros Hmod. unfold hashToIndex.
  rewrite bool_decide_eq_false_2 by lia.
  apply Z.rem_bound_pos; lia.
Qed.

Lemma truthy_true (c : string) : truthy c = true <-> c <> "".
Proof. by destruct c. Qed.

Lemma truthy_false (c : string) : truthy c = false <-> c = "".
Proof. by destruct c. Qed.

(** X11: the colour mark of an event.  The hash of a key stays a 32-bit
    signed integer at every step ([x | 0] is the value in that range that
    differs from [x] by a multiple of 2^32), and [hashToIndex] is the
    absolute value of the hash modulo [mod], an index from 0 to [mod - 1],
    for a positive [mod], and 0 otherwise.  [aircraftTypeMarkColor] gives
    the grey mark when the event has neither operator nor type; else the
    entry of the reference palette for the key [operator|type] when there
    is one and it is not the empty string; else the colour of the fixed
    palette at the index [hashToIndex key 10], which always exists. *)
Theorem aircraftTypeMarkColor_defined (ev : EventRow)
    (palette : option (gmap string string)) (s : string) (modulus : Z) :
  let opId := default "" (orElse (ac_operatorId (er_aircraft ev))
                            (ac_operator (er_aircraft ev))) in
  let typeId := default "" (orElse (ac_typeId (er_aircraft ev))
                              (ac_type (er_aircraft ev))) in
  let key := opId +:+ "|" +:+ typeId in
  let fromRef := palette ≫= (fun m => m !! key) in
  - 2 ^ 31 <= hashLoop 0 s < 2 ^ 31 /\
  (forall z, - 2 ^ 31 <= toInt32 z < 2 ^ 31 /\
     (toInt32 z - z) mod 2 ^ 32 = 0) /\
  (0 < modulus ->
   hashToIndex s modulus = Z.abs (hashLoop 0 s) mod modulus /\
   0 <= hashToIndex s modulus < modulus) /\
  (modulus <= 0 -> hashToIndex s modulus = 0) /\
  (opId = "" -> typeId = "" ->
   aircraftTypeMarkColor ev palette = Some "rgba(15, 23, 42, 0.22)") /\
  (forall c, opId <> "" \/ typeId <> "" -> fromRef = Some c -> c <> "" ->
     aircraftTypeMarkColor ev palette = Some c) /\
  (opId <> "" \/ typeId <> "" -> fromRef = None \/ fromRef = Some "" ->
   exists c,
     AIRCRAFT_MARK_PALETTE !! Z.to_nat (hashToIndex key 10) = Some c /\
     aircraftTypeMarkColor ev palette = Some c).
Proof.
  intros opId typeId key fromRef.
  assert (opId <> "" \/ typeId <> "" ->
          negb (truthy opId) && negb (truthy typeId) = false) as Hsome.
  { intros [H|H]; apply truthy_true in H; rewrite H; simpl; [done|].
    by rewrite andb_false_r. }
  split; [apply hashLoop_range; lia|].
  split.
  { intros z. split; [apply toInt32_range|]. unfold toInt32.
    replace ((z + 2 ^ 31) mod 2 ^ 32 - 2 ^ 31 - z)
      with ((z + 2 ^ 31) mod 2 ^ 32 - (z + 2 ^ 31)) by lia.
    rewrite Zminus_mod, Z.mod_mod by lia. rewrite Z.sub_diag. done. }
  split.
  { intros Hmod. split; [|by apply hashToIndex_bounds].
    unfold hashToIndex. rewrite bool_decide_eq_false_2 by lia.
    apply Z.rem_mod_nonneg; lia. }
  split; [intros Hmod; unfold hashToIndex; by rewrite bool_decide_eq_true_2|].
  split.
  { intros Hop Htype. unfold aircraftTypeMarkColor. fold opId typeId.
    by rewrite Hop, Htype. }
  split.
  { intros c Hid Href Hc. unfold aircraftTypeMarkColor.
    fold opId typeId. rewrite (Hsome Hid). fold key fromRef.
    rewrite Href. by rewrite (proj2 (truthy_true c) Hc). }
  intros Hid Href.
  pose proof (hashToIndex_bounds key 10 ltac:(lia)) as Hb.
  destruct (lookup_lt_is_Some_2 AIRCRAFT_MARK_PALETTE
              (Z.to_nat (hashToIndex key 10))) as [c Hc]; [simpl; lia|].
  exists c. split; [done|]. unfold aircraftTypeMarkColor.
  fold opId typeId. rewrite (Hsome Hid). fold key fromRef.
  destruct Href as [->| ->]; exact Hc.
Qed.

(** A run of the theorem above: an event of an operator, without a
    reference palette, gets a colour of the fixed palette. *)
Lemma aircraftTypeMarkColor_defined_witness :
  let ev := mkEventRow idE 5 15
              (mkAircraftRef (Some "40000000-0000-4000-8000-000000000001")
                 None None None) in
  exists c,
    AIRCRAFT_MARK_PALETTE
      !! Z.to_nat (hashToIndex "40000000-0000-4000-8000-000000000001|" 10) =
      Some c /\
    aircraftTypeMarkColor ev None = Some c.
Proof.
  intros ev.
  apply (proj2 (proj2 (proj2 (proj2 (proj2 (proj2
           (aircraftTypeMarkColor_defined ev None "" 10))))))).
  - left. discriminate.
  - by left.
Defined.

Lemma aircraftPaletteMap_foldl rows (m : gmap string string) key :
  foldl (fun m r =>
           if negb (pr_isActive r) then m
           else if bool_decide (is_Some (m !! paletteKey r)) then m
           else <[paletteKey r := pr_color r]> m) m rows !! key =
  match m !! key with
  | Some c => Some c
  | None =>
      pr_color <$>
      List.find (fun r => pr_isActive r && bool_decide (paletteKey r = key)) rows
  end.
Proof.
  revert m. induction rows as [|r rows IH]; intros m; simpl.
  - by destruct (m !! key).
  - rewrite IH. destruct (pr_isActive r); simpl; [|done].
    case_bool_decide as Hhas.
    + case_bool_decide as Hkey; [|done].
      rewrite Hkey in Hhas. by destruct Hhas as [c ->].
    + case_bool_decide as Hkey.
      * rewrite Hkey, lookup_insert_eq. rewrite Hkey in Hhas.
        destruct (m !! key) as [c|] eqn:Hm; [|done].
        exfalso. apply Hhas. by exists c.
      * by rewrite lookup_insert_ne.
Qed.

(** X12: the reference palette gives a key the colour of the first active
    row of that operator and aircraft type; rows that are not active and
    later rows of the same key do not count. *)
Theorem aircraftPaletteMap_first_active (rows : list AircraftTypePaletteRow)
    (key : string) :
  aircraftPaletteMap rows !! key =
    pr_color <$>
    List.find (fun r => pr_isActive r && bool_decide (paletteKey r = key)) rows.
Proof.
  unfold aircraftPaletteMap. by rewrite aircraftPaletteMap_foldl, lookup_empty.
Qed.

End Lanes.

(** ** The occupancy shown by the hangar view *)

Section Occupancy.

Lemma occupancy_foldl (res : list StandReservation)
    (m : gmap Id (list StandReservation)) (standId : Id) :
  default []
    (foldl (fun map r =>
              let arr := default [] (map !! r_standId r) in
              <[r_standId r := arr ++ [r]]> map) m res !! standId) =
  default [] (m !! standId) ++
  List.filter (fun r => bool_decide (r_standId r = standId)) res.
Proof.
  revert m. induction res as [|r res IH]; intros m; simpl.
  - by rewrite app_nil_r.
  - rewrite IH. case_bool_decide as Hr.
    + rewrite Hr, lookup_insert_eq. simpl. by rewrite <- app_assoc.
    + by rewrite lookup_insert_ne.
Qed.

Lemma occupancyByStand_none (res : list StandReservation) (standId : Id) :
  occupancyByStand res !! standId = None <->
  forall r, r ∈ res -> r_standId r <> standId.
Proof.
  unfold occupancyByStand.
  assert (forall (m : gmap Id (list StandReservation)),
            foldl (fun map r =>
                     let arr := default [] (map !! r_standId r) in
                     <[r_standId r := arr ++ [r]]> map) m res !! standId = None
            <-> m !! standId = None /\
                forall r, r ∈ res -> r_standId r <> standId) as H.
  { induction res as [|r res IH]; intros m; simpl.
    - split; [|tauto]. intros Hm. split; [done|]. by intros r ?%elem_of_nil.
    - rewrite IH. destruct (decide (r_standId r = standId)) as [Heq|Hne].
      + rewrite Heq, lookup_insert_eq. split; [by intros [? _]|].
        intros [_ Hall]. exfalso. apply (Hall r); [apply list_elem_of_here|done].
      + rewrite lookup_insert_ne by done. split.
        * intros [Hm Hall]. split; [done|].
          intros r' [->|Hr']%elem_of_cons; [done | by apply Hall].
        * intros [Hm Hall]. split; [done|].
          intros r' Hr'. apply Hall. by apply list_elem_of_further. }
  rewrite H, lookup_empty. split; [by intros [_ ?] | done].
Qed.

(** X13: [occupancyByStand] groups the rows of the reply by stand: the
    entry of a stand holds the rows of that stand in the order of the
    reply, and a stand has an entry exactly when the reply has a row of
    it. *)
Theorem occupancyByStand_groups (res : list StandReservation) (standId : Id) :
  default [] (occupancyByStand res !! standId) =
    List.filter (fun r => bool_decide (r_standId r = standId)) res /\
  (occupancyByStand res !! standId = None <->
   forall r, r ∈ res -> r_standId r <> standId).
Proof.
  split; [|apply occupancyByStand_none].
  unfold occupancyByStand. by rewrite occupancy_foldl, lookup_empty.
Qed.

Lemma busy_iff_reserved_aux (now : Z) (layoutId standId : Id) (from to : Z)
    (s : Store) :
  exists l,
    listReservations now (mkListQuery layoutId (Some from) (Some to)) s =
      (s, Ok l) /\
    (busy l standId from to = true <->
     exists r, r ∈ reservations s /\ r_layoutId r = layoutId /\
       r_standId r = standId /\ r_startAt r < to /\ r_endAt r > from /\
       eventNotCancelled s r = true).
Proof.
  eexists. split; [reflexivity|].
  set (q := mkListQuery layoutId (Some from) (Some to)).
  set (l := merge_sort startAtLe _).
  assert (forall r, r ∈ l <->
            r ∈ reservations s /\
            listWhere s layoutId from to r = true) as Hl.
  { intros r. apply (listReservations_elem_of now q s r). }
  unfold busy, occupancyByStand. rewrite occupancy_foldl, lookup_empty.
  simpl. rewrite existsb_exists. split.
  - intros (r & Hr & _). apply filter_In in Hr as [Hr Hst].
    apply list_elem_of_In, Hl in Hr as [Hr Hw].
    apply listWhere_true in Hw as (Hlay & Hs & He & Hev).
    apply bool_decide_eq_true in Hst.
    exists r. split_and!; done.
  - intros (r & Hr & Hlay & Hst & Hs & He & Hev). exists r. split.
    + apply filter_In. split; [|by apply bool_decide_eq_true].
      apply list_elem_of_In, Hl. split; [done|].
      apply listWhere_true. split_and!; done.
    + unfold intersects. rewrite !bool_decide_eq_true_2; [done | lia | lia].
Qed.

(** X14: the hangar view shows a stand as busy exactly when the table has
    a reservation of the chosen layout on that stand whose window meets
    the chosen window and whose event is not CANCELLED.  The test of
    [intersects] on the client removes nothing: the stand is busy exactly
    when the reply has a row of it. *)
Theorem busy_iff_reserved (now : Z) (layoutId standId : Id) (from to : Z)
    (s : Store) :
  exists l,
    listReservations now (mkListQuery layoutId (Some from) (Some to)) s =
      (s, Ok l) /\
    (busy l standId from to = true <->
     exists r, r ∈ reservations s /\ r_layoutId r = layoutId /\
       r_standId r = standId /\ r_startAt r < to /\ r_endAt r > from /\
       exists e, events s !! r_eventId r = Some e /\ ev_status e <> CANCELLED) /\
    (busy l standId from to = true <-> occupancyByStand l !! standId <> None).
Proof.
  eexists. split; [reflexivity|].
  set (q := mkListQuery layoutId (Some from) (Some to)).
  set (l := merge_sort startAtLe _).
  assert (forall r, r ∈ l <->
            r ∈ reservations s /\
            listWhere s layoutId from to r = true) as Hl.
  { intros r. apply (listReservations_elem_of now q s r). }
  assert (busy l standId from to = true <->
          exists r, r ∈ l /\ r_standId r = standId) as Hbusy.
  { unfold busy, occupancyByStand. rewrite occupancy_foldl, lookup_empty.
    simpl. rewrite existsb_exists. split.
    - intros (r & Hr & _). apply filter_In in Hr as [Hr Hst].
      exists r. split; [by apply list_elem_of_In|].
      by apply bool_decide_eq_true in Hst.
    - intros (r & Hr & Hst). exists r. split.
      + apply filter_In. split; [by apply list_elem_of_In|].
        by apply bool_decide_eq_true.
      + apply Hl in Hr as [_ Hw].
        apply listWhere_true in Hw as (_ & Hs & He & _).
        unfold intersects. rewrite !bool_decide_eq_true_2; [done | lia | lia]. }
  split.
  - rewrite Hbusy. split.
    + intros (r & Hr & Hst). apply Hl in Hr as [Hr Hw].
      apply listWhere_true in Hw as (Hlay & Hs & He & Hev).
      apply eventNotCancelled_true in Hev.
      exists r. split_and!; done.
    + intros (r & Hr & Hlay & Hst & Hs & He & Hev).
      exists r. split; [|done]. apply Hl. split; [done|].
      apply listWhere_true. split_and!; try done.
      by apply eventNotCancelled_true.
  - destruct (occupancyByStand_none l standId) as [H1 H2].
    split.
    + intros (r & Hr & Hst)%Hbusy Hnone. by apply (H1 Hnone r).
    + intros Hsome. destruct (busy l standId from to) eqn:Hb; [done|].
      exfalso. apply Hsome, H2. intros r Hr Hst.
      assert (false = true) as Hft by (apply Hbusy; by exists r). done.
Qed.

Lemma busy_iff_listed (now : Z) (layoutId standId : Id) (from to : Z)
    (s : Store) (l : list StandReservation) :
  listReservations now (mkListQuery layoutId (Some from) (Some to)) s =
    (s, Ok l) ->
  busy l standId from to = true <->
  exists r, r ∈ reservations s /\ r_layoutId r = layoutId /\
    r_standId r = standId /\ r_startAt r < to /\ r_endAt r > from /\
    eventNotCancelled s r = true.
Proof.
  intros Hl. destruct (busy_iff_reserved_aux now layoutId standId from to s)
    as (l' & Hl' & Hb).
  rewrite Hl in Hl'. injection Hl' as <-. exact Hb.
Qed.

(** X15: from a write to the picture.  After a PUT /by-event that returns
    for an event that is not CANCELLED, the hangar view of the target
    layout shows the stand of the row as busy for every window that meets
    the window of the row.  After a DELETE /by-event that returns, a stand
    is shown as busy exactly when a reservation of another event makes it
    so. *)
Theorem view_follows_writes (req : Request) (eventId : Id) (s : Store)
    (now from to : Z) :
  (forall body s' row e l,
     assignReservation req eventId body s = (s', Ok row) ->
     events s !! eventId = Some e -> ev_status e <> CANCELLED ->
     r_startAt row < to -> r_endAt row > from ->
     listReservations now
       (mkListQuery (ab_layoutId body) (Some from) (Some to)) s' = (s', Ok l) ->
     busy l (ab_standId body) from to = true) /\
  (forall s' n layoutId standId l,
     unassignReservation req eventId s = (s', Ok n) ->
     listReservations now (mkListQuery layoutId (Some from) (Some to)) s' =
       (s', Ok l) ->
     busy l standId from to = true <->
     exists r, r ∈ reservations s /\ r_eventId r <> eventId /\
       r_layoutId r = layoutId /\ r_standId r = standId /\
       r_startAt r < to /\ r_endAt r > from /\
       eventNotCancelled s r = true).
Proof.
  split.
  - intros body s' row e l Hrun He Hst Hto Hfrom Hl.
    apply (busy_iff_listed now _ _ from to s' l Hl).
    apply assignReservation_Ok_inv in Hrun as (e' & h & Ha & -> & ->).
    destruct Ha as (He' & _). rewrite He in He'. injection He' as <-.
    exists (assignRow eventId body e). split_and!; try done.
    + change (assignRow eventId body e ∈
              upsertRow (assignRow eventId body e) (reservations s)).
      generalize (assignRow eventId body e). clear. intros row.
      induction (reservations s) as [|r0 rs IH]; simpl.
      * apply list_elem_of_here.
      * case_bool_decide; [apply list_elem_of_here|].
        by apply list_elem_of_further.
    + apply eventNotCancelled_true.
      exists (setPointers (mkLayoutSel (ab_layoutId body) h) e). split; [|done].
      change (alter (setPointers (mkLayoutSel (ab_layoutId body) h)) eventId
                (events s) !! eventId =
              Some (setPointers (mkLayoutSel (ab_layoutId body) h) e)).
      by rewrite lookup_alter_eq, He.
  - intros s' n layoutId standId l Hrun Hl.
    rewrite (busy_iff_listed now _ _ from to s' l Hl).
    assert (s' = fst (unassignReservation req eventId s)) as ->
      by by rewrite Hrun.
    destruct (unassignReservation_store req eventId s) as (Hev & _ & Hrows).
    cbv zeta in Hev, Hrows.
    assert (forall r, eventNotCancelled
                        (fst (unassignReservation req eventId s)) r =
                      eventNotCancelled s r) as Hnc.
    { intros r. unfold eventNotCancelled. by rewrite Hev. }
    assert (forall r, r ∈ reservations (fst (unassignReservation req eventId s))
              <-> r ∈ reservations s /\ r_eventId r <> eventId) as Hin.
    { intros r. rewrite Hrows.
      destruct (reservationOf s eventId) as [ex|] eqn:Hex.
      - rewrite list_elem_of_In, filter_In, <- list_elem_of_In.
        rewrite negb_true_iff, bool_decide_eq_false. tauto.
      - apply reservationOf_None in Hex. split; [|tauto].
        intros Hr. split; [done|]. intros Heq. apply Hex.
        apply list_elem_of_fmap. by exists r. }
    split.
    + intros (r & Hr & Hrest). apply Hin in Hr as [Hr Hne].
      rewrite Hnc in Hrest. exists r. tauto.
    + intros (r & Hr & Hne & Hrest). exists r. rewrite Hnc.
      split; [by apply Hin | tauto].
Qed.

(** A run of the theorem above: E is placed on stand Y of [hangar0]; the
    view of layout L for the window [0,20) shows Y as busy. *)
Lemma view_follows_writes_witness :
  let body := mkAssignBody layoutL standY None None (Some "place") in
  let s' := fst (assignReservation plannerReq idE body hangar0) in
  busy (merge_sort startAtLe
          (List.filter (listWhere s' layoutL 0 20) (reservations s')))
    standY 0 20 = true.
Proof.
  intros body s'.
  apply (proj1 (view_follows_writes plannerReq idE hangar0 0 0 20) body s'
           (mkReservation idE layoutL standY 5 15) eventE).
  - apply (run_eq (assignReservation plannerReq idE body)). by vm_compute.
  - by vm_compute.
  - discriminate.
  - simpl. lia.
  - simpl. lia.
  - reflexivity.
Defined.

End Occupancy.

(** ** The answers of the write handlers, case by case *)

Section Outcomes.

#[local] Instance startAtLe_trans : Transitive startAtLe.
Proof. intros a b c. unfold startAtLe. lia. Qed.

#[local] Instance startAtLe_total' : Total startAtLe.
Proof. intros a b. unfold startAtLe. lia. Qed.

(** The query that excludes the moved event lists the earliest conflict
    first. *)
Lemma dndConflicts_earliest s eventId standId ws we c cs :
  dndConflicts s eventId standId None ws we = c :: cs ->
  forall c', c' ∈ cs -> r_startAt c <= r_startAt c'.
Proof.
  unfold dndConflicts. simpl. intros Heq c' Hc'.
  pose proof (StronglySorted_merge_sort startAtLe
                (List.filter (conflictWhere s standId (NotEvent eventId) ws we)
                   (reservations s))) as Hs.
  rewrite Heq in Hs. apply StronglySorted_cons in Hs as [Hall _].
  by apply (proj1 (Forall_forall _ _) Hall).
Qed.

(** The run of a dnd transaction up to the conflicts. *)
Lemma dnd_blocked req eventId reason bump conflicts c cs s :
  conflicts = c :: cs -> default false bump = false ->
  resolveConflicts req eventId reason (default false bump) conflicts s =
    (s, Err (Conflict (occupiedMessage s c))).
Proof. intros -> ->. apply resolveConflicts_blocked. Qed.

Lemma occupiedMessage_event s c ec :
  events s !! r_eventId c = Some ec ->
  occupiedMessage s c =
    "Место уже занято: " +:+ ev_title ec +:+ " (" +:+ ev_tailNumber ec +:+ ")".
Proof. unfold occupiedMessage. by intros ->. Qed.

(** X16: the answers of POST /dnd-move in the order the handler decides
    them.  An event that does not exist makes [findUniqueOrThrow] throw,
    then so does a layout that does not exist: the error of Prisma has no
    status, the answer is 500.  Then a conflict without [bumpOnConflict]
    is 409 with the text [Место уже занято: title (tail number)] of the
    event of the first conflict, which is the one that starts first when
    no event to bump is named.  Then a stand that does not exist fails on
    the foreign key, again 500.  Every failure leaves the store as it was.
    Otherwise the call returns the row of the event on the stand with the
    window of the event, and the ids of the events of the conflicts. *)
Theorem dndMove_outcomes (req : Request) (body : DndMoveBody) (s : Store) :
  let conflicts e :=
    dndConflicts s (mb_eventId body) (mb_standId body) (mb_bumpedEventId body)
      (ev_startAt e) (ev_endAt e) in
  let fails err code :=
    dndMove req body s = (s, Err err) /\ statusCode err = code in
  (events s !! mb_eventId body = None -> fails NotFound 500) /\
  (forall e, events s !! mb_eventId body = Some e ->
     layouts s !! mb_layoutId body = None -> fails NotFound 500) /\
  (forall e h c cs, events s !! mb_eventId body = Some e ->
     layouts s !! mb_layoutId body = Some h ->
     conflicts e = c :: cs -> mb_bumpOnConflict body <> Some true ->
     (exists ec, events s !! r_eventId c = Some ec /\
        fails (Conflict ("Место уже занято: " +:+ ev_title ec +:+ " (" +:+
                         ev_tailNumber ec +:+ ")")) 409) /\
     (mb_bumpedEventId body = None ->
      forall c', c' ∈ cs -> r_startAt c <= r_startAt c')) /\
  (forall e h, events s !! mb_eventId body = Some e ->
     layouts s !! mb_layoutId body = Some h ->
     conflicts e = [] \/ mb_bumpOnConflict body = Some true ->
     mb_standId body ∉ stands s -> fails ForeignKey 500) /\
  (forall e h, events s !! mb_eventId body = Some e ->
     layouts s !! mb_layoutId body = Some h ->
     conflicts e = [] \/ mb_bumpOnConflict body = Some true ->
     mb_standId body ∈ stands s ->
     snd (dndMove req body s) =
       Ok (mkReservation (mb_eventId body) (mb_layoutId body)
             (mb_standId body) (ev_startAt e) (ev_endAt e),
           map r_eventId (conflicts e))).
Proof.
  intros conflicts fails. unfold fails. split_and!.
  - intros He. split; [|done]. unfold dndMove.
    eapply transaction_fail, bind_err.
    unfold findEventOrThrow. by rewrite He.
  - intros e He Hl. split; [|done]. unfold dndMove. eapply transaction_fail.
    erewrite bind_ok by (by apply findEventOrThrow_ok).
    erewrite bind_ok by reflexivity.
    apply bind_err. unfold findLayoutOrThrow. by rewrite Hl.
  - intros e h c cs He Hl Hc Hb. split.
    + destruct (dndConflicts_linked s (mb_eventId body) (mb_standId body)
                  (mb_bumpedEventId body) (ev_startAt e) (ev_endAt e) c)
        as [ec Hec].
      { fold (conflicts e). rewrite Hc. apply list_elem_of_here. }
      exists ec. split; [done|]. split; [|done].
      rewrite <- (occupiedMessage_event s c ec Hec).
      unfold dndMove. eapply transaction_fail.
      erewrite bind_ok by (by apply findEventOrThrow_ok).
      erewrite bind_ok by reflexivity.
      erewrite bind_ok by (by apply findLayoutOrThrow_ok).
      erewrite bind_ok by apply findManyConflicts_ok.
      apply bind_err. apply (dnd_blocked _ _ _ _ _ c cs); [exact Hc|].
      by destruct (mb_bumpOnConflict body) as [[|]|].
    + intros Hnone. unfold conflicts in Hc. rewrite Hnone in Hc.
      by apply (dndConflicts_earliest _ _ _ _ _ _ _ Hc).
  - intros e h He Hl Hb Hs. split; [|done]. unfold dndMove.
    eapply transaction_fail.
    erewrite bind_ok by (by apply findEventOrThrow_ok).
    erewrite bind_ok by reflexivity.
    erewrite bind_ok by (by apply findLayoutOrThrow_ok).
    erewrite bind_ok by apply findManyConflicts_ok.
    erewrite bind_ok; cycle 1.
    { apply resolveConflicts_ok.
      - intros c. apply dndConflicts_linked.
      - destruct Hb as [Hb|Hb]; [by left | right; by rewrite Hb]. }
    apply bind_err. by apply upsertReservation_no_stand.
  - intros e h He Hl Hb Hs.
    by rewrite (dndMove_ok req body s e h He Hl Hs Hb).
Qed.

(** A run of the theorem above: E is dropped on stand X of [hangar0]
    without the permission to bump; the answer names event A, whose row
    starts before the row of C. *)
Lemma dndMove_outcomes_witness :
  let body := mkDndMoveBody idE layoutL standX None None "move" in
  (exists ec,
     events hangar0 !! idA = Some ec /\
     dndMove plannerReq body hangar0 =
       (hangar0,
        Err (Conflict ("Место уже занято: " +:+ ev_title ec +:+ " (" +:+
                       ev_tailNumber ec +:+ ")"))) /\
     statusCode
       (Conflict ("Место уже занято: " +:+ ev_title ec +:+ " (" +:+
                  ev_tailNumber ec +:+ ")")) = 409) /\
  (@None Id = None ->
   forall c', c' ∈ [mkReservation idC layoutL standX 10 20] ->
     r_startAt (mkReservation idA layoutL standX 0 10) <= r_startAt c').
Proof.
  intros body.
  apply (proj1 (proj2 (proj2 (dndMove_outcomes plannerReq body hangar0)))
           eventE hangarH (mkReservation idA layoutL standX 0 10)
           [mkReservation idC layoutL standX 10 20]).
  - by vm_compute.
  - by vm_compute.
  - by vm_compute.
  - discriminate.
Defined.

(** X17: the answers of PUT /by-event in the order the handler decides
    them.  An event that does not exist makes [findUniqueOrThrow] throw
    (no status: 500).  A window that does not end after its start is 400.
    When rows of other events that are not cancelled overlap the window on
    the stand, the answer is 409 with the text
    [Место уже занято: title (tail number)] of the event of one of these
    rows: the one [findFirst] returns, which the query leaves to the
    database, so that each of the rows is named under some choice.  Only
    then a layout that does not exist throws (500) and a stand that does
    not exist fails on the foreign key (500).  All of these leave the store
    as it was.  Otherwise the call returns the row, or 400 when the
    placement changes and no reason is given. *)
Theorem assignReservation_outcomes (req : Request) (eventId : Id)
    (body : AssignBody) (s : Store) :
  let startAt e := default (ev_startAt e) (ab_startAt body) in
  let endAt e := default (ev_endAt e) (ab_endAt body) in
  let rows e :=
    List.filter (conflictWhere s (ab_standId body) (NotEvent eventId)
                   (startAt e) (endAt e)) (reservations s) in
  let message ec :=
    "Место уже занято: " +:+ ev_title ec +:+ " (" +:+ ev_tailNumber ec +:+ ")" in
  let fails err code :=
    assignReservation req eventId body s = (s, Err err) /\
    statusCode err = code in
  (events s !! eventId = None -> fails NotFound 500) /\
  (forall e, events s !! eventId = Some e -> endAt e <= startAt e ->
     fails (BadRequest "endAt must be after startAt") 400) /\
  (forall e, events s !! eventId = Some e -> startAt e < endAt e ->
     rows e <> [] ->
     exists c ec,
       rows e !! (firstOf s (rows e) `mod` length (rows e))%nat = Some c /\
       c ∈ reservations s /\ r_standId c = ab_standId body /\
       r_eventId c <> eventId /\
       r_startAt c < endAt e /\ r_endAt c > startAt e /\
       events s !! r_eventId c = Some ec /\ ev_status ec <> CANCELLED /\
       fails (Conflict (message ec)) 409) /\
  (forall e c, events s !! eventId = Some e -> startAt e < endAt e ->
     c ∈ rows e ->
     exists choice ec,
       events s !! r_eventId c = Some ec /\
       assignReservation req eventId body
         (mkStore (events s) (layouts s) (stands s) (reservations s)
            (audits s) choice) =
         (mkStore (events s) (layouts s) (stands s) (reservations s)
            (audits s) choice,
          Err (Conflict (message ec)))) /\
  (forall e, events s !! eventId = Some e -> startAt e < endAt e ->
     rows e = [] -> layouts s !! ab_layoutId body = None ->
     fails NotFound 500) /\
  (forall e h, events s !! eventId = Some e -> startAt e < endAt e ->
     rows e = [] -> layouts s !! ab_layoutId body = Some h ->
     ab_standId body ∉ stands s -> fails ForeignKey 500) /\
  (forall e h, events s !! eventId = Some e -> startAt e < endAt e ->
     rows e = [] -> layouts s !! ab_layoutId body = Some h ->
     ab_standId body ∈ stands s ->
     snd (assignReservation req eventId body s) =
       (if reservationChanged (reservationOf s eventId)
             (assignRow eventId body e)
           && noReason (ab_changeReason body)
        then Err (BadRequest "changeReason is required when changing reservation")
        else Ok (assignRow eventId body e)) /\
     statusCode
       (BadRequest "changeReason is required when changing reservation") = 400).
Proof.
  intros startAt endAt rows message fails.
  assert (forall s0 e c,
            events s0 !! eventId = Some e ->
            default (ev_startAt e) (ab_startAt body) <
              default (ev_endAt e) (ab_endAt body) ->
            List.filter (conflictWhere s0 (ab_standId body) (NotEvent eventId)
                           (default (ev_startAt e) (ab_startAt body))
                           (default (ev_endAt e) (ab_endAt body)))
              (reservations s0)
              !! (firstOf s0
                    (List.filter
                       (conflictWhere s0 (ab_standId body) (NotEvent eventId)
                          (default (ev_startAt e) (ab_startAt body))
                          (default (ev_endAt e) (ab_endAt body)))
                       (reservations s0))
                  `mod`
                  length
                    (List.filter
                       (conflictWhere s0 (ab_standId body) (NotEvent eventId)
                          (default (ev_startAt e) (ab_startAt body))
                          (default (ev_endAt e) (ab_endAt body)))
                       (reservations s0)))%nat = Some c ->
            assignReservation req eventId body s0 =
              (s0, Err (Conflict (occupiedMessage s0 c)))) as Hblocked.
  { intros s0 e c He Hw Hc. unfold assignReservation.
    erewrite bind_ok by (by apply findEventOrThrow_ok).
    erewrite bind_ok by reflexivity.
    cbv zeta. rewrite bool_decide_eq_false_2 by lia.
    erewrite bind_ok by (unfold findFirstConflict; cbv zeta; by rewrite Hc).
    reflexivity. }
  assert (forall e, rows e = [] ->
            findFirstConflict (ab_standId body) (NotEvent eventId)
              (startAt e) (endAt e) s = (s, Ok None)) as Hfree.
  { intros e Hrows. unfold findFirstConflict. cbv zeta.
    fold (rows e). by rewrite Hrows. }
  subst fails. cbv beta. split_and!.
  - intros He. split; [|done]. unfold assignReservation. apply bind_err.
    unfold findEventOrThrow. by rewrite He.
  - intros e He Hw. split; [|done]. unfold assignReservation.
    erewrite bind_ok by (by apply findEventOrThrow_ok).
    erewrite bind_ok by reflexivity.
    cbv zeta. unfold startAt, endAt in Hw. by rewrite bool_decide_eq_true_2.
  - intros e He Hw Hrows.
    destruct (rows e !! (firstOf s (rows e) `mod` length (rows e))%nat)
      as [c|] eqn:Hc; [|by apply lookup_mod_None in Hc].
    pose proof (lookup_mod_Some _ _ _ Hc) as Hin.
    apply list_elem_of_In, filter_In in Hin as [Hin Hcw].
    apply conflictWhere_true in Hcw as (Hst & Hf & Hs & Hend & Hnc).
    apply eventNotCancelled_true in Hnc as (ec & Hec & Hstatus).
    simpl in Hf. apply bool_decide_eq_true in Hf.
    exists c, ec. split_and!; try done; [by apply list_elem_of_In|].
    unfold message. rewrite <- (occupiedMessage_event s c ec Hec).
    by apply (Hblocked s e c).
  - intros e c He Hw Hin.
    destruct (proj1 (list_elem_of_lookup _ _) Hin) as [i Hi].
    pose proof (lookup_lt_Some _ _ _ Hi) as Hlt.
    apply list_elem_of_In, filter_In in Hin as [_ Hcw].
    apply conflictWhere_true in Hcw as (_ & _ & _ & _ & Hnc).
    apply eventNotCancelled_true in Hnc as (ec & Hec & _).
    exists (fun _ => i), ec. split; [done|].
    unfold message.
    rewrite <- (occupiedMessage_event
                  (mkStore (events s) (layouts s) (stands s) (reservations s)
                     (audits s) (fun _ => i)) c ec Hec).
    apply (Hblocked _ e c); [done | done |].
    simpl firstOf. rewrite Nat.mod_small; [exact Hi | exact Hlt].
  - intros e He Hw Hrows Hl. split; [|done]. unfold assignReservation.
    erewrite bind_ok by (by apply findEventOrThrow_ok).
    erewrite bind_ok by reflexivity.
    cbv zeta. unfold startAt, endAt in Hw.
    rewrite bool_decide_eq_false_2 by lia.
    erewrite bind_ok by (by apply Hfree).
    cbv iota. apply bind_err. unfold findLayoutOrThrow. by rewrite Hl.
  - intros e h He Hw Hrows Hl Hs. split; [|done]. unfold assignReservation.
    erewrite bind_ok by (by apply findEventOrThrow_ok).
    erewrite bind_ok by reflexivity.
    cbv zeta. unfold startAt, endAt in Hw.
    rewrite bool_decide_eq_false_2 by lia.
    erewrite bind_ok by (by apply Hfree).
    cbv iota. erewrite bind_ok by (by apply findLayoutOrThrow_ok).
    apply bind_err. by apply upsertReservation_no_stand.
  - intros e h He Hw Hrows Hl Hs. split; [|done].
    rewrite (assignReservation_written req eventId body s e h).
    + cbv zeta. by destruct (_ && _).
    + split_and!; try done. by apply filter_nil_iff.
Qed.

(** A run of the theorem above: the PUT of E on stand X of [hangar0] with a
    layout that does not exist answers 409, not the error of the layout;
    the rows of A and of C both overlap, and the answer names the event of
    the row that [hangar0] returns first. *)
Lemma assignReservation_outcomes_witness :
  let body := mkAssignBody idC standX None None (Some "place") in
  let rows := [mkReservation idA layoutL standX 0 10;
               mkReservation idC layoutL standX 10 20] in
  exists c ec,
    rows !! (firstOf hangar0 rows `mod` length rows)%nat = Some c /\
    c ∈ reservations hangar0 /\ r_standId c = standX /\
    r_eventId c <> idE /\ r_startAt c < 15 /\ r_endAt c > 5 /\
    events hangar0 !! r_eventId c = Some ec /\ ev_status ec <> CANCELLED /\
    assignReservation plannerReq idE body hangar0 =
      (hangar0,
       Err (Conflict ("Место уже занято: " +:+ ev_title ec +:+ " (" +:+
                      ev_tailNumber ec +:+ ")"))) /\
    statusCode
      (Conflict ("Место уже занято: " +:+ ev_title ec +:+ " (" +:+
                 ev_tailNumber ec +:+ ")")) = 409.
Proof.
  intros body rows.
  apply (proj1 (proj2 (proj2
           (assignReservation_outcomes plannerReq idE body hangar0))) eventE).
  - by vm_compute.
  - simpl. lia.
  - by vm_compute.
Defined.

(** X18: the answers of POST /dnd-place in the order the handler decides
    them.  A window that does not end after its start fails the [refine]
    of the body schema before anything is read, also for an event that
    does not exist: a [ZodError], which has no status, so the answer is
    500.  Then the answers are those of dnd-move for the window of the
    body: the error of [findUniqueOrThrow] for the event and then for the
    layout (500), 409 with the text [Место уже занято: title (tail number)]
    for a conflict without [bumpOnConflict], the foreign key for the stand
    (500).  Every failure leaves the store as it was, although the event is
    updated before the row is written.  Otherwise the call returns the
    row with the window of the body and the ids of the events of the
    conflicts. *)
Theorem dndPlace_outcomes (req : Request) (body : DndPlaceBody) (s : Store) :
  let conflicts :=
    dndConflicts s (pb_eventId body) (pb_standId body) (pb_bumpedEventId body)
      (pb_startAt body) (pb_endAt body) in
  let fails err code :=
    dndPlace req body s = (s, Err err) /\ statusCode err = code in
  (pb_endAt body <= pb_startAt body ->
   fails (ZodError "endAt must be after startAt") 500) /\
  (pb_startAt body < pb_endAt body -> events s !! pb_eventId body = None ->
   fails NotFound 500) /\
  (pb_startAt body < pb_endAt body -> is_Some (events s !! pb_eventId body) ->
   layouts s !! pb_layoutId body = None -> fails NotFound 500) /\
  (forall c cs, pb_startAt body < pb_endAt body ->
     is_Some (events s !! pb_eventId body) ->
     is_Some (layouts s !! pb_layoutId body) ->
     conflicts = c :: cs -> pb_bumpOnConflict body <> Some true ->
     (exists ec, events s !! r_eventId c = Some ec /\
        fails (Conflict ("Место уже занято: " +:+ ev_title ec +:+ " (" +:+
                         ev_tailNumber ec +:+ ")")) 409) /\
     (pb_bumpedEventId body = None ->
      forall c', c' ∈ cs -> r_startAt c <= r_startAt c')) /\
  (pb_startAt body < pb_endAt body ->
   is_Some (events s !! pb_eventId body) ->
   is_Some (layouts s !! pb_layoutId body) ->
   conflicts = [] \/ pb_bumpOnConflict body = Some true ->
   pb_standId body ∉ stands s -> fails ForeignKey 500) /\
  (pb_startAt body < pb_endAt body ->
   is_Some (events s !! pb_eventId body) ->
   is_Some (layouts s !! pb_layoutId body) ->
   conflicts = [] \/ pb_bumpOnConflict body = Some true ->
   pb_standId body ∈ stands s ->
   snd (dndPlace req body s) =
     Ok (mkReservation (pb_eventId body) (pb_layoutId body) (pb_standId body)
           (pb_startAt body) (pb_endAt body),
         map r_eventId conflicts)).
Proof.
  intros conflicts fails. unfold fails. split_and!.
  - intros Hw. split; [|done]. unfold dndPlace.
    by rewrite bool_decide_eq_false_2 by lia.
  - intros Hw He. split; [|done]. unfold dndPlace.
    rewrite bool_decide_eq_true_2 by lia.
    simpl negb. cbv iota. eapply transaction_fail, bind_err.
    unfold findEventOrThrow. by rewrite He.
  - intros Hw [e He] Hl. split; [|done]. unfold dndPlace.
    rewrite bool_decide_eq_true_2 by lia. simpl negb. cbv iota.
    eapply transaction_fail.
    erewrite bind_ok by (by apply findEventOrThrow_ok).
    erewrite bind_ok by reflexivity.
    apply bind_err. unfold findLayoutOrThrow. by rewrite Hl.
  - intros c cs Hw [e He] [h Hl] Hc Hb. split.
    + destruct (dndConflicts_linked s (pb_eventId body) (pb_standId body)
                  (pb_bumpedEventId body) (pb_startAt body) (pb_endAt body) c)
        as [ec Hec].
      { fold conflicts. rewrite Hc. apply list_elem_of_here. }
      exists ec. split; [done|]. split; [|done].
      rewrite <- (occupiedMessage_event s c ec Hec).
      unfold dndPlace. rewrite bool_decide_eq_true_2 by lia.
      simpl negb. cbv iota. eapply transaction_fail.
      erewrite bind_ok by (by apply findEventOrThrow_ok).
      erewrite bind_ok by reflexivity.
      erewrite bind_ok by (by apply findLayoutOrThrow_ok).
      erewrite bind_ok by apply findManyConflicts_ok.
      apply bind_err. apply (dnd_blocked _ _ _ _ _ c cs); [exact Hc|].
      by destruct (pb_bumpOnConflict body) as [[|]|].
    + intros Hnone. unfold conflicts in Hc. rewrite Hnone in Hc.
      by apply (dndConflicts_earliest _ _ _ _ _ _ _ Hc).
  - intros Hw [e He] [h Hl] Hb Hs. split; [|done]. unfold dndPlace.
    rewrite bool_decide_eq_true_2 by lia. simpl negb. cbv iota.
    eapply transaction_fail.
    erewrite bind_ok by (by apply findEventOrThrow_ok).
    erewrite bind_ok by reflexivity.
    erewrite bind_ok by (by apply findLayoutOrThrow_ok).
    erewrite bind_ok by apply findManyConflicts_ok.
    erewrite bind_ok; cycle 1.
    { apply resolveConflicts_ok.
      - intros c. apply dndConflicts_linked.
      - destruct Hb as [Hb|Hb]; [by left | right; by rewrite Hb]. }
    erewrite bind_ok; cycle 1.
    { apply updateEvent_ok. apply bumped_events_is_Some. by rewrite He. }
    apply bind_err. by apply upsertReservation_no_stand.
  - intros Hw [e He] [h Hl] Hb Hs.
    rewrite (dndPlace_ok req body s e h) by (done || lia). done.
Qed.

(** A run of the theorem above: a dnd-place of an event that does not
    exist, with an empty window, fails the validation of the body. *)
Lemma dndPlace_outcomes_witness :
  let body := mkDndPlaceBody idPlanner layoutL standX 15 15 None None "resize" in
  dndPlace plannerReq body hangar0 =
    (hangar0, Err (ZodError "endAt must be after startAt")) /\
  statusCode (ZodError "endAt must be after startAt") = 500.
Proof.
  intros body.
  apply (proj1 (dndPlace_outcomes plannerReq body hangar0)).
  simpl. lia.
Defined.

End Outcomes.

(** ** What a call leaves in the audit trail and in the event rows *)

Section Effects.


Lemma newAudits_audited_placed a row data s :
  newAudits s (audited a (placed row data s)) = [a].
Proof. unfold newAudits. simpl. by rewrite drop_app_length. Qed.



Lemma events_placed row data s id :
  events (placed row data s) !! id =
    (fun e => if decide (id = r_eventId row) then data e else e) <$>
    events s !! id.
Proof.
  unfold placed. simpl. destruct (decide (id = r_eventId row)) as [->|Hne].
  - rewrite lookup_alter_eq. by destruct (events s !! r_eventId row).
  - rewrite lookup_alter_ne by done. by destruct (events s !! id).
Qed.

(** The event rows after a call: some events went through the bump, and
    the event of the call got its pointers, or its window and pointers. *)
Lemma exec_events req op s :
  exists (ids : list Id) (mover : option Id)
         (data : MaintenanceEvent -> MaintenanceEvent),
    (forall id,
       events (exec req op s) !! id =
         (fun e => if decide (Some id = mover) then data e else e) <$>
         ((fun e => if bool_decide (id ∈ ids) then clearPlacement e else e) <$>
          events s !! id)) /\
    (forall e, ev_status (data e) = ev_status e /\
       ev_title (data e) = ev_title e /\
       ev_tailNumber (data e) = ev_tailNumber e) /\
    ((forall e, ev_startAt (data e) = ev_startAt e /\
        ev_endAt (data e) = ev_endAt e) \/
     exists body, op = OpDndPlace body /\ mover = Some (pb_eventId body) /\
       forall e, ev_startAt (data e) = pb_startAt body /\
         ev_endAt (data e) = pb_endAt body).
Proof.
  assert (exists (ids : list Id) (mover : option Id)
            (data : MaintenanceEvent -> MaintenanceEvent),
            (forall id,
               events s !! id =
                 (fun e => if decide (Some id = mover) then data e else e) <$>
                 ((fun e => if bool_decide (id ∈ ids)
                            then clearPlacement e else e) <$>
                  events s !! id)) /\
            (forall e, ev_status (data e) = ev_status e /\
               ev_title (data e) = ev_title e /\
               ev_tailNumber (data e) = ev_tailNumber e) /\
            ((forall e, ev_startAt (data e) = ev_startAt e /\
                ev_endAt (data e) = ev_endAt e) \/
             exists body, op = OpDndPlace body /\
               mover = Some (pb_eventId body) /\
               forall e, ev_startAt (data e) = pb_startAt body /\
                 ev_endAt (data e) = pb_endAt body)) as Hsame.
  { exists [], None, id. split; [|split; [done | by left]].
    intros id. by destruct (events s !! id). }
  assert (forall row h,
            exists (ids : list Id) (mover : option Id)
              (data : MaintenanceEvent -> MaintenanceEvent),
              (forall id,
                 events (placed row
                           (setPointers (mkLayoutSel (r_layoutId row) h)) s)
                   !! id =
                   (fun e => if decide (Some id = mover) then data e else e) <$>
                   ((fun e => if bool_decide (id ∈ ids)
                              then clearPlacement e else e) <$>
                    events s !! id)) /\
              (forall e, ev_status (data e) = ev_status e /\
                 ev_title (data e) = ev_title e /\
                 ev_tailNumber (data e) = ev_tailNumber e) /\
              ((forall e, ev_startAt (data e) = ev_startAt e /\
                  ev_endAt (data e) = ev_endAt e) \/
               exists body, op = OpDndPlace body /\
                 mover = Some (pb_eventId body) /\
                 forall e, ev_startAt (data e) = pb_startAt body /\
                   ev_endAt (data e) = pb_endAt body)) as Hplaced.
  { intros row h.
    exists [], (Some (r_eventId row)),
      (setPointers (mkLayoutSel (r_layoutId row) h)).
    split; [|split; [done | by left]].
    intros id. rewrite events_placed.
    destruct (events s !! id); simpl; [|done].
    destruct (decide (id = r_eventId row)) as [->|Hne].
    - by rewrite decide_True.
    - rewrite decide_False; [done|]. congruence. }
  destruct op as [eventId body|body|body|eventId]; unfold exec.
  - destruct (assignReservation req eventId body s) as [s' [row|err]] eqn:Hrun.
    + apply assignReservation_Ok_inv in Hrun as (e & h & _ & -> & ->).
      apply (Hplaced (assignRow eventId body e) h).
    + apply assignReservation_error_store in Hrun
        as [->|(_ & e & h & _ & ->)]; [exact Hsame|].
      apply (Hplaced (assignRow eventId body e) h).
  - destruct (dndMove req body s) as [s' [[row ids]|err]] eqn:Hrun.
    + destruct (dndMove_Ok_inv _ _ _ _ _ Hrun) as (e & h & He & Hl & Hs & Hb).
      rewrite (dndMove_ok req body s e h He Hl Hs Hb) in Hrun.
      injection Hrun as <- <- <-.
      exists (map r_eventId
                (dndConflicts s (mb_eventId body) (mb_standId body)
                   (mb_bumpedEventId body) (ev_startAt e) (ev_endAt e))),
        (Some (mb_eventId body)),
        (setPointers (mkLayoutSel (mb_layoutId body) h)).
      split; [|split; [done | by left]].
      intros id. simpl fst. rewrite events_committed. simpl r_eventId.
      destruct (events s !! id); simpl; [|done].
      destruct (decide (id = mb_eventId body)) as [->|Hne].
      * by rewrite decide_True.
      * rewrite decide_False; [done|]. congruence.
    + apply (proj1 (dnd_error_store req s s' err)) in Hrun as ->.
      exact Hsame.
  - destruct (dndPlace req body s) as [s' [[row ids]|err]] eqn:Hrun.
    + destruct (dndPlace_Ok_inv _ _ _ _ _ Hrun)
        as (e & h & Hw & He & Hl & Hs & Hb).
      rewrite (dndPlace_ok req body s e h) in Hrun by (done || lia).
      injection Hrun as <- <- <-.
      exists (map r_eventId
                (dndConflicts s (pb_eventId body) (pb_standId body)
                   (pb_bumpedEventId body) (pb_startAt body) (pb_endAt body))),
        (Some (pb_eventId body)),
        (setWindowAndPointers (pb_startAt body) (pb_endAt body)
           (mkLayoutSel (pb_layoutId body) h)).
      split; [|split; [done|right; by exists body]].
      intros id. simpl fst. rewrite events_committed. simpl r_eventId.
      destruct (events s !! id); simpl; [|done].
      destruct (decide (id = pb_eventId body)) as [->|Hne].
      * by rewrite decide_True.
      * rewrite decide_False; [done|]. congruence.
    + apply (proj2 (dnd_error_store req s s' err)) in Hrun as ->.
      exact Hsame.
  - destruct (unassignReservation_store req eventId s) as (Hev & _).
    simpl in Hev. rewrite Hev. exact Hsame.
Qed.

(** X20: what no write handler does to an event row.  No call creates or
    deletes an event, a layout or a stand.  The title and the tail number
    of an event never change.  The status is kept or becomes DRAFT.  The
    window of an event is kept, except for the event that a dnd-place call
    moves, which gets the window of the call. *)
Theorem handlers_keep_event_identity (req : Request) (op : Op) (s : Store)
    (id : Id) :
  let s' := exec req op s in
  layouts s' = layouts s /\ stands s' = stands s /\
  (events s' !! id = None <-> events s !! id = None) /\
  forall e e', events s !! id = Some e -> events s' !! id = Some e' ->
    ev_title e' = ev_title e /\ ev_tailNumber e' = ev_tailNumber e /\
    (ev_status e' = ev_status e \/ ev_status e' = DRAFT) /\
    ((ev_startAt e' = ev_startAt e /\ ev_endAt e' = ev_endAt e) \/
     exists body, op = OpDndPlace body /\ id = pb_eventId body /\
       ev_startAt e' = pb_startAt body /\ ev_endAt e' = pb_endAt body).
Proof.
  intros s'. destruct (exec_sameCatalogue req op s) as (Hl & Hst & _).
  destruct (exec_events req op s) as (ids & mover & data & Hev & Hdata & Hwin).
  fold s' in Hl, Hst, Hev. specialize (Hev id).
  split; [done|]. split; [done|]. split.
  - rewrite Hev. by destruct (events s !! id).
  - intros e e' He He'. rewrite Hev, He in He'. simpl in He'.
    injection He' as <-.
    set (e1 := if bool_decide (id ∈ ids) then clearPlacement e else e).
    assert (ev_title e1 = ev_title e /\ ev_tailNumber e1 = ev_tailNumber e /\
            (ev_status e1 = ev_status e \/ ev_status e1 = DRAFT) /\
            ev_startAt e1 = ev_startAt e /\ ev_endAt e1 = ev_endAt e)
      as (Ht & Hn & Hs & Ha & Hb).
    { unfold e1. destruct (bool_decide (id ∈ ids)); simpl; tauto. }
    destruct (decide (Some id = mover)) as [Hm|Hm].
    + destruct (Hdata e1) as (Hs' & Ht' & Hn').
      rewrite Hs', Ht', Hn'. split_and!; try done.
      destruct Hwin as [Hwin|(body & -> & -> & Hwin)].
      * left. destruct (Hwin e1) as [-> ->]. done.
      * right. exists body. injection Hm as ->.
        destruct (Hwin e1) as [-> ->]. done.
    + split_and!; try done. by left.
Qed.

(** A run of the theorem above: A is moved to stand Y of [hangar0] with
    the window [12,30). *)
Lemma handlers_keep_event_identity_witness :
  let op := OpDndPlace
              (mkDndPlaceBody idA layoutL standY 12 30 None None "late") in
  let e' := mkEvent PLANNED "check A" "RA-002" 12 30 (Some hangarH)
              (Some layoutL) in
  ev_title e' = ev_title eventA /\ ev_tailNumber e' = ev_tailNumber eventA /\
  (ev_status e' = ev_status eventA \/ ev_status e' = DRAFT) /\
  ((ev_startAt e' = ev_startAt eventA /\ ev_endAt e' = ev_endAt eventA) \/
   exists body, op = OpDndPlace body /\ idA = pb_eventId body /\
     ev_startAt e' = pb_startAt body /\ ev_endAt e' = pb_endAt body).
Proof.
  intros op e'.
  apply (proj2 (proj2 (proj2
           (handlers_keep_event_identity plannerReq op hangar0 idA)))
           eventA e').
  - by vm_compute.
  - by vm_compute.
Defined.

Lemma upsertRow_new row rs :
  r_eventId row ∉ map r_eventId rs -> upsertRow row rs = rs ++ [row].
Proof.
  induction rs as [|r rs IH]; simpl; intros Hni; [done|].
  apply not_elem_of_cons in Hni as [Hne Hni].
  rewrite bool_decide_eq_false_2 by done. by rewrite IH.
Qed.

Lemma filter_other_events id rs :
  id ∉ map r_eventId rs ->
  List.filter (fun r => negb (bool_decide (r_eventId r = id))) rs = rs.
Proof.
  induction rs as [|r rs IH]; simpl; intros Hni; [done|].
  apply not_elem_of_cons in Hni as [Hne Hni].
  rewrite bool_decide_eq_false_2 by done. simpl. by rewrite IH.
Qed.

(** X21: a first placement that is taken back.  When an event without a
    reservation is placed by a PUT and the reservation is then removed by
    DELETE, the reservation table is what it was before the two calls and
    the audit trail has two more records, both for the event: RESERVE
    from null to the layout, stand, start and end of the row the PUT
    returned, whose layout and stand are those of the body, and UNRESERVE
    from that placement to null; the event keeps the layout that the PUT
    gave it. *)
Theorem assign_then_unassign_round_trip (req req' : Request) (eventId : Id)
    (body : AssignBody) (s s1 : Store) (row : StandReservation) :
  reservationOf s eventId = None ->
  assignReservation req eventId body s = (s1, Ok row) ->
  exists s2 a a',
    unassignReservation req' eventId s1 = (s2, Ok 1%nat) /\
    reservations s2 = reservations s /\
    newAudits s s2 = [a; a'] /\
    a_eventId a = eventId /\ a_eventId a' = eventId /\
    a_action a = RESERVE /\ a_action a' = UNRESERVE /\
    r_layoutId row = ab_layoutId body /\ r_standId row = ab_standId body /\
    a_changes a =
      ChReservation None
        (Some (mkPlacement (r_layoutId row) (r_standId row) (r_startAt row)
                 (r_endAt row))) /\
    a_changes a' =
      ChReservation
        (Some (mkPlacement (r_layoutId row) (r_standId row) (r_startAt row)
                 (r_endAt row)))
        None /\
    events s2 = events s1 /\
    exists e2, events s2 !! eventId = Some e2 /\
      ev_layoutId e2 = Some (ab_layoutId body).
Proof.
  intros Hnone Hrun.
  apply assignReservation_Ok_inv in Hrun as (e & h & Ha & -> & ->).
  destruct Ha as (He & _).
  set (row := assignRow eventId body e).
  set (a := assignAudit req eventId body (reservationOf s eventId) row).
  set (s1 := audited a
               (placed row (setPointers (mkLayoutSel (ab_layoutId body) h)) s)).
  apply reservationOf_None in Hnone as Hni.
  assert (reservations s1 = reservations s ++ [row]) as Hrows.
  { simpl. by apply upsertRow_new. }
  assert (rowsOfEvent eventId (reservations s1) = [row]) as Hof.
  { rewrite Hrows. unfold rowsOfEvent. rewrite filter_app.
    fold (rowsOfEvent eventId (reservations s)).
    rewrite rowsOfEvent_not_in by done. simpl.
    rewrite filter_cons_True by done. done. }
  assert (events s1 !! eventId =
          Some (setPointers (mkLayoutSel (ab_layoutId body) h) e)) as He1.
  { unfold s1. simpl. change eventId with (r_eventId row) at 1.
    by rewrite lookup_alter_eq, He. }
  exists (audited
            (mkAudit eventId UNRESERVE (getActor req') (Some "Снятие резерва")
               (ChReservation (Some (placementOf row)) None))
            (setReservations
               (List.filter
                  (fun r => negb (bool_decide (r_eventId r = eventId)))
                  (reservations s1)) s1)), a,
    (mkAudit eventId UNRESERVE (getActor req') (Some "Снятие резерва")
       (ChReservation (Some (placementOf row)) None)).
  split_and!.
  - rewrite (unassignReservation_some req' eventId s1 row).
    + by rewrite Hof.
    + unfold reservationOf. by rewrite Hof.
    + by rewrite He1.
  - change (List.filter (fun r => negb (bool_decide (r_eventId r = eventId)))
              (reservations s1) = reservations s).
    rewrite Hrows, List.filter_app.
    rewrite filter_other_events by done. simpl.
    rewrite bool_decide_eq_true_2 by done. simpl. by rewrite app_nil_r.
  - unfold newAudits. simpl. by rewrite <- app_assoc, drop_app_length.
  - done.
  - done.
  - done.
  - done.
  - done.
  - done.
  - unfold a, assignAudit. simpl. by rewrite Hnone.
  - done.
  - done.
  - eexists. split; [exact He1 | done].
Qed.

(** A run of the theorem above: E is placed on stand X of the empty hangar
    and taken off again. *)
Lemma assign_then_unassign_round_trip_witness :
  let body := mkAssignBody layoutL standX None None (Some "place") in
  let s1 := fst (assignReservation plannerReq idE body hangarEmpty) in
  exists s2 a a',
    unassignReservation plannerReq idE s1 = (s2, Ok 1%nat) /\
    reservations s2 = reservations hangarEmpty /\
    newAudits hangarEmpty s2 = [a; a'] /\
    a_eventId a = idE /\ a_eventId a' = idE /\
    a_action a = RESERVE /\ a_action a' = UNRESERVE /\
    layoutL = layoutL /\ standX = standX /\
    a_changes a =
      ChReservation None (Some (mkPlacement layoutL standX 5 15)) /\
    a_changes a' =
      ChReservation (Some (mkPlacement layoutL standX 5 15)) None /\
    events s2 = events s1 /\
    exists e2, events s2 !! idE = Some e2 /\ ev_layoutId e2 = Some layoutL.
Proof.
  intros body s1.
  apply (assign_then_unassign_round_trip plannerReq plannerReq idE body
           hangarEmpty s1 (mkReservation idE layoutL standX 5 15)).
  - by vm_compute.
  - apply (run_eq (assignReservation plannerReq idE body)). by vm_compute.
Defined.

Lemma upsertRow_again row rs : upsertRow row (upsertRow row rs) = upsertRow row rs.
Proof.
  induction rs as [|r rs IH]; simpl.
  - by rewrite bool_decide_eq_true_2.
  - case_bool_decide as Heq; simpl.
    + by rewrite bool_decide_eq_true_2.
    + rewrite bool_decide_eq_false_2 by done. by rewrite IH.
Qed.

Lemma conflictWhere_placed row layout s standId f ws we c :
  conflictWhere (placed row (setPointers layout) s) standId f ws we c =
  conflictWhere s standId f ws we c.
Proof.
  unfold conflictWhere, eventNotCancelled. do 4 f_equal.
  rewrite events_placed. destruct (events s !! r_eventId c) as [e|]; simpl;
    [|done].
  by destruct (decide _).
Qed.

(** X22: a PUT that repeats the placement an event already got from a PUT
    returns the same row and changes neither the reservation table nor
    the events; it needs no [changeReason], and it adds one record whose
    [from] and [to] are the same placement. *)
Theorem assign_repeat_changes_nothing (req req' : Request) (eventId : Id)
    (body body' : AssignBody) (s s1 : Store) (row : StandReservation) :
  uniqueEventId s ->
  assignReservation req eventId body s = (s1, Ok row) ->
  ab_layoutId body' = ab_layoutId body -> ab_standId body' = ab_standId body ->
  ab_startAt body' = ab_startAt body -> ab_endAt body' = ab_endAt body ->
  exists s2 a,
    assignReservation req' eventId body' s1 = (s2, Ok row) /\
    reservations s2 = reservations s1 /\ events s2 = events s1 /\
    newAudits s1 s2 = [a] /\ a_action a = RESERVE /\
    a_reason a = ab_changeReason body' /\
    a_changes a =
      ChReservation (Some (placementOf row)) (Some (placementOf row)).
Proof.
  intros Hu Hrun Hlay Hst Hsa Hea.
  apply assignReservation_Ok_inv in Hrun as (e & h & Ha & -> & ->).
  destruct Ha as (He & Hw & Hfree & Hl & Hs).
  set (row := assignRow eventId body e) in *.
  set (layout := mkLayoutSel (ab_layoutId body) h).
  set (a := assignAudit req eventId body (reservationOf s eventId) row).
  set (s1 := audited a (placed row (setPointers layout) s)).
  assert (events s1 !! eventId = Some (setPointers layout e)) as He1.
  { unfold s1. simpl. change eventId with (r_eventId row) at 1.
    by rewrite lookup_alter_eq, He. }
  assert (assignRow eventId body' (setPointers layout e) = row) as Hrow.
  { unfold row, assignRow. simpl. by rewrite Hlay, Hst, Hsa, Hea. }
  assert (reservationOf s1 eventId = Some row) as Hof.
  { unfold reservationOf, s1. simpl. change eventId with (r_eventId row).
    by rewrite rowsOfEvent_upsert. }
  assert (assignable s1 eventId body' (setPointers layout e) h) as Ha1.
  { split_and!.
    - exact He1.
    - by rewrite Hrow.
    - rewrite Hrow, Hst. intros c Hc.
      change (conflictWhere (placed row (setPointers layout) s)
                (ab_standId body) (NotEvent eventId) (r_startAt row)
                (r_endAt row) c = false).
      rewrite conflictWhere_placed.
      change (c ∈ upsertRow row (reservations s)) in Hc.
      apply upsertRow_elem_of in Hc as [->|Hc]; [|by apply Hfree].
      unfold conflictWhere. simpl.
      rewrite (bool_decide_eq_false_2 (eventId <> eventId)) by tauto.
      by rewrite andb_false_r.
    - by rewrite Hlay.
    - by rewrite Hst. }
  rewrite (assignReservation_written req' eventId body' s1 _ h Ha1).
  cbv zeta. rewrite Hrow, Hof.
  assert (reservationChanged (Some row) row = false) as ->.
  { unfold reservationChanged.
    by rewrite !bool_decide_eq_false_2 by tauto. }
  simpl andb. cbv iota.
  eexists _, _. split; [reflexivity|]. split_and!.
  - change (upsertRow row (upsertRow row (reservations s)) =
            upsertRow row (reservations s)).
    apply upsertRow_again.
  - change (alter (setPointers (mkLayoutSel (ab_layoutId body') h)) eventId
              (alter (setPointers layout) eventId (events s)) =
            alter (setPointers layout) eventId (events s)).
    rewrite Hlay. apply map_eq. intros id.
    destruct (decide (id = eventId)) as [->|Hne].
    + rewrite !lookup_alter_eq. by destruct (events s !! eventId).
    + by rewrite !lookup_alter_ne.
  - apply newAudits_audited_placed.
  - done.
  - simpl. by destruct (ab_changeReason body').
  - done.
Qed.

(** A run of the theorem above: E is placed on stand X of the empty
    hangar, and the same PUT is sent again without a reason. *)
Lemma assign_repeat_changes_nothing_witness :
  let body := mkAssignBody layoutL standX None None (Some "place") in
  let body' := mkAssignBody layoutL standX None None None in
  let s1 := fst (assignReservation plannerReq idE body hangarEmpty) in
  exists s2 a,
    assignReservation plannerReq idE body' s1 =
      (s2, Ok (mkReservation idE layoutL standX 5 15)) /\
    reservations s2 = reservations s1 /\ events s2 = events s1 /\
    newAudits s1 s2 = [a] /\ a_action a = RESERVE /\
    a_reason a = None /\
    a_changes a =
      ChReservation
        (Some (placementOf (mkReservation idE layoutL standX 5 15)))
        (Some (placementOf (mkReservation idE layoutL standX 5 15))).
Proof.
  intros body body' s1.
  apply (assign_repeat_changes_nothing plannerReq plannerReq idE body body'
           hangarEmpty s1 (mkReservation idE layoutL standX 5 15)).
  - unfold uniqueEventId. apply NoDup_nil_2.
  - apply (run_eq (assignReservation plannerReq idE body)). by vm_compute.
  - reflexivity.
  - reflexivity.
  - reflexivity.
  - reflexivity.
Defined.

End Effects.

(** ** Histories of calls *)

Section Histories.

Lemma reservationKeysExist_true s r :
  reservationKeysExist s r = true <->
  is_Some (events s !! r_eventId r) /\ is_Some (layouts s !! r_layoutId r) /\
  r_standId r ∈ stands s.
Proof.
  unfold reservationKeysExist.
  rewrite !andb_true_iff, !bool_decide_eq_true. tauto.
Qed.

Lemma exec_foreignKeysHold req op s :
  foreignKeysHold s -> foreignKeysHold (exec req op s).
Proof.
  apply (steps_exec (fun s s' => foreignKeysHold s -> foreignKeysHold s'));
    clear; unfold foreignKeysHold; try done.
  - intros s1 s2 s3 H1 H2 H. auto.
  - intros row s Hk Hl r [->|Hr]%upsertRow_elem_of; [done | by apply Hl].
  - intros p s Hl r Hr. apply (Hl r).
    apply list_elem_of_In in Hr. apply filter_In in Hr as [Hr _].
    by apply list_elem_of_In.
  - intros id data s _ Hl r Hr. specialize (Hl r Hr).
    apply reservationKeysExist_true in Hl as (He & Hla & Hst).
    apply reservationKeysExist_true. split_and!; try done.
    by apply events_alter_is_Some.
  - intros ids s Hl r Hr. specialize (Hl r Hr).
    apply reservationKeysExist_true in Hl as (He & Hla & Hst).
    apply reservationKeysExist_true. split_and!; try done. simpl.
    by rewrite events_clearMany_lookup, fmap_is_Some.
Qed.

(** X23: the foreign keys of the reservation table survive every history
    of calls: when each row refers to an event, a layout and a stand that
    exist, so does each row after any calls, whether they return or
    throw. *)
Theorem history_keeps_foreign_keys (calls : list (Request * Op)) (s : Store) :
  foreignKeysHold s -> foreignKeysHold (execAll calls s).
Proof.
  revert s. induction calls as [|[req op] calls IH]; intros s Hs; simpl;
    [done|].
  apply IH. by apply exec_foreignKeysHold.
Qed.

Lemma hangar0_uniqueEventId : uniqueEventId hangar0.
Proof. unfold uniqueEventId. apply (bool_decide_unpack _). by vm_compute. Qed.

Lemma history_keeps_foreign_keys_witness :
  foreignKeysHold
    (execAll
       [(plannerReq,
         OpDndMove (mkDndMoveBody idE layoutL standX (Some true) None "urgent"));
        (plannerReq, OpUnassign idE)]
       hangar0).
Proof.
  apply history_keeps_foreign_keys.
  unfold foreignKeysHold. apply Forall_forall.
  apply (bool_decide_unpack _). by vm_compute.
Defined.

(** X24: no double booking along a history.  From a table with one row
    for each event in which no two rows of events that are not cancelled
    overlap on a stand, every history of calls that never name
    [bumpedEventId] leads to such a table again. *)
Theorem history_keeps_stands_exclusive (calls : list (Request * Op))
    (s : Store) :
  uniqueEventId s -> nonOverlapping s ->
  Forall (fun call => noNamedBump call.2) calls ->
  uniqueEventId (execAll calls s) /\ nonOverlapping (execAll calls s).
Proof.
  revert s. induction calls as [|[req op] calls IH]; intros s Hu Hn Hcalls;
    simpl; [done|].
  apply Forall_cons in Hcalls as [Hop Hcalls]. simpl in Hop.
  apply IH; [by apply exec_uniqueEventId | by apply exec_nonOverlapping | done].
Qed.

Lemma history_keeps_stands_exclusive_witness :
  let calls :=
    [(plannerReq,
      OpAssign idE (mkAssignBody layoutL standY None None (Some "place")));
     (plannerReq,
      OpDndMove (mkDndMoveBody idE layoutL standX (Some true) None "urgent"));
     (plannerReq,
      OpDndPlace (mkDndPlaceBody idA layoutL standX 12 30 None None "late"))] in
  uniqueEventId (execAll calls hangar0) /\
  nonOverlapping (execAll calls hangar0).
Proof.
  intros calls. apply history_keeps_stands_exclusive.
  - apply hangar0_uniqueEventId.
  - apply hangar0_nonOverlapping.
  - repeat constructor.
Defined.

(** X25: DELETE /events/:id.  For an id without an event the call throws
    and changes nothing.  Otherwise the event is gone together with its
    reservation and with all its audit records, the rows and records of
    the other events stay as they are, and the table still has its
    foreign keys, one row for each event and no double booking when it had
    them before. *)
Theorem deleteEvent_cascades (id : Id) (s : Store) :
  (events s !! id = None -> deleteEvent id s = (s, Err NotFound)) /\
  (is_Some (events s !! id) ->
   exists s',
     deleteEvent id s = (s', Ok tt) /\
     events s' !! id = None /\
     (forall id', id' <> id -> events s' !! id' = events s !! id') /\
     (forall r, r ∈ reservations s' <-> r ∈ reservations s /\ r_eventId r <> id) /\
     (forall a, a ∈ audits s' <-> a ∈ audits s /\ a_eventId a <> id) /\
     (foreignKeysHold s -> foreignKeysHold s') /\
     (uniqueEventId s -> nonOverlapping s ->
      uniqueEventId s' /\ nonOverlapping s')).
Proof.
  split.
  - intros He. unfold deleteEvent. by rewrite He.
  - intros [e He]. unfold deleteEvent. rewrite He. eexists.
    split; [reflexivity|].
    set (s' := mkStore _ _ _ _ _ _).
    assert (forall r, r ∈ reservations s' <->
              r ∈ reservations s /\ r_eventId r <> id) as Hrows.
    { intros r. unfold s'. simpl.
      rewrite list_elem_of_In, filter_In, <- list_elem_of_In.
      rewrite negb_true_iff, bool_decide_eq_false. tauto. }
    assert (forall r, r ∈ reservations s' ->
              eventNotCancelled s' r = eventNotCancelled s r) as Hnc.
    { intros r [_ Hne]%Hrows. unfold eventNotCancelled, s'. simpl.
      by rewrite lookup_delete_ne. }
    split_and!.
    + apply lookup_delete_eq.
    + intros id' Hne. unfold s'. simpl. by rewrite lookup_delete_ne.
    + exact Hrows.
    + intros a. unfold s'. simpl.
      rewrite list_elem_of_In, filter_In, <- list_elem_of_In.
      rewrite negb_true_iff, bool_decide_eq_false. tauto.
    + intros Hfk r Hr. apply Hrows in Hr as Hr'. destruct Hr' as [Hin Hne].
      specialize (Hfk r Hin).
      apply reservationKeysExist_true in Hfk as (Hev & Hla & Hst).
      apply reservationKeysExist_true. split_and!; try done.
      unfold s'. simpl. by rewrite lookup_delete_ne.
    + intros Hu Hno.
      assert (uniqueEventId s') as Hu'.
      { unfold uniqueEventId, s'. simpl.
        by apply filter_negb_eventIds_NoDup. }
      split; [exact Hu'|].
      apply nonOverlapping_events; [exact Hu'|].
      apply nonOverlapping_events in Hno; [|exact Hu].
      intros a b Ha Hb Hne Hst Hca Hcb.
      rewrite Hnc in Hca by done. rewrite Hnc in Hcb by done.
      apply Hrows in Ha as [Ha _]. apply Hrows in Hb as [Hb _].
      by apply (Hno a b).
Qed.

(** A run of the theorem above: event A of [hangar0] is deleted. *)
Lemma deleteEvent_cascades_witness :
  exists s',
    deleteEvent idA hangar0 = (s', Ok tt) /\
    events s' !! idA = None /\
    (forall id', id' <> idA -> events s' !! id' = events hangar0 !! id') /\
    (forall r, r ∈ reservations s' <->
       r ∈ reservations hangar0 /\ r_eventId r <> idA) /\
    (forall a, a ∈ audits s' <-> a ∈ audits hangar0 /\ a_eventId a <> idA) /\
    (foreignKeysHold hangar0 -> foreignKeysHold s') /\
    (uniqueEventId hangar0 -> nonOverlapping hangar0 ->
     uniqueEventId s' /\ nonOverlapping s').
Proof.
  apply (proj2 (deleteEvent_cascades idA hangar0)).
  exists eventA. by vm_compute.
Defined.

End Histories.

End Planning.
